(** * MQTTSwitch: a shallow embedding of the Arduino sketch

    The sketch is a single translation unit (MQTTSwitch.ino).  Two revisions
    of it are modelled: the Bluetooth-only revision (settings header 0xD2),
    whose definitions live at top level, and the later revision that adds an
    access point and a web form (settings header 0xD3), whose differing
    functions live in [Module Rev2].

    Conventions.
    - [unsigned long] is 32 bits wide on the ESP32; it is a [Z] in
      [0, 2^32) and every subtraction is wrapped explicitly.
    - a [char] is a [Z]; a C string is a [list Z] read up to its first zero,
      the end of the list standing for the terminating zero.
    - the global variables and the function-local statics form the record
      [Device]; calls into the Arduino libraries are recorded as [event]s,
      and what the libraries report (clock, link status, console input) is
      passed in as arguments. *)

From Stdlib Require Import String Ascii ZArith List Bool Lia.
Import ListNotations.
Local Open Scope Z_scope.

(** ** Clock *)

Module Clock.

Definition width : Z := 32.
Definition modulus : Z := 2 ^ width.

(** The value an [unsigned long] holds after a computation whose
    mathematical result is [x]. *)
Definition wrap (x : Z) : Z := x mod modulus.

(** [now - since] on [unsigned long]. *)
Definition elapsed (now since : Z) : Z := wrap (now - since).

End Clock.

Import Clock.

(** ** C strings *)

Module CStr.

Definition NUL : Z := 0.

(** A string literal of the source as character codes. *)
Definition lit (s : string) : list Z :=
  map (fun a => Z.of_N (N_of_ascii a)) (list_ascii_of_string s).

(** Reading the character [p] points to: the end of the list is the
    terminating zero. *)
Definition deref (p : list Z) : Z :=
  match p with [] => NUL | c :: _ => c end.

(** The characters of the C string that starts at [p]. *)
Fixpoint cstr (p : list Z) : list Z :=
  match p with
  | [] => []
  | c :: p' => if c =? NUL then [] else c :: cstr p'
  end.

Definition strlen (p : list Z) : nat := length (cstr p).

(** <ctype.h> in the C locale. *)
Definition isspace (c : Z) : bool := (c =? 32) || ((9 <=? c) && (c <=? 13)).
Definition isdigit (c : Z) : bool := (48 <=? c) && (c <=? 57).
Definition tolower (c : Z) : Z :=
  if (65 <=? c) && (c <=? 90) then c + 32 else c.

(** [strcmp]: the difference of the first pair of characters that differ,
    zero when the strings are equal. *)
Fixpoint strcmp (a b : list Z) : Z :=
  match a, b with
  | [], _ => NUL - deref b
  | x :: a', [] => x - NUL
  | x :: a', y :: b' =>
      if x =? y then (if x =? NUL then 0 else strcmp a' b') else x - y
  end.

(** [strncmp]: as [strcmp], over at most [n] characters. *)
Fixpoint strncmp (a b : list Z) (n : nat) {struct n} : Z :=
  match n with
  | O => 0
  | S n' =>
      match a, b with
      | [], _ => NUL - deref b
      | x :: a', [] => x - NUL
      | x :: a', y :: b' =>
          if x =? y then (if x =? NUL then 0 else strncmp a' b' n')
          else x - y
      end
  end.

(** [strcasecmp]: as [strcmp] on the lower-cased characters. *)
Fixpoint strcasecmp (a b : list Z) : Z :=
  match a, b with
  | [], _ => tolower NUL - tolower (deref b)
  | x :: a', [] => tolower x - tolower NUL
  | x :: a', y :: b' =>
      if tolower x =? tolower y
      then (if x =? NUL then 0 else strcasecmp a' b')
      else tolower x - tolower y
  end.

(** [memset(buf, c, n)]. *)
Definition memset (buf : list Z) (c : Z) (n : nat) : list Z :=
  repeat c n ++ skipn n buf.

(** [memcpy(dst, src, n)], for [n] within both objects. *)
Definition memcpy (dst src : list Z) (n : nat) : list Z :=
  firstn n src ++ skipn n dst.

(** [strncpy(dst, src, n)]: the characters of [src], at most [n] of them,
    then zeros up to [n] characters written in all. *)
Definition strncpy (dst src : list Z) (n : nat) : list Z :=
  firstn n (cstr src ++ repeat NUL n) ++ skipn n dst.

(** [char name[n] = "..."]: the literal, then zeros. *)
Definition array (n : nat) (s : list Z) : list Z :=
  firstn n (s ++ repeat NUL n).

End CStr.

Import CStr.

(** ** Constants of the sketch and of the libraries it uses *)

Definition BUTTON_PIN : Z := 15.
Definition POWER_PIN : Z := 4.
Definition SETTINGS_HEADER : Z := 0xD2.
Definition DEBOUNCE_MILLIS : Z := 50.

(** [wl_status_t] of WiFi.h. *)
Inductive wl_status_t :=
| WL_NO_SHIELD | WL_IDLE_STATUS | WL_NO_SSID_AVAIL | WL_SCAN_COMPLETED
| WL_CONNECTED | WL_CONNECT_FAILED | WL_CONNECTION_LOST | WL_DISCONNECTED.

Definition wl_status_eqb (a b : wl_status_t) : bool :=
  match a, b with
  | WL_NO_SHIELD, WL_NO_SHIELD | WL_IDLE_STATUS, WL_IDLE_STATUS
  | WL_NO_SSID_AVAIL, WL_NO_SSID_AVAIL | WL_SCAN_COMPLETED, WL_SCAN_COMPLETED
  | WL_CONNECTED, WL_CONNECTED | WL_CONNECT_FAILED, WL_CONNECT_FAILED
  | WL_CONNECTION_LOST, WL_CONNECTION_LOST
  | WL_DISCONNECTED, WL_DISCONNECTED => true
  | _, _ => false
  end.

(** The [int] states of PubSubClient.h. *)
Definition MQTT_CONNECTION_TIMEOUT : Z := -4.
Definition MQTT_CONNECTION_LOST : Z := -3.
Definition MQTT_CONNECT_FAILED : Z := -2.
Definition MQTT_DISCONNECTED : Z := -1.
Definition MQTT_CONNECTED : Z := 0.
Definition MQTT_CONNECT_BAD_PROTOCOL : Z := 1.
Definition MQTT_CONNECT_BAD_CLIENT_ID : Z := 2.
Definition MQTT_CONNECT_UNAVAILABLE : Z := 3.
Definition MQTT_CONNECT_BAD_CREDENTIALS : Z := 4.
Definition MQTT_CONNECT_UNAUTHORIZED : Z := 5.

(** [WIFI_OFF] of WiFi.h and [std::numeric_limits<uint16_t>::max()]. *)
Definition WIFI_OFF : Z := 0.
Definition UINT16_MAX : Z := 65535.
Definition LONG_MAX : Z := 2147483647.
Definition LONG_MIN : Z := -2147483648.

(** ** Settings *)

Record Settings := mkSettings {
  header : Z;                       (* uint8_t *)
  device_name : list Z;             (* char[32] *)
  wifi_ssid : list Z;               (* char[32] *)
  wifi_password : list Z;           (* char[32] *)
  mqtt_server : list Z;             (* char[16] *)
  mqtt_port : Z;                    (* uint16_t *)
  mqtt_id : list Z;                 (* char[16] *)
  mqtt_user : list Z;               (* char[16] *)
  mqtt_password : list Z;           (* char[16] *)
  mqtt_control_topic : list Z;      (* char[32] *)
  mqtt_status_topic : list Z        (* char[32] *)
}.

(** The member initialisers of [struct Settings], for a given header. *)
Definition initial_settings (magic : Z) : Settings :=
  {| header := magic;
     device_name := array 32 (lit "MQTTSwitch");
     wifi_ssid := array 32 (lit "");
     wifi_password := array 32 (lit "");
     mqtt_server := array 16 (lit "");
     mqtt_port := 1883;
     mqtt_id := array 16 (lit "");
     mqtt_user := array 16 (lit "");
     mqtt_password := array 16 (lit "");
     mqtt_control_topic := array 32 (lit "");
     mqtt_status_topic := array 32 (lit "") |}.

Definition default_settings : Settings := initial_settings SETTINGS_HEADER.

(** A [char*] into [settings]: the member it points to. *)
Inductive field :=
| f_device_name | f_wifi_ssid | f_wifi_password | f_mqtt_server | f_mqtt_id
| f_mqtt_user | f_mqtt_password | f_mqtt_control_topic | f_mqtt_status_topic.

Definition sizeof (f : field) : nat :=
  match f with
  | f_device_name | f_wifi_ssid | f_wifi_password
  | f_mqtt_control_topic | f_mqtt_status_topic => 32
  | f_mqtt_server | f_mqtt_id | f_mqtt_user | f_mqtt_password => 16
  end.

Definition member (f : field) (s : Settings) : list Z :=
  match f with
  | f_device_name => device_name s
  | f_wifi_ssid => wifi_ssid s
  | f_wifi_password => wifi_password s
  | f_mqtt_server => mqtt_server s
  | f_mqtt_id => mqtt_id s
  | f_mqtt_user => mqtt_user s
  | f_mqtt_password => mqtt_password s
  | f_mqtt_control_topic => mqtt_control_topic s
  | f_mqtt_status_topic => mqtt_status_topic s
  end.

Definition store (f : field) (v : list Z) (s : Settings) : Settings :=
  let 'mkSettings h dn ws wp ms mp mi mu mw ct st := s in
  match f with
  | f_device_name => mkSettings h v ws wp ms mp mi mu mw ct st
  | f_wifi_ssid => mkSettings h dn v wp ms mp mi mu mw ct st
  | f_wifi_password => mkSettings h dn ws v ms mp mi mu mw ct st
  | f_mqtt_server => mkSettings h dn ws wp v mp mi mu mw ct st
  | f_mqtt_id => mkSettings h dn ws wp ms mp v mu mw ct st
  | f_mqtt_user => mkSettings h dn ws wp ms mp mi v mw ct st
  | f_mqtt_password => mkSettings h dn ws wp ms mp mi mu v ct st
  | f_mqtt_control_topic => mkSettings h dn ws wp ms mp mi mu mw v st
  | f_mqtt_status_topic => mkSettings h dn ws wp ms mp mi mu mw ct v
  end.

Definition store_port (p : Z) (s : Settings) : Settings :=
  let 'mkSettings h dn ws wp ms _ mi mu mw ct st := s in
  mkSettings h dn ws wp ms p mi mu mw ct st.

(** ** The device: globals and function-local statics *)

Record Device := mkDevice {
  settings : Settings;
  power_enable : bool;
  bluetooth_enable : bool;
  bluetooth_enable_millis : Z;
  wifi_last_try : Z;
  mqtt_last_try : Z;
  (* static in EnsureWiFi, EnsureMQTT *)
  last_status : wl_status_t;
  last_state : Z;
  (* static in ButtonChangeISR *)
  button_press : bool;
  button_press_millis : Z;
  (* static in loop; the last two take their value on the first call *)
  last_blink : Z;
  blink_delay : Z;
  last_bluetooth_has_client : bool;
  loop_entered : bool;
  last_power_enable : bool;
  last_bluetooth_enable : bool
}.

(** The state at reset: zero-initialised globals and the static
    initialisers. *)
Definition reset : Device :=
  {| settings := default_settings;
     power_enable := false;
     bluetooth_enable := false;
     bluetooth_enable_millis := 0;
     wifi_last_try := 0;
     mqtt_last_try := 0;
     last_status := WL_NO_SHIELD;
     last_state := MQTT_DISCONNECTED;
     button_press := false;
     button_press_millis := 0;
     last_blink := 0;
     blink_delay := 0;
     last_bluetooth_has_client := false;
     loop_entered := false;
     last_power_enable := false;
     last_bluetooth_enable := false |}.

Definition set_settings (v : Settings) (d : Device) : Device :=
  let 'mkDevice _ a b c e f g h i j k l m n o p := d in
  mkDevice v a b c e f g h i j k l m n o p.
Definition set_power_enable (v : bool) (d : Device) : Device :=
  let 'mkDevice z _ b c e f g h i j k l m n o p := d in
  mkDevice z v b c e f g h i j k l m n o p.
Definition set_bluetooth_enable (v : bool) (d : Device) : Device :=
  let 'mkDevice z a _ c e f g h i j k l m n o p := d in
  mkDevice z a v c e f g h i j k l m n o p.
Definition set_bluetooth_enable_millis (v : Z) (d : Device) : Device :=
  let 'mkDevice z a b _ e f g h i j k l m n o p := d in
  mkDevice z a b v e f g h i j k l m n o p.
Definition set_wifi_last_try (v : Z) (d : Device) : Device :=
  let 'mkDevice z a b c _ f g h i j k l m n o p := d in
  mkDevice z a b c v f g h i j k l m n o p.
Definition set_mqtt_last_try (v : Z) (d : Device) : Device :=
  let 'mkDevice z a b c e _ g h i j k l m n o p := d in
  mkDevice z a b c e v g h i j k l m n o p.
Definition set_last_status (v : wl_status_t) (d : Device) : Device :=
  let 'mkDevice z a b c e f _ h i j k l m n o p := d in
  mkDevice z a b c e f v h i j k l m n o p.
Definition set_last_state (v : Z) (d : Device) : Device :=
  let 'mkDevice z a b c e f g _ i j k l m n o p := d in
  mkDevice z a b c e f g v i j k l m n o p.
Definition set_button_press (v : bool) (d : Device) : Device :=
  let 'mkDevice z a b c e f g h _ j k l m n o p := d in
  mkDevice z a b c e f g h v j k l m n o p.
Definition set_button_press_millis (v : Z) (d : Device) : Device :=
  let 'mkDevice z a b c e f g h i _ k l m n o p := d in
  mkDevice z a b c e f g h i v k l m n o p.
Definition set_last_blink (v : Z) (d : Device) : Device :=
  let 'mkDevice z a b c e f g h i j _ l m n o p := d in
  mkDevice z a b c e f g h i j v l m n o p.
Definition set_blink_delay (v : Z) (d : Device) : Device :=
  let 'mkDevice z a b c e f g h i j k _ m n o p := d in
  mkDevice z a b c e f g h i j k v m n o p.
Definition set_last_bluetooth_has_client (v : bool) (d : Device) : Device :=
  let 'mkDevice z a b c e f g h i j k l _ n o p := d in
  mkDevice z a b c e f g h i j k l v n o p.
Definition set_loop_entered (v : bool) (d : Device) : Device :=
  let 'mkDevice z a b c e f g h i j k l m _ o p := d in
  mkDevice z a b c e f g h i j k l m v o p.
Definition set_last_power_enable (v : bool) (d : Device) : Device :=
  let 'mkDevice z a b c e f g h i j k l m n _ p := d in
  mkDevice z a b c e f g h i j k l m n v p.
Definition set_last_bluetooth_enable (v : bool) (d : Device) : Device :=
  let 'mkDevice z a b c e f g h i j k l m n o _ := d in
  mkDevice z a b c e f g h i j k l m n o v.

(** ** Calls into the libraries *)

Inductive pin_mode := INPUT_PULLUP | OUTPUT.
Inductive http_method := HTTP_GET | HTTP_POST.

Inductive event :=
| pinMode (pin : Z) (mode : pin_mode)
| attachInterrupt_CHANGE (pin : Z)
| Serial_begin (baud : Z)
| EEPROM_begin
| mqtt_setSocketTimeout (seconds : Z)
| mqtt_setCallback
| SPIFFS_begin
| web_server_on (path : list Z) (method : http_method)
| Serial_print (s : list Z)
| Serial_println (s : list Z)
| bt_print (s : list Z)
| bt_println (s : list Z)
| bt_println_int (n : Z)
| bt_begin (name : list Z)
| bt_end
| digitalWrite (pin : Z) (level : bool)
| EEPROM_put (s : Settings)
| EEPROM_commit
| WiFi_disconnect
| WiFi_setHostname (name : list Z)
| WiFi_begin (ssid pass : list Z)
| mqtt_disconnect
| mqtt_setServer (host : list Z) (port : Z)
| mqtt_connect (id : list Z) (auth : option (list Z * list Z))
    (willTopic : list Z) (willQos : Z) (willRetain : bool) (willMessage : list Z)
| mqtt_subscribe (topic : list Z) (qos : Z)
| mqtt_publish (topic payload : list Z) (retained : bool)
| mqtt_loop.

(** ** Sequencing: state, output and faults *)

Inductive fault := null_dereference.

Inductive outcome (A : Type) :=
| Done (a : A) (d : Device) (out : list event)
| Crash (f : fault) (out : list event).
Arguments Done {A}.
Arguments Crash {A}.

Definition M (A : Type) : Type := Device -> outcome A.

Definition ret {A} (a : A) : M A := fun d => Done a d [].

Definition bind {A B} (m : M A) (k : A -> M B) : M B :=
  fun d =>
    match m d with
    | Done a d1 o1 =>
        match k a d1 with
        | Done b d2 o2 => Done b d2 (o1 ++ o2)
        | Crash f o2 => Crash f (o1 ++ o2)
        end
    | Crash f o1 => Crash f o1
    end.

Definition get {A} (proj : Device -> A) : M A := fun d => Done (proj d) d [].
Definition upd (f : Device -> Device) : M unit := fun d => Done tt (f d) [].
Definition emit (e : event) : M unit := fun d => Done tt d [e].
Definition crash {A} (f : fault) : M A := fun _ => Crash f [].

Declare Scope prog_scope.
Delimit Scope prog_scope with prog.
Notation "x <- m ;; k" := (bind m (fun x => k))
  (at level 61, m at next level, right associativity) : prog_scope.
Notation "m ;; k" := (bind m (fun _ => k))
  (at level 61, right associativity) : prog_scope.
Local Open Scope prog_scope.

Definition when (c : bool) (m : M unit) : M unit := if c then m else ret tt.

(** What a run leaves behind. *)
Definition output {A} (r : outcome A) : list event :=
  match r with Done _ _ o => o | Crash _ o => o end.

Definition final {A} (r : outcome A) : option Device :=
  match r with Done _ d _ => Some d | Crash _ _ => None end.

(** ** The functions of the sketch *)

Definition SaveSettings : M unit :=
  s <- get settings ;;
  emit (EEPROM_put s) ;;
  emit EEPROM_commit.

Definition help_lines : list string :=
  ["Help:"; " help"; " on"; " off"; " status"; " device-name [<name>]";
   " mqtt-server [<IPaddr>]"; " mqtt-status"; " mqtt-port [<port>]";
   " mqtt-id [<id>]"; " mqtt-auth <user> [<password>]";
   " mqtt-control-topic [<topic>]"; " mqtt-status-topic [<topic>]";
   " wifi <ssid> [<password>]"; " wifi-status"]%string.

Fixpoint println_all (ls : list string) : M unit :=
  match ls with
  | [] => ret tt
  | l :: ls' => emit (bt_println (lit l)) ;; println_all ls'
  end.

Definition PrintHelp : M unit := println_all help_lines.

Definition wifiStatusString (status : wl_status_t) : list Z :=
  match status with
  | WL_NO_SHIELD => lit "NO_SHIELD"
  | WL_IDLE_STATUS => lit "IDLE"
  | WL_NO_SSID_AVAIL => lit "NO_SSID_AVAIL"
  | WL_SCAN_COMPLETED => lit "SCAN_COMPLETED"
  | WL_CONNECTED => lit "CONNECTED"
  | WL_CONNECT_FAILED => lit "CONNECT_FAILED"
  | WL_CONNECTION_LOST => lit "CONNECTION_LOST"
  | WL_DISCONNECTED => lit "DISCONNECTED"
  end.

Definition mqttStateString (state : Z) : list Z :=
  if state =? MQTT_CONNECTION_TIMEOUT then lit "CONNECTION_TIMEOUT"
  else if state =? MQTT_CONNECTION_LOST then lit "CONNECTION_LOST"
  else if state =? MQTT_CONNECT_FAILED then lit "CONNECT_FAILED"
  else if state =? MQTT_DISCONNECTED then lit "DISCONNECTED"
  else if state =? MQTT_CONNECTED then lit "CONNECTED"
  else if state =? MQTT_CONNECT_BAD_PROTOCOL then lit "CONNECT_BAD_PROTOCOL"
  else if state =? MQTT_CONNECT_BAD_CLIENT_ID then lit "CONNECT_BAD_CLIENT_ID"
  else if state =? MQTT_CONNECT_UNAVAILABLE then lit "CONNECT_UNAVAILABLE"
  else if state =? MQTT_CONNECT_BAD_CREDENTIALS
       then lit "CONNECT_BAD_CREDENTIALS"
  else if state =? MQTT_CONNECT_UNAUTHORIZED then lit "CONNECT_UNAUTHORIZED"
  else lit "(unknown)".

Definition RestartMQTT : M unit :=
  emit mqtt_disconnect ;;
  upd (set_mqtt_last_try 0).

Definition RestartWiFi : M unit :=
  RestartMQTT ;;
  emit WiFi_disconnect ;;
  upd (set_wifi_last_try 0).

Definition PublishStatus : M unit :=
  s <- get settings ;;
  when (0 <? strlen (mqtt_status_topic s))%nat
    (p <- get power_enable ;;
     emit (mqtt_publish (cstr (mqtt_status_topic s))
             (if p then lit "ON" else lit "OFF") true)).

(** [status] is what [WiFi.status()] returns and [now] what [millis()]
    returns. *)
Definition EnsureWiFi (status : wl_status_t) (now : Z) : M bool :=
  last <- get last_status ;;
  when (negb (wl_status_eqb status last))
    (upd (set_last_status status) ;;
     emit (Serial_print (lit "WiFi state changed to ")) ;;
     emit (Serial_print (wifiStatusString status)) ;;
     emit (Serial_println (lit "."))) ;;
  if wl_status_eqb status WL_CONNECTED then ret true else
  s <- get settings ;;
  if (strlen (wifi_ssid s) =? 0)%nat then ret false else
  last_try <- get wifi_last_try ;;
  when ((last_try =? 0) || (60000 <=? elapsed now last_try))
    (upd (set_wifi_last_try now) ;;
     emit (Serial_print (lit "Connecting to WiFi SSID ")) ;;
     emit (Serial_print (cstr (wifi_ssid s))) ;;
     emit (Serial_println (lit ".")) ;;
     emit (WiFi_setHostname (cstr (device_name s))) ;;
     emit (WiFi_begin (cstr (wifi_ssid s)) (cstr (wifi_password s)))) ;;
  ret false.

(** [state] is what [mqtt.state()] returns, [now] what [millis()] returns
    and [success] what [mqtt.connect(...)] returns. *)
Definition EnsureMQTT (state now : Z) (success : bool) : M bool :=
  last <- get last_state ;;
  when (negb (state =? last))
    (upd (set_last_state state) ;;
     emit (Serial_print (lit "MQTT state changed to ")) ;;
     emit (Serial_print (mqttStateString state)) ;;
     emit (Serial_println (lit ".")) ;;
     when (state =? MQTT_CONNECTED) PublishStatus) ;;
  if state =? MQTT_CONNECTED then ret true else
  s <- get settings ;;
  if (strlen (mqtt_server s) =? 0)%nat then ret false else
  last_try <- get mqtt_last_try ;;
  if (last_try =? 0) || (60000 <=? elapsed now last_try) then
    upd (set_mqtt_last_try now) ;;
    emit (Serial_print (lit "Connecting to MQTT server ")) ;;
    emit (Serial_print (cstr (mqtt_server s))) ;;
    emit (Serial_println (lit ".")) ;;
    emit (mqtt_setServer (cstr (mqtt_server s)) (mqtt_port s)) ;;
    let id := if (strlen (mqtt_id s) =? 0)%nat
              then device_name s else mqtt_id s in
    (if (strlen (mqtt_user s) =? 0)%nat
     then emit (mqtt_connect (cstr id) None
                  (cstr (mqtt_status_topic s)) 1 true (lit "OFFLINE"))
     else emit (mqtt_connect (cstr id)
                  (Some (cstr (mqtt_user s), cstr (mqtt_password s)))
                  (cstr (mqtt_status_topic s)) 1 true (lit "OFFLINE"))) ;;
    when (success && (0 <? strlen (mqtt_control_topic s))%nat)
      (emit (mqtt_subscribe (cstr (mqtt_control_topic s)) 1)) ;;
    ret success
  else ret false.

(** *** The console *)

(** The first loop of [tokenSplit]: advance [ptr] over blanks, stopping
    at the terminating zero. *)
Fixpoint skip_spaces (ptr : list Z) : list Z :=
  match ptr with
  | [] => []
  | c :: ptr' =>
      if negb (c =? NUL) && isspace c then skip_spaces ptr' else ptr
  end.

(** The second loop of [tokenSplit], entered with [ptr] one before [rest]:
    pre-increment, stop at a zero or a blank.  Returns the characters
    walked over and where [ptr] stops. *)
Fixpoint scan_token (rest : list Z) : list Z * list Z :=
  match rest with
  | [] => ([], [])
  | c :: rest' =>
      if negb (c =? NUL) && negb (isspace c)
      then let '(tok, stop) := scan_token rest' in (c :: tok, stop)
      else ([], rest)
  end.

(** [tokenSplit(ptr)]: the token returned and the new value of [ptr];
    [None] is [nullptr].  The token is the C string that the zero written
    over the separator ends. *)
Definition tokenSplit (ptr : option (list Z))
  : option (list Z) * option (list Z) :=
  match ptr with
  | None => (None, None)
  | Some p =>
      let p := skip_spaces p in
      if deref p =? NUL then (None, Some p)
      else
        let '(tok, stop) := scan_token (tl p) in
        let token := deref p :: tok in
        if negb (deref stop =? NUL) then (Some token, Some (tl stop))
        else (Some token, None)
  end.

(** [SettingsReadWriteHelper(settings.<f>, sizeof(settings.<f>), new_value)]. *)
Definition poke (f : field) (g : list Z -> list Z) : M unit :=
  upd (fun d => set_settings (store f (g (member f (settings d))) (settings d)) d).

Definition SettingsReadWriteHelper (f : field) (size : nat)
    (new_value : option (list Z)) : M bool :=
  match new_value with
  | Some v =>
      poke f (fun b => memset b 0 size) ;;
      when (negb (strcmp v (lit "-") =? 0))
        (poke f (fun b => strncpy b v (size - 1))) ;;
      SaveSettings ;;
      emit (bt_println (lit "Settings saved.")) ;;
      ret true
  | None =>
      s <- get settings ;;
      emit (bt_println (cstr (member f s))) ;;
      ret false
  end.

(** [atoi] is [(int) strtol(s, NULL, 10)]: blanks, a sign, digits; the
    value saturates at the bounds of [long]. *)
Fixpoint digits (acc : Z) (p : list Z) : Z :=
  match p with
  | [] => acc
  | c :: p' => if isdigit c then digits (acc * 10 + (c - 48)) p' else acc
  end.

Definition atoi (p : list Z) : Z :=
  let p := skip_spaces p in
  if deref p =? 45 then Z.max LONG_MIN (- digits 0 (tl p))
  else if deref p =? 43 then Z.min LONG_MAX (digits 0 (tl p))
  else Z.min LONG_MAX (digits 0 p).

(** [strcmp(cmd, "...")] where [cmd] may be [nullptr]. *)
Definition strcmp_at (p : option (list Z)) (b : list Z) : M Z :=
  match p with
  | Some a => ret (strcmp a b)
  | None => crash null_dereference
  end.

(** What the console and the libraries report to one call of
    [PollBluetoothCommand]. *)
Record Console := mkConsole {
  bt_line : option (list Z);   (* bt.available(), bt.readStringUntil *)
  mqtt_state_now : Z;          (* mqtt.state() *)
  WiFi_getMode : Z;
  WiFi_status_now : wl_status_t;
  WiFi_SSID : list Z;
  WiFi_BSSIDstr : list Z;
  WiFi_RSSI : Z;
  WiFi_localIP : list Z
}.

Definition PollBluetoothCommand (c : Console) : M unit :=
  match bt_line c with
  | None => ret tt
  | Some input =>
      (* strcpy(buf, input.c_str()); ptr = buf *)
      let buf := cstr input in
      let '(cmd, ptr) := tokenSplit (Some buf) in
      r <- strcmp_at cmd (lit "help") ;;
      if r =? 0 then PrintHelp else
      r <- strcmp_at cmd (lit "on") ;;
      if r =? 0 then upd (set_power_enable true) else
      r <- strcmp_at cmd (lit "off") ;;
      if r =? 0 then upd (set_power_enable false) else
      r <- strcmp_at cmd (lit "status") ;;
      if r =? 0 then
        p <- get power_enable ;;
        emit (bt_println (if p then lit "on" else lit "off"))
      else
      r <- strcmp_at cmd (lit "device-name") ;;
      if r =? 0 then
        let '(name, _) := tokenSplit ptr in
        changed <- SettingsReadWriteHelper f_device_name
                     (sizeof f_device_name) name ;;
        when changed RestartWiFi
      else
      r <- strcmp_at cmd (lit "mqtt-status") ;;
      if r =? 0 then emit (bt_println (mqttStateString (mqtt_state_now c)))
      else
      r <- strcmp_at cmd (lit "mqtt-server") ;;
      if r =? 0 then
        let '(host, _) := tokenSplit ptr in
        changed <- SettingsReadWriteHelper f_mqtt_server
                     (sizeof f_mqtt_server) host ;;
        when changed RestartMQTT
      else
      r <- strcmp_at cmd (lit "mqtt-port") ;;
      if r =? 0 then
        let '(port, _) := tokenSplit ptr in
        match port with
        | Some port =>
            let p := atoi port in
            if (p <? 1) || (UINT16_MAX <? p)
            then emit (bt_println (lit "Error: invalid port number"))
            else
              upd (fun d => set_settings (store_port p (settings d)) d) ;;
              SaveSettings ;;
              emit (bt_println (lit "Settings saved!")) ;;
              RestartMQTT
        | None =>
            s <- get settings ;;
            emit (bt_println_int (mqtt_port s))
        end
      else
      r <- strcmp_at cmd (lit "mqtt-id") ;;
      if r =? 0 then
        let '(id, _) := tokenSplit ptr in
        changed <- SettingsReadWriteHelper f_mqtt_id (sizeof f_mqtt_id) id ;;
        when changed RestartMQTT
      else
      r <- strcmp_at cmd (lit "mqtt-auth") ;;
      if r =? 0 then
        let '(user, ptr) := tokenSplit ptr in
        match user with
        | None => emit (bt_println (lit "Error: must specify user"))
        | Some user =>
            let '(password, _) := tokenSplit ptr in
            poke f_mqtt_user (fun b => memset b 0 (sizeof f_mqtt_user)) ;;
            poke f_mqtt_password
              (fun b => memset b 0 (sizeof f_mqtt_password)) ;;
            poke f_mqtt_user
              (fun b => strncpy b user (sizeof f_mqtt_user - 1)) ;;
            match password with
            | Some password =>
                poke f_mqtt_password
                  (fun b => strncpy b password (sizeof f_mqtt_password - 1))
            | None => ret tt
            end ;;
            SaveSettings ;;
            emit (bt_println (lit "Settings saved!")) ;;
            RestartMQTT
        end
      else
      r <- strcmp_at cmd (lit "mqtt-control-topic") ;;
      if r =? 0 then
        let '(topic, _) := tokenSplit ptr in
        changed <- SettingsReadWriteHelper f_mqtt_control_topic
                     (sizeof f_mqtt_control_topic) topic ;;
        when changed (emit mqtt_disconnect)
      else
      r <- strcmp_at cmd (lit "mqtt-status-topic") ;;
      if r =? 0 then
        let '(topic, _) := tokenSplit ptr in
        changed <- SettingsReadWriteHelper f_mqtt_status_topic
                     (sizeof f_mqtt_status_topic) topic ;;
        when changed RestartMQTT
      else
      r <- strcmp_at cmd (lit "wifi") ;;
      if r =? 0 then
        let '(ssid, ptr) := tokenSplit ptr in
        match ssid with
        | None => emit (bt_println (lit "Error: must specify SSID"))
        | Some ssid =>
            let '(password, _) := tokenSplit ptr in
            poke f_wifi_ssid (fun b => memset b 0 (sizeof f_wifi_ssid)) ;;
            poke f_wifi_password
              (fun b => memset b 0 (sizeof f_wifi_password)) ;;
            poke f_wifi_ssid
              (fun b => strncpy b ssid (sizeof f_wifi_ssid - 1)) ;;
            match password with
            | Some password =>
                poke f_wifi_password
                  (fun b => strncpy b password (sizeof f_wifi_password - 1))
            | None => ret tt
            end ;;
            SaveSettings ;;
            emit (bt_println (lit "Settings saved!")) ;;
            RestartWiFi
        end
      else
      r <- strcmp_at cmd (lit "wifi-status") ;;
      if r =? 0 then
        emit (bt_print (lit "Mode: ")) ;;
        emit (bt_println_int (WiFi_getMode c)) ;;
        if WiFi_getMode c =? WIFI_OFF then ret tt else
        emit (bt_print (lit "Status: ")) ;;
        emit (bt_println (wifiStatusString (WiFi_status_now c))) ;;
        if negb (wl_status_eqb (WiFi_status_now c) WL_CONNECTED) then ret tt
        else
        emit (bt_print (lit "SSID: ")) ;;
        emit (bt_println (WiFi_SSID c)) ;;
        emit (bt_print (lit "BSSID: ")) ;;
        emit (bt_println (WiFi_BSSIDstr c)) ;;
        emit (bt_print (lit "RSSI: ")) ;;
        emit (bt_println_int (WiFi_RSSI c)) ;;
        emit (bt_print (lit "IP: ")) ;;
        emit (bt_println (WiFi_localIP c))
      else
        emit (bt_println (lit "Error: command not found"))
  end.

(** *** The button *)

(** [now] is what [millis()] returns and [low] whether
    [digitalRead(BUTTON_PIN) == LOW]. *)
Definition ButtonChangeISR (now : Z) (low : bool) : M unit :=
  pressed <- get button_press ;;
  if low then
    when (negb pressed)
      (upd (set_button_press true) ;;
       upd (set_button_press_millis now))
  else
    when pressed
      (upd (set_button_press false) ;;
       since <- get button_press_millis ;;
       let hold_millis := elapsed now since in
       if 5000 <=? hold_millis then
         b <- get bluetooth_enable ;;
         upd (set_bluetooth_enable (negb b))
       else
         when (DEBOUNCE_MILLIS <=? hold_millis)
           (p <- get power_enable ;;
            upd (set_power_enable (negb p)) ;;
            p <- get power_enable ;;
            emit (digitalWrite POWER_PIN p))).

(** *** The control topic *)

(** [payload] holds the [length] bytes of the message. *)
Definition MQTTCallback (topic payload : list Z) : M unit :=
  s <- get settings ;;
  when (strncmp topic (mqtt_control_topic s) 32 =? 0)
    (let str := memcpy (repeat NUL 8) payload (Nat.min (length payload) (8 - 1)) in
     if (strcasecmp str (lit "on") =? 0)
        || (strcasecmp str (lit "true") =? 0)
        || (strcmp str (lit "1") =? 0)
     then upd (set_power_enable true)
     else
       when ((strcasecmp str (lit "off") =? 0)
             || (strcasecmp str (lit "false") =? 0)
             || (strcmp str (lit "0") =? 0))
         (upd (set_power_enable false))).

(** *** The main loop *)

(** [LED_BUILTIN] of the board (Node32s). *)
Definition STATUS_LED : Z := 2.

(** [mqtt.loop()]: the client hands every message that has arrived to the
    callback. *)
Fixpoint deliver (inbound : list (list Z * list Z)) : M unit :=
  match inbound with
  | [] => ret tt
  | (topic, payload) :: rest => MQTTCallback topic payload ;; deliver rest
  end.

Definition mqtt_loop_call (inbound : list (list Z * list Z)) : M unit :=
  emit mqtt_loop ;; deliver inbound.

(** What the libraries report during one iteration of [loop], in the order
    the iteration asks. *)
Record Inputs := mkInputs {
  millis_enable : Z;      (* millis() when Bluetooth is switched on *)
  console : Console;      (* PollBluetoothCommand *)
  bt_hasClient : bool;    (* bt.hasClient() *)
  millis_timeout : Z;     (* millis() of the timeout test *)
  WiFi_status : wl_status_t;
  millis_wifi : Z;        (* millis() in EnsureWiFi *)
  mqtt_state : Z;         (* mqtt.state() in EnsureMQTT *)
  millis_mqtt : Z;        (* millis() in EnsureMQTT *)
  mqtt_connect_result : bool;
  inbound : list (list Z * list Z);
  millis_blink : Z;       (* millis() of the blink test *)
  millis_blink_set : Z;   (* millis() stored in last_blink *)
  led : bool              (* digitalRead(STATUS_LED) *)
}.

Definition loop (i : Inputs) : M unit :=
  (* the statics with a dynamic initialiser, on the first call *)
  entered <- get loop_entered ;;
  when (negb entered)
    (p <- get power_enable ;;
     upd (set_last_power_enable p) ;;
     b <- get bluetooth_enable ;;
     upd (set_last_bluetooth_enable b) ;;
     upd (set_loop_entered true)) ;;
  b <- get bluetooth_enable ;;
  lb <- get last_bluetooth_enable ;;
  when (negb (Bool.eqb b lb))
    (upd (set_last_bluetooth_enable b) ;;
     s <- get settings ;;
     if b then
       upd (set_bluetooth_enable_millis (millis_enable i)) ;;
       emit (bt_begin (cstr (device_name s))) ;;
       emit (Serial_print (lit "Bluetooth enabled; name: ")) ;;
       emit (Serial_print (cstr (device_name s))) ;;
       emit (Serial_println (lit "."))
     else
       emit bt_end ;;
       emit (Serial_println (lit "Bluetooth disabled."))) ;;
  b <- get bluetooth_enable ;;
  when b
    (PollBluetoothCommand (console i) ;;
     let bluetooth_has_client := bt_hasClient i in
     lc <- get last_bluetooth_has_client ;;
     when (negb (Bool.eqb bluetooth_has_client lc))
       (upd (set_last_bluetooth_has_client bluetooth_has_client) ;;
        if bluetooth_has_client then
          emit (Serial_println (lit "Bluetooth client connected.")) ;;
          PrintHelp
        else
          emit (Serial_println (lit "Bluetooth client disconnected."))) ;;
     (* Disable bluetooth after 10 minutes. *)
     since <- get bluetooth_enable_millis ;;
     when (negb bluetooth_has_client
           && (600000 <=? elapsed (millis_timeout i) since))
       (upd (set_bluetooth_enable false) ;;
        emit (Serial_println (lit "Bluetooth timeout.")))) ;;
  wifi <- EnsureWiFi (WiFi_status i) (millis_wifi i) ;;
  (if wifi then
     bus <- EnsureMQTT (mqtt_state i) (millis_mqtt i) (mqtt_connect_result i) ;;
     if bus then
       mqtt_loop_call (inbound i) ;;
       upd (set_blink_delay 5000)
     else upd (set_blink_delay 1000)
   else upd (set_blink_delay 250)) ;;
  delay <- get blink_delay ;;
  since <- get last_blink ;;
  (if delay =? 0 then emit (digitalWrite STATUS_LED true)
   else
     when (delay <=? elapsed (millis_blink i) since)
       (upd (set_last_blink (millis_blink_set i)) ;;
        emit (digitalWrite STATUS_LED (negb (led i))))) ;;
  p <- get power_enable ;;
  lp <- get last_power_enable ;;
  when (negb (Bool.eqb p lp))
    (upd (set_last_power_enable p) ;;
     emit (digitalWrite POWER_PIN p) ;;
     emit (Serial_println (if p then lit "Power on." else lit "Power off.")) ;;
     PublishStatus).

(** Consecutive iterations; a fault ends the run. *)
Fixpoint run (iterations : list Inputs) : M unit :=
  match iterations with
  | [] => ret tt
  | i :: rest => loop i ;; run rest
  end.

(** *** Start-up *)

(** The part of [setup] that loads the settings: [persisted] is the record
    [EEPROM.get(0, s)] reads, [magic] the value of SETTINGS_HEADER. *)
Definition load_settings (magic : Z) (persisted : Settings) : M unit :=
  let s := persisted in
  if header s =? magic then
    emit (Serial_println (lit "Loaded valid settings.")) ;;
    upd (set_settings s)
  else
    emit (Serial_println (lit "Found invalid settings header; settings reset.")).

Definition setup (persisted : Settings) : M unit :=
  emit (pinMode BUTTON_PIN INPUT_PULLUP) ;;
  emit (pinMode POWER_PIN OUTPUT) ;;
  emit (pinMode STATUS_LED OUTPUT) ;;
  emit (attachInterrupt_CHANGE BUTTON_PIN) ;;
  emit (Serial_begin 115200) ;;
  emit EEPROM_begin ;;
  load_settings SETTINGS_HEADER persisted ;;
  emit (mqtt_setSocketTimeout 5) ;;
  emit mqtt_setCallback.

(** ** The later revision *)

Module Rev2.

Definition SETTINGS_HEADER : Z := 0xD3.

(** [mqtt_password] is a [char[32]] in this revision. *)
Definition default_settings : Settings :=
  store f_mqtt_password (array 32 (lit "")) (initial_settings SETTINGS_HEADER).

(** The device at reset in this revision. *)
Definition reset : Device := set_settings default_settings reset.

(** [spiffs] is what [SPIFFS.begin()] returns. *)
Definition setup (persisted : Settings) (spiffs : bool) : M unit :=
  emit (pinMode BUTTON_PIN INPUT_PULLUP) ;;
  emit (pinMode POWER_PIN OUTPUT) ;;
  emit (pinMode STATUS_LED OUTPUT) ;;
  emit (attachInterrupt_CHANGE BUTTON_PIN) ;;
  emit (Serial_begin 115200) ;;
  emit EEPROM_begin ;;
  load_settings SETTINGS_HEADER persisted ;;
  emit (mqtt_setSocketTimeout 5) ;;
  emit mqtt_setCallback ;;
  emit SPIFFS_begin ;;
  when (negb spiffs)
    (emit (Serial_println (lit "Error: failed to mount SPIFFS."))) ;;
  emit (web_server_on (lit "/") HTTP_GET) ;;
  emit (web_server_on (lit "/settings") HTTP_GET) ;;
  emit (web_server_on (lit "/settings") HTTP_POST).

(** The variables of [loop] that the configuration gate uses:
    the global [config_enable] and three of the statics. *)
Record Gate := mkGate {
  config_enable : bool;
  last_config_enable : bool;
  last_bluetooth_has_client : bool;
  bluetooth_disconnected_millis : Z
}.

(** The client-tracking and timeout statements of [loop], run when
    [config_enable] holds: [has_client] is what [bt.hasClient()] returns,
    [now_edge] and [now_test] what the two calls of [millis()] return.
    The calls between them ([PollBluetoothCommand], the web and DNS
    servers) write none of these variables. *)
Definition gate_step (has_client : bool) (now_edge now_test : Z) (g : Gate)
  : Gate :=
  if config_enable g then
    let g1 :=
      if negb (Bool.eqb has_client (last_bluetooth_has_client g)) then
        if has_client
        then mkGate (config_enable g) (last_config_enable g) has_client
               (bluetooth_disconnected_millis g)
        else mkGate (config_enable g) (last_config_enable g) has_client
               now_edge
      else g in
    if negb has_client
       && (600000 <=? elapsed now_test (bluetooth_disconnected_millis g1))
    then mkGate false (last_config_enable g1) (last_bluetooth_has_client g1)
           (bluetooth_disconnected_millis g1)
    else g1
  else g.

End Rev2.

(** ** Vocabulary of the statements *)

(** Equality of character strings, with and without regard to case. *)
Definition same (a b : list Z) : bool :=
  if list_eq_dec Z.eq_dec a b then true else false.

Definition same_nocase (a b : list Z) : bool :=
  same (map tolower a) (map tolower b).

(** A console token: one character at least, none of them a blank or the
    terminating zero. *)
Definition tokenb (v : list Z) : bool :=
  negb (same v []) && forallb (fun c => negb (c =? NUL) && negb (isspace c)) v.

(** A line with nothing but blanks on it. *)
Definition blankb (l : list Z) : bool := forallb isspace (cstr l).

(** The decoder in the words of the specification: [text] is compared
    without regard to case with the six words. *)
Definition decode (text : list Z) : option bool :=
  if same_nocase text (lit "on") || same_nocase text (lit "true")
     || same_nocase text (lit "1")
  then Some true
  else if same_nocase text (lit "off") || same_nocase text (lit "false")
          || same_nocase text (lit "0")
  then Some false
  else None.

Definition apply_command (c : option bool) (d : Device) : Device :=
  match c with Some b => set_power_enable b d | None => d end.

(** Counting the calls of one kind in an output. *)
Definition is_publish (e : event) : bool :=
  match e with mqtt_publish _ _ _ => true | _ => false end.
Definition is_WiFi_begin (e : event) : bool :=
  match e with WiFi_begin _ _ => true | _ => false end.
Definition is_mqtt_connect (e : event) : bool :=
  match e with mqtt_connect _ _ _ _ _ _ => true | _ => false end.
Definition is_diagnostic (e : event) : bool :=
  match e with Serial_print _ | Serial_println _ => true | _ => false end.

Definition publishes (out : list event) : list event := filter is_publish out.
Definition wifi_attempts (out : list event) : nat :=
  length (filter is_WiFi_begin out).
Definition mqtt_attempts (out : list event) : nat :=
  length (filter is_mqtt_connect out).

(** The console commands that read or write one string member. *)
Definition command_of (f : field) : option string :=
  match f with
  | f_device_name => Some "device-name"
  | f_mqtt_server => Some "mqtt-server"
  | f_mqtt_id => Some "mqtt-id"
  | f_mqtt_control_topic => Some "mqtt-control-topic"
  | f_mqtt_status_topic => Some "mqtt-status-topic"
  | _ => None
  end%string.

(** What the write form leaves in a member of [size] bytes. *)
Definition written (size : nat) (v b : list Z) : list Z :=
  if strcmp v (lit "-") =? 0 then memset b 0 size
  else strncpy (memset b 0 size) v (size - 1).

(** A device set up for the network home and the broker 10.0.0.2, with
    control topic sw/cmd and status topic sw/state; and a payload made of
    "on", a zero byte and "x". *)
Definition configured : Device :=
  set_settings
    (store f_wifi_ssid (array 32 (lit "home"))
       (store f_mqtt_server (array 16 (lit "10.0.0.2"))
          (store f_mqtt_control_topic (array 32 (lit "sw/cmd"))
             (store f_mqtt_status_topic (array 32 (lit "sw/state"))
                default_settings))))
    reset.

Definition on_zero_x : list Z := [111; 110; 0; 120].

(** A computation keeps the relation [R] and prints only events that
    satisfy [Q]: from every device, a run that ends leaves a device related
    to the first, and every event of the run, ended or faulted, satisfies
    [Q]; a run may fault only if [C] holds. *)
Definition keeps_at {A} (R : Device -> Device -> Prop) (Q : event -> bool)
    (C : Prop) (m : M A) (d : Device) : Prop :=
  match m d with
  | Done _ d' o => R d d' /\ forallb Q o = true
  | Crash _ o => C /\ forallb Q o = true
  end.

Definition keeps {A} (R : Device -> Device -> Prop) (Q : event -> bool)
    (C : Prop) (m : M A) : Prop :=
  forall d, keeps_at R Q C m d.

(** The bookkeeping of the status publisher: the link state seen last and
    the power state reconciled last. *)
Definition bookkeeping (d d' : Device) : Prop :=
  last_state d' = last_state d
  /\ last_power_enable d' = last_power_enable d
  /\ loop_entered d' = loop_entered d.

Definition not_publish (e : event) : bool := negb (is_publish e).
Definition any_event (e : event) : bool := true.

(** The same, and the settings and the power state besides. *)
Definition steady (d d' : Device) : Prop :=
  bookkeeping d d'
  /\ settings d' = settings d
  /\ power_enable d' = power_enable d.

Definition any_change (d d' : Device) : Prop := True.

(** The control topic is left as it was, or left terminated within its
    32 bytes. *)
Definition topic_kept_or_terminated (d d' : Device) : Prop :=
  mqtt_control_topic (settings d') = mqtt_control_topic (settings d)
  \/ (strlen (mqtt_control_topic (settings d')) < 32)%nat.

(** The publishes of a run are [expected], provided the power state it
    ends with, if it ends, is [p]. *)
Definition publishes_if_power {A} (p : bool) (expected : list event)
    (m : M A) (d : Device) : Prop :=
  (forall d', final (m d) = Some d' -> power_enable d' = p) ->
  publishes (output (m d)) = expected.

(** The retained publish of the power state of [d] on its status topic. *)
Definition status_message (d : Device) : event :=
  mqtt_publish (cstr (mqtt_status_topic (settings d)))
    (if power_enable d then lit "ON" else lit "OFF") true.

(** A console on which [line] is waiting. *)
Definition typed (line : list Z) : Console :=
  mkConsole (Some line) MQTT_DISCONNECTED WIFI_OFF WL_DISCONNECTED [] [] 0 [].

(** The button pressed at 1000 ms and released at 6000 ms. *)
Definition long_hold : M unit :=
  ButtonChangeISR 1000 true ;; ButtonChangeISR 6000 false.

(** A console with nothing waiting, and an iteration of the loop with that
    console, no network, every clock reading at [now] and a Bluetooth
    client attached or not. *)
Definition idle : Console :=
  mkConsole None MQTT_DISCONNECTED WIFI_OFF WL_DISCONNECTED [] [] 0 [].

Definition tick (now : Z) (client : bool) : Inputs :=
  mkInputs now idle client now WL_DISCONNECTED now MQTT_DISCONNECTED now
    false [] now now false.

(** An iteration that finds WiFi up and the bus connected. *)
Definition online (now : Z) : Inputs :=
  mkInputs now idle false now WL_CONNECTED now MQTT_CONNECTED now
    true [] now now false.

(** A run: one iteration of the loop, the long hold, then [iterations]. *)
Definition after_long_hold (iterations : list Inputs) : M unit :=
  loop (tick 100 false) ;; long_hold ;; run iterations.

(** Bluetooth switched on at 6001 ms; a client attaches, and is seen gone
    at 605001 ms. *)
Definition attach_detach : list Inputs :=
  [tick 6001 false; tick 10000 true; tick 605001 false].

(** ** The later revision: lines, text and the web form *)

(** [buf[i] = c], for [i] within the buffer. *)
Fixpoint write_at (i : nat) (c : Z) (buf : list Z) : list Z :=
  match buf, i with
  | [], _ => []
  | _ :: buf', O => c :: buf'
  | b :: buf', S i' => b :: write_at i' c buf'
  end.

(** The second loop of [StrStrip], which copies the text down over the
    leading blanks: [out] and [in_] are the two indices, and the loop ends
    at the terminating zero.  Returns the buffer and [out]. *)
Fixpoint copy_down (fuel : nat) (buf : list Z) (out in_ : nat)
  : list Z * nat :=
  match fuel with
  | O => (buf, out)
  | S fuel' =>
      let c := nth in_ buf NUL in
      if c =? NUL then (buf, out)
      else copy_down fuel' (write_at out c buf) (S out) (S in_)
  end.

(** The last loop of [StrStrip] after its first pass: [n] is one more
    than the index [out] stands at, so that [0] is [out] below [str]. *)
Fixpoint strip_back (n : nat) (buf : list Z) : list Z :=
  match n with
  | O => buf
  | S o =>
      if isspace (nth o buf NUL) then strip_back o (write_at o NUL buf)
      else buf
  end.

(** [StrStrip(str)]: the buffer it leaves. *)
Definition StrStrip (str : list Z) : list Z :=
  let in_ := (length str - length (skip_spaces str))%nat in
  let '(buf, out) := copy_down (length str) str 0 in_ in
  strip_back out (write_at out NUL buf).

(** The loop of [BluetoothReadLine]: [reads] holds what the successive
    calls of [bt.read()] return while [bt.hasClient()] holds, and the
    client is gone when it is used up.  Returns the line and [i].  The
    bound [linesize - 1] is that of the source for a [linesize] of 1 at
    least, which every call gives it: the size of a member. *)
Fixpoint read_line (reads : list Z) (line : list Z) (i linesize : nat)
  : list Z * nat :=
  match reads with
  | [] => (line, i)
  | c :: rest =>
      if c <? 0 then read_line rest line i linesize
      else if c =? 10 then (line, i)
      else if (i <? linesize - 1)%nat
           then read_line rest (write_at i c line) (S i) linesize
           else read_line rest line i linesize
  end.

(** [BluetoothReadLine(line, linesize, strip)]: the line and the value
    returned. *)
Definition BluetoothReadLine (reads : list Z) (line : list Z)
    (linesize : nat) (strip : bool) : list Z * bool :=
  let line := memset line 0 linesize in
  let '(line, i) := read_line reads line 0 linesize in
  (if strip then StrStrip line else line, (0 <? i)%nat).

(** [htmlEncode]: one character of the input at a time. *)
Definition htmlEncode_char (c : Z) : list Z :=
  if c =? 38 then lit "&amp;"
  else if c =? 34 then lit "&quot;"
  else if c =? 39 then lit "&apos;"
  else if c =? 60 then lit "&lt;"
  else if c =? 62 then lit "&gt;"
  else [c].

Fixpoint htmlEncode (input : list Z) : list Z :=
  match input with
  | [] => []
  | c :: rest => htmlEncode_char c ++ htmlEncode rest
  end.

(** What [httpPOSTSettings] sends back. *)
Inductive http_reply :=
| sendHeader (name value : list Z)
| send (code : Z) (content_type content : list Z).

(** The record [httpPOSTSettings] builds: [arg] is [web_server.arg], the
    text of a form field by name.  Each member is filled by [strncpy] over
    its whole size, and the port is converted to [uint16_t]. *)
Definition posted_settings (arg : string -> list Z) : Settings :=
  let s := Rev2.default_settings in
  {| header := header s;
     device_name := strncpy (device_name s) (arg "device_name"%string) 32;
     wifi_ssid := strncpy (wifi_ssid s) (arg "wifi_ssid"%string) 32;
     wifi_password := strncpy (wifi_password s) (arg "wifi_password"%string) 32;
     mqtt_server := strncpy (mqtt_server s) (arg "mqtt_server"%string) 16;
     mqtt_port := atoi (arg "mqtt_port"%string) mod 65536;
     mqtt_id := strncpy (mqtt_id s) (arg "mqtt_id"%string) 16;
     mqtt_user := strncpy (mqtt_user s) (arg "mqtt_user"%string) 16;
     mqtt_password := strncpy (mqtt_password s) (arg "mqtt_password"%string) 32;
     mqtt_control_topic :=
       strncpy (mqtt_control_topic s) (arg "mqtt_control_topic"%string) 32;
     mqtt_status_topic :=
       strncpy (mqtt_status_topic s) (arg "mqtt_status_topic"%string) 32 |}.

Definition httpPOSTSettings (arg : string -> list Z) : M (list http_reply) :=
  upd (set_settings (posted_settings arg)) ;;
  SaveSettings ;;
  ret [sendHeader (lit "Connection") (lit "close");
       sendHeader (lit "Location") (lit "/settings?success=1");
       send 303 (lit "text/plain") (lit "Settings saved!")].

(** The statements of the later [loop] that write the variables of the
    gate before the client is looked at: the edge of [config_enable] is
    taken into [last_config_enable]; the calls made on the edge start or
    stop the console, the access point and the servers and write none of
    these variables. *)
Definition gate_edge (g : Rev2.Gate) : Rev2.Gate :=
  if negb (Bool.eqb (Rev2.config_enable g) (Rev2.last_config_enable g))
  then Rev2.mkGate (Rev2.config_enable g) (Rev2.config_enable g)
         (Rev2.last_bluetooth_has_client g)
         (Rev2.bluetooth_disconnected_millis g)
  else g.

(** ** Vocabulary of the further statements *)

(** A text without its leading blanks, and without the blanks at either
    end. *)
Fixpoint drop_blanks (l : list Z) : list Z :=
  match l with
  | [] => []
  | c :: l' => if isspace c then drop_blanks l' else l
  end.

Definition trim (s : list Z) : list Z :=
  rev (drop_blanks (rev (drop_blanks s))).

(** What [BluetoothReadLine] takes from the reads: the characters read
    before the first line feed, the failed reads apart. *)
Fixpoint first_line (reads : list Z) : list Z :=
  match reads with
  | [] => []
  | c :: rest =>
      if c <? 0 then first_line rest
      else if c =? 10 then []
      else c :: first_line rest
  end.

(** The characters that open or close markup or an attribute value. *)
Definition markup (c : Z) : bool :=
  (c =? 60) || (c =? 62) || (c =? 34) || (c =? 39).

(** The form field that carries a member, and the size of the member in
    the later revision. *)
Definition form_field (f : field) : string :=
  match f with
  | f_device_name => "device_name"
  | f_wifi_ssid => "wifi_ssid"
  | f_wifi_password => "wifi_password"
  | f_mqtt_server => "mqtt_server"
  | f_mqtt_id => "mqtt_id"
  | f_mqtt_user => "mqtt_user"
  | f_mqtt_password => "mqtt_password"
  | f_mqtt_control_topic => "mqtt_control_topic"
  | f_mqtt_status_topic => "mqtt_status_topic"
  end%string.

Definition form_sizeof (f : field) : nat :=
  match f with
  | f_mqtt_password => 32
  | _ => sizeof f
  end.

(** A form that holds [topic] as the control topic and nothing else. *)
Definition form_with_topic (topic : list Z) (name : string) : list Z :=
  if String.eqb name "mqtt_control_topic" then topic else [].

(** One iteration of the later [loop] as far as the gate goes, and a run
    of iterations that find no client attached, one for each reading of
    the clock. *)
Definition gate_iteration (has_client : bool) (now_edge now_test : Z)
    (g : Rev2.Gate) : Rev2.Gate :=
  Rev2.gate_step has_client now_edge now_test (gate_edge g).

Definition gate_idle (nows : list Z) (g : Rev2.Gate) : Rev2.Gate :=
  fold_left (fun g now => gate_iteration false now now g) nows g.

(** A port a broker can be reached at. *)
Definition port_ok (s : Settings) : bool :=
  (1 <=? mqtt_port s) && (mqtt_port s <=? UINT16_MAX).

(** The records handed to [EEPROM.put] in an output. *)
Definition is_save (e : event) : bool :=
  match e with EEPROM_put _ => true | _ => false end.
Definition saves (out : list event) : list event := filter is_save out.

(** What a run does to the settings: the header is kept, a port in range
    stays in range, and either nothing is saved and the settings are as
    they were, or the one record saved is the settings the run ends
    with. *)
Definition settings_post (d d' : Device) (out : list event) : Prop :=
  header (settings d') = header (settings d)
  /\ (port_ok (settings d) = true -> port_ok (settings d') = true)
  /\ ((saves out = [] /\ settings d' = settings d)
      \/ saves out = [EEPROM_put (settings d')]).

Definition settings_kept_in_step {A} (m : M A) (d : Device) : Prop :=
  match m d with
  | Done _ d' o => settings_post d d' o
  | Crash _ _ => True
  end.

Definition settings_same (d d' : Device) : Prop := settings d' = settings d.
Definition not_save (e : event) : bool := negb (is_save e).

(** The names the dispatch of [PollBluetoothCommand] compares the command
    with. *)
Definition command_names : list string :=
  ["help"; "on"; "off"; "status"; "device-name"; "mqtt-status";
   "mqtt-server"; "mqtt-port"; "mqtt-id"; "mqtt-auth"; "mqtt-control-topic";
   "mqtt-status-topic"; "wifi"; "wifi-status"]%string.

(** The number a string of decimal digits writes. *)
Definition decimal (ds : list Z) : Z :=
  fold_left (fun acc c => acc * 10 + (c - 48)) ds 0.

(** An iteration of the loop during which [line] is read from the
    console, a client being attached and the network down. *)
Definition typing (line : list Z) (now : Z) : Inputs :=
  mkInputs now (typed line) true now WL_DISCONNECTED now MQTT_DISCONNECTED now
    false [] now now false.

(** The writes of the relay pin in an output. *)
Definition is_relay_write (e : event) : bool :=
  match e with digitalWrite pin _ => pin =? POWER_PIN | _ => false end.
Definition relay_writes (out : list event) : list event :=
  filter is_relay_write out.
Definition not_relay_write (e : event) : bool := negb (is_relay_write e).

(** The statics of the reconciliation of the power state are left as they
    were. *)
Definition reconciled_kept (d d' : Device) : Prop :=
  last_power_enable d' = last_power_enable d
  /\ loop_entered d' = loop_entered d.

(** A run that comes to its end leaves a device and an output that
    satisfy [P]. *)
Definition ends_with {A} (P : Device -> list event -> Prop) (m : M A)
    (d : Device) : Prop :=
  match m d with
  | Done _ d' o => P d' o
  | Crash _ _ => True
  end.

(** The end of an iteration of [loop] when [reconciled] was the power
    state reconciled last: the statics agree with the power state, the
    relay pin was written once, with the power state, if that differs from
    [reconciled], and not at all otherwise; when it was written and a
    status topic is set, the last call of the iteration is the publish of
    the power state. *)
Definition reconciled_with (reconciled : bool) (d' : Device)
    (out : list event) : Prop :=
  last_power_enable d' = power_enable d'
  /\ loop_entered d' = true
  /\ relay_writes out
     = (if Bool.eqb (power_enable d') reconciled then []
        else [digitalWrite POWER_PIN (power_enable d')])
  /\ (power_enable d' <> reconciled ->
      (0 < strlen (mqtt_status_topic (settings d')))%nat ->
      exists before, out = before ++ [status_message d']).

(** A run that comes to its end returns a value and leaves a device and
    an output that satisfy [V]. *)
Definition returns {A} (V : A -> Device -> list event -> Prop) (m : M A)
    (d : Device) : Prop :=
  match m d with
  | Done a d' o => V a d' o
  | Crash _ _ => True
  end.

(** The calls of [mqtt.loop()] and the writes of the status LED in an
    output. *)
Definition is_mqtt_loop (e : event) : bool :=
  match e with mqtt_loop => true | _ => false end.
Definition is_led_write (e : event) : bool :=
  match e with digitalWrite pin _ => pin =? STATUS_LED | _ => false end.
Definition bus_polls (out : list event) : nat :=
  length (filter is_mqtt_loop out).
Definition led_writes (out : list event) : list event :=
  filter is_led_write out.

(** An event that is none of: a WiFi attempt, a broker attempt, a call of
    [mqtt.loop()], a write of the status LED. *)
Definition no_link_call (e : event) : bool :=
  negb (is_WiFi_begin e) && negb (is_mqtt_connect e)
  && negb (is_mqtt_loop e) && negb (is_led_write e).

(** The statics of the blink are left as they were. *)
Definition blink_kept (d d' : Device) : Prop :=
  last_blink d' = last_blink d /\ blink_delay d' = blink_delay d.

(** The end of an iteration of [loop] on the inputs [i], when [since] was
    the time of the last blink: the blink delay and the link calls of the
    three tiers, and the blink itself. *)
Definition tiers (i : Inputs) (since : Z) (d' : Device) (out : list event)
  : Prop :=
  ((WiFi_status i <> WL_CONNECTED
    /\ blink_delay d' = 250
    /\ mqtt_attempts out = 0%nat /\ bus_polls out = 0%nat)
   \/ (WiFi_status i = WL_CONNECTED /\ mqtt_state i <> MQTT_CONNECTED
       /\ blink_delay d' = 1000
       /\ wifi_attempts out = 0%nat /\ bus_polls out = 0%nat)
   \/ (WiFi_status i = WL_CONNECTED
       /\ blink_delay d' = 5000
       /\ wifi_attempts out = 0%nat /\ bus_polls out = 1%nat
       /\ ((mqtt_state i = MQTT_CONNECTED /\ mqtt_attempts out = 0%nat)
           \/ (mqtt_state i <> MQTT_CONNECTED
               /\ mqtt_connect_result i = true
               /\ mqtt_attempts out = 1%nat))))
  /\ led_writes out
     = (if blink_delay d' <=? elapsed (millis_blink i) since
        then [digitalWrite STATUS_LED (negb (led i))] else [])
  /\ last_blink d'
     = (if blink_delay d' <=? elapsed (millis_blink i) since
        then millis_blink_set i else since).

(** The interrupt handler run on a series of edges of the button pin, each
    with the reading of the clock and whether the pin is low. *)
Fixpoint edges (es : list (Z * bool)) : M unit :=
  match es with
  | [] => ret tt
  | (now, low) :: rest => ButtonChangeISR now low ;; edges rest
  end.

(** A call of the broker client as the sketch makes them: a publish is
    retained, on a topic that is not empty, of "ON" or "OFF"; a connect
    registers the retained will "OFFLINE" at QoS 1; a subscription is at
    QoS 1 to a topic that is not empty. *)
Definition bus_call_ok (e : event) : bool :=
  match e with
  | mqtt_publish topic payload retained =>
      retained && negb (same topic [])
      && (same payload (lit "ON") || same payload (lit "OFF"))
  | mqtt_connect _ _ _ willQos willRetain willMessage =>
      (willQos =? 1) && willRetain && same willMessage (lit "OFFLINE")
  | mqtt_subscribe topic qos => (qos =? 1) && negb (same topic [])
  | _ => true
  end.

(** The variables of the console gate are left as they were. *)
Definition gate_kept (d d' : Device) : Prop :=
  bluetooth_enable d' = bluetooth_enable d
  /\ bluetooth_enable_millis d' = bluetooth_enable_millis d
  /\ last_bluetooth_enable d' = last_bluetooth_enable d.

(** An event that is not a line or a part of a line sent to the console. *)
Definition not_console (e : event) : bool :=
  match e with
  | bt_print _ | bt_println _ | bt_println_int _ => false
  | _ => true
  end.

(** The gate flag is left as it was. *)
Definition enable_kept (d d' : Device) : Prop :=
  bluetooth_enable d' = bluetooth_enable d.

(** ** Vocabulary of the cycles, the clock and the transitions *)

(** The interrupts of one press of the button: the falling edge at
    [t_down], further interrupts that find the pin still low, read at
    [again], and the rising edge at [t_up]. *)
Definition press_release (t_down : Z) (again : list Z) (t_up : Z)
  : list (Z * bool) :=
  (t_down, true) :: map (fun t => (t, true)) again ++ [(t_up, false)].

(** The state of the bus link that [EnsureMQTT] has seen last after an
    iteration on the inputs [i], when [seen] was that state before:
    [EnsureMQTT] is called, and reads [mqtt.state()], when WiFi is up. *)
Definition seen_after (i : Inputs) (seen : Z) : Z :=
  if wl_status_eqb (WiFi_status i) WL_CONNECTED then mqtt_state i else seen.

(** The iteration sees the bus link connected when the state seen last
    was another. *)
Definition came_up (i : Inputs) (seen : Z) : bool :=
  wl_status_eqb (WiFi_status i) WL_CONNECTED
  && (mqtt_state i =? MQTT_CONNECTED)
  && negb (seen =? MQTT_CONNECTED).

(** The transitions into the connected state over a series of iterations,
    counted on what the libraries report. *)
Fixpoint transitions (seen : Z) (iterations : list Inputs) : nat :=
  match iterations with
  | [] => 0
  | i :: rest =>
      ((if came_up i seen then 1 else 0)
       + transitions (seen_after i seen) rest)%nat
  end.

(** The bookkeeping of the status publisher and the settings are left as
    they were. *)
Definition publisher_kept (d d' : Device) : Prop :=
  bookkeeping d d' /\ settings d' = settings d.

(** The power state reconciled last when an iteration of [loop] begins:
    on the first call the static [last_power_enable] is initialised with
    the power state of that moment. *)
Definition reconciled_before (d : Device) : bool :=
  if loop_entered d then last_power_enable d else power_enable d.

(** What an iteration of [loop] on the inputs [i], from [d] to [d'], has
    published when [sent] are its publishes: the link state seen last is
    the one the iteration saw; a transition into the connected state
    gives one retained publish of the power state [p] of that moment, a
    power state that differs from the one reconciled last gives one of the
    power state the iteration ends with, each when a status topic is set;
    there is no other.  Between the start of the iteration and the
    publish of the transition only a console command changes the power
    state, between that publish and the end only a message from the
    bus. *)
Definition published (i : Inputs) (d d' : Device) (sent : list event)
  : Prop :=
  let topic := mqtt_status_topic (settings d') in
  last_state d' = seen_after i (last_state d)
  /\ (bt_line (console i) = None -> settings d' = settings d)
  /\ exists p : bool,
       sent
       = (if came_up i (last_state d) && (0 <? strlen topic)%nat
          then [mqtt_publish (cstr topic)
                  (if p then lit "ON" else lit "OFF") true]
          else [])
         ++ (if negb (Bool.eqb (power_enable d') (reconciled_before d))
                && (0 <? strlen topic)%nat
             then [status_message d'] else [])
       /\ (bt_line (console i) = None -> p = power_enable d)
       /\ (inbound i = [] -> p = power_enable d').

(** An iteration that finds WiFi up and the bus link lost. *)
Definition bus_lost (now : Z) : Inputs :=
  mkInputs now idle false now WL_CONNECTED now MQTT_CONNECTION_LOST now
    false [] now now false.

(** * Properties *)

(** ** The clock *)

Lemma modulus_pos : 0 < modulus.
Proof. reflexivity. Qed.

Lemma wrap_range x : 0 <= wrap x < modulus.
Proof. apply Z.mod_pos_bound, modulus_pos. Qed.

Lemma wrap_small x : 0 <= x < modulus -> wrap x = x.
Proof. apply Z.mod_small. Qed.

Lemma elapsed_range now since : 0 <= elapsed now since < modulus.
Proof. apply wrap_range. Qed.

Lemma elapsed_wrap tn ts : elapsed (wrap tn) (wrap ts) = wrap (tn - ts).
Proof. unfold elapsed, wrap. now rewrite <- Zminus_mod. Qed.

(** The timestamps the program holds are the true times [tn] and [ts]
    reduced to 32 bits.  Their wrapping difference is the true elapsed time
    modulo 2^32, and the true elapsed time itself as long as that is below
    2^32. *)
Lemma elapsed_true_time :
  (forall tn ts, elapsed (wrap tn) (wrap ts) = (tn - ts) mod 2 ^ 32)
  /\ elapsed 5 4294967295 = 6
  /\ (forall tn ts thr,
        0 <= tn - ts < 2 ^ 32 ->
        elapsed (wrap tn) (wrap ts) = tn - ts
        /\ (thr <=? elapsed (wrap tn) (wrap ts)) = (thr <=? tn - ts)).
Proof.
  split; [ | split ].
  - intros tn ts. apply elapsed_wrap.
  - reflexivity.
  - intros tn ts thr H.
    assert (E : elapsed (wrap tn) (wrap ts) = tn - ts).
    { rewrite elapsed_wrap. apply wrap_small. exact H. }
    rewrite E. split; reflexivity.
Qed.


(** ** C strings *)

Ltac zeq x y := destruct (Z.eqb_spec x y).

Lemma same_true a b : same a b = true <-> a = b.
Proof.
  unfold same. destruct (list_eq_dec Z.eq_dec a b); split;
    intros; congruence.
Qed.

Lemma same_refl a : same a a = true.
Proof. now apply same_true. Qed.

Lemma cstr_app_nul l r : cstr (l ++ NUL :: r) = cstr l.
Proof.
  induction l as [ | c l IH ]; simpl.
  - reflexivity.
  - zeq c NUL; [ reflexivity | now rewrite IH ].
Qed.

Lemma cstr_app_zeros l n : cstr (l ++ repeat NUL n) = cstr l.
Proof.
  destruct n as [ | n ]; simpl.
  - now rewrite app_nil_r.
  - apply cstr_app_nul.
Qed.

Lemma cstr_idem l : cstr (cstr l) = cstr l.
Proof.
  induction l as [ | c l IH ]; simpl; [ reflexivity | ].
  zeq c NUL; simpl; [ reflexivity | ].
  zeq c NUL; [ contradiction | now rewrite IH ].
Qed.

Lemma cstr_firstn n l : cstr (firstn n l) = firstn n (cstr l).
Proof.
  revert l. induction n as [ | n IH ]; intros [ | c l ]; simpl;
    try reflexivity.
  zeq c NUL; simpl; [ reflexivity | now rewrite IH ].
Qed.

Lemma cstr_plain l : forallb (fun c => negb (c =? NUL)) l = true -> cstr l = l.
Proof.
  induction l as [ | c l IH ]; simpl; [ reflexivity | ].
  zeq c NUL; simpl; [ discriminate | ].
  intros H. now rewrite IH.
Qed.

Lemma cstr_nil_deref p : deref p = NUL <-> cstr p = [].
Proof.
  destruct p as [ | c p ]; simpl; [ tauto | ].
  zeq c NUL; split; intros; congruence.
Qed.

Lemma strcmp_zero a b : strcmp a b = 0 <-> cstr a = cstr b.
Proof.
  revert b. induction a as [ | x a IH ]; intros b.
  - simpl. pose proof (cstr_nil_deref b) as D. unfold NUL in *.
    split; intros H.
    + symmetry. apply D. lia.
    + symmetry in H. apply D in H. lia.
  - destruct b as [ | y b ]; simpl.
    + zeq x NUL; unfold NUL in *; split; intros; try lia; try congruence.
    + zeq x y; subst.
      * zeq y NUL; [ tauto | ]. rewrite IH. split; intros; congruence.
      * zeq x NUL; zeq y NUL; unfold NUL in *; split; intros;
          try lia; try congruence.
Qed.

Lemma strncmp_zero n a b :
  strncmp a b n = 0 <-> firstn n (cstr a) = firstn n (cstr b).
Proof.
  revert a b. induction n as [ | n IH ]; intros a b; [ now simpl | ].
  destruct a as [ | x a ].
  - simpl. destruct b as [ | y b ]; simpl; [ tauto | ].
    zeq y NUL; unfold NUL in *; simpl; split; intros; try lia; try congruence.
  - destruct b as [ | y b ]; simpl.
    + zeq x NUL; unfold NUL in *; simpl; split; intros; try lia;
        try congruence.
    + zeq x y; subst.
      * zeq y NUL; [ tauto | ]. simpl. rewrite IH.
        split; intros; congruence.
      * zeq x NUL; zeq y NUL; unfold NUL in *; simpl; split; intros;
          try lia; try congruence.
Qed.

Lemma tolower_zero c : tolower c = NUL <-> c = NUL.
Proof.
  unfold tolower, NUL.
  destruct (Z.leb_spec 65 c); destruct (Z.leb_spec c 90); simpl; lia.
Qed.

Lemma strcasecmp_zero a b :
  strcasecmp a b = 0 <-> map tolower (cstr a) = map tolower (cstr b).
Proof.
  revert b. induction a as [ | x a IH ]; intros b.
  - simpl. destruct b as [ | y b ]; simpl; [ tauto | ].
    pose proof (tolower_zero y) as T. change (tolower NUL) with 0.
    zeq y NUL; unfold NUL in *; simpl; split; intros; try lia; try congruence.
  - destruct b as [ | y b ]; simpl.
    + pose proof (tolower_zero x) as T. change (tolower NUL) with 0.
      zeq x NUL; unfold NUL in *; simpl; split; intros; try lia;
        try congruence.
    + pose proof (tolower_zero x) as Tx. pose proof (tolower_zero y) as Ty.
      zeq (tolower x) (tolower y).
      * zeq x NUL.
        -- assert (y = NUL) by (apply Ty; rewrite <- e; now apply Tx).
           zeq y NUL; [ tauto | contradiction ].
        -- assert (y <> NUL) by (intros K; apply n, Tx; rewrite e; now apply Ty).
           zeq y NUL; [ contradiction | ]. simpl. rewrite IH.
           split; intros; congruence.
      * zeq x NUL; zeq y NUL; unfold NUL in *; simpl; split; intros;
          try lia; try congruence.
Qed.

(** The comparisons of the sketch as equalities of strings. *)
Lemma strcmp_same a b : (strcmp a b =? 0) = same (cstr a) (cstr b).
Proof.
  apply eq_true_iff_eq. rewrite Z.eqb_eq, strcmp_zero, same_true. tauto.
Qed.

Lemma strcasecmp_same a b :
  (strcasecmp a b =? 0) = same_nocase (cstr a) (cstr b).
Proof.
  apply eq_true_iff_eq. unfold same_nocase.
  rewrite Z.eqb_eq, strcasecmp_zero, same_true. tauto.
Qed.

Lemma strncmp_same n a b :
  (strlen b < n)%nat ->
  (strncmp a b n =? 0) = same (cstr a) (cstr b).
Proof.
  intros L. apply eq_true_iff_eq.
  rewrite Z.eqb_eq, strncmp_zero, same_true. unfold strlen in L.
  split; intros H; [ | now rewrite H ].
  rewrite (firstn_all2 (cstr b)) in H by lia.
  assert (K : (length (cstr a) <= n)%nat \/ (n < length (cstr a))%nat) by lia.
  destruct K as [ K | K ].
  - now rewrite firstn_all2 in H by lia.
  - apply (f_equal (@length Z)) in H. rewrite firstn_length_le in H by lia. lia.
Qed.

(** ** Sequencing *)

Lemma bind_get {A B} (proj : Device -> A) (k : A -> M B) d :
  bind (get proj) k d = k (proj d) d.
Proof. unfold bind, get. now destruct (k (proj d) d). Qed.

Lemma bind_upd {B} (f : Device -> Device) (k : unit -> M B) d :
  bind (upd f) k d = k tt (f d).
Proof. unfold bind, upd. now destruct (k tt (f d)). Qed.

Lemma bind_ret {A B} (a : A) (k : A -> M B) d : bind (ret a) k d = k a d.
Proof. unfold bind, ret. now destruct (k a d). Qed.

Lemma bind_emit {B} (e : event) (k : unit -> M B) d :
  bind (emit e) k d =
  match k tt d with
  | Done b d' o => Done b d' (e :: o)
  | Crash f o => Crash f (e :: o)
  end.
Proof. reflexivity. Qed.

Lemma bind_crash {A B} (f : fault) (k : A -> M B) d :
  bind (crash f) k d = Crash f [].
Proof. reflexivity. Qed.

Lemma bind_done {A B} (m : M A) (k : A -> M B) d a d1 o1 :
  m d = Done a d1 o1 ->
  bind m k d =
  match k a d1 with
  | Done b d2 o2 => Done b d2 (o1 ++ o2)
  | Crash f o2 => Crash f (o1 ++ o2)
  end.
Proof. intros E. unfold bind. now rewrite E. Qed.

(** ** The button *)

(** The falling edge starts a press and records the clock; edges that
    repeat the level already seen change nothing. *)
Lemma ButtonChangeISR_press d now :
  button_press d = false ->
  ButtonChangeISR now true d
  = Done tt (set_button_press_millis now (set_button_press true d)) [].
Proof.
  intros P. unfold ButtonChangeISR. rewrite bind_get, P. cbn [negb when].
  now rewrite bind_upd.
Qed.

Lemma ButtonChangeISR_repeated_edge d now :
  ButtonChangeISR now (button_press d) d = Done tt d [].
Proof.
  unfold ButtonChangeISR. rewrite bind_get.
  destruct (button_press d); reflexivity.
Qed.

(** The rising edge that ends a press, with [hold] the wrapping
    difference between the clock and the recorded press time. *)
Lemma ButtonChangeISR_release (d : Device) (now : Z) :
  button_press d = true ->
  let hold := elapsed now (button_press_millis d) in
  exists d' out,
    ButtonChangeISR now false d = Done tt d' out
    /\ button_press d' = false
    /\ (hold < 50 ->
        power_enable d' = power_enable d
        /\ bluetooth_enable d' = bluetooth_enable d
        /\ out = [])
    /\ (50 <= hold < 5000 ->
        power_enable d' = negb (power_enable d)
        /\ bluetooth_enable d' = bluetooth_enable d
        /\ out = [digitalWrite POWER_PIN (negb (power_enable d))])
    /\ (5000 <= hold ->
        bluetooth_enable d' = negb (bluetooth_enable d)
        /\ power_enable d' = power_enable d
        /\ out = []).
Proof.
  intros P hold.
  unfold ButtonChangeISR. rewrite bind_get, P. cbn [when].
  rewrite bind_upd, bind_get.
  replace (button_press_millis (set_button_press false d))
    with (button_press_millis d) by now destruct d.
  fold hold. unfold DEBOUNCE_MILLIS.
  destruct (Z.leb_spec 5000 hold) as [ L | L ].
  - rewrite bind_get.
    eexists _, _. split; [ reflexivity | ].
    destruct d; cbn. repeat split; intros; try lia; reflexivity.
  - destruct (Z.leb_spec 50 hold) as [ D | D ]; cbn [when].
    + rewrite bind_get, bind_upd, bind_get. unfold emit.
      eexists _, _. split; [ reflexivity | ].
      destruct d; cbn. repeat split; intros; try lia; reflexivity.
    + eexists _, _. split; [ reflexivity | ].
      destruct d; cbn. repeat split; intros; try lia; reflexivity.
Qed.


(** ** Start-up *)

(** C9.  [setup] runs to its end whatever record the EEPROM holds.  When
    the header byte of that record differs from SETTINGS_HEADER the device
    is left as it was, so that settings that were the compiled-in defaults
    still are; when it is equal, the record read becomes the settings.  The
    same holds in the later revision, with its own header value. *)
Theorem setup_settings_load (persisted : Settings) (d : Device) (spiffs : bool) :
  (header persisted <> SETTINGS_HEADER ->
   exists out, setup persisted d = Done tt d out)
  /\ (header persisted = SETTINGS_HEADER ->
      exists out, setup persisted d = Done tt (set_settings persisted d) out)
  /\ (header persisted <> Rev2.SETTINGS_HEADER ->
      exists out, Rev2.setup persisted spiffs d = Done tt d out)
  /\ (header persisted = Rev2.SETTINGS_HEADER ->
      exists out,
        Rev2.setup persisted spiffs d = Done tt (set_settings persisted d) out).
Proof.
  unfold setup, Rev2.setup.
  repeat split; intros H;
    [ apply Z.eqb_neq in H | apply Z.eqb_eq in H
    | apply Z.eqb_neq in H | apply Z.eqb_eq in H ];
    unfold load_settings; cbv [bind emit]; rewrite H;
    destruct spiffs; eexists; reflexivity.
Qed.

Lemma setup_settings_load_blank_eeprom :
  settings reset = default_settings
  /\ (exists out, setup (store_port 8883 (initial_settings 255)) reset
                  = Done tt reset out)
  /\ (exists out, setup (store_port 8883 default_settings) reset
                  = Done tt (set_settings (store_port 8883 default_settings) reset) out)
  /\ (exists out, Rev2.setup (store_port 8883 default_settings) true Rev2.reset
                  = Done tt Rev2.reset out)
  /\ (exists out, Rev2.setup (store_port 8883 Rev2.default_settings) true Rev2.reset
                  = Done tt (set_settings (store_port 8883 Rev2.default_settings) Rev2.reset) out).
Proof.
  split; [ reflexivity | ].
  split; [ | split; [ | split ] ].
  - apply (setup_settings_load (store_port 8883 (initial_settings 255)) reset true).
    now cbv.
  - apply (setup_settings_load (store_port 8883 default_settings) reset true).
    reflexivity.
  - apply (setup_settings_load (store_port 8883 default_settings) Rev2.reset true).
    now cbv.
  - apply (setup_settings_load (store_port 8883 Rev2.default_settings) Rev2.reset true).
    reflexivity.
Defined.

(** ** The console tokenizer *)

Lemma cstr_nonzero l : forallb (fun c => negb (c =? NUL)) (cstr l) = true.
Proof.
  induction l as [ | c l IH ]; simpl; [ reflexivity | ].
  zeq c NUL; simpl; [ reflexivity | ].
  zeq c NUL; [ contradiction | exact IH ].
Qed.

Lemma skip_spaces_blank p :
  forallb (fun c => negb (c =? NUL)) p = true ->
  forallb isspace p = true -> skip_spaces p = [].
Proof.
  induction p as [ | c p IH ]; simpl; [ reflexivity | ].
  intros N B. apply andb_true_iff in N as [N1 N2].
  apply andb_true_iff in B as [B1 B2].
  rewrite N1, B1. simpl. now apply IH.
Qed.

Lemma skip_spaces_deref p :
  forallb (fun c => negb (c =? NUL)) p = true ->
  deref (skip_spaces p) = NUL -> forallb isspace p = true.
Proof.
  induction p as [ | c p IH ]; simpl; [ reflexivity | ].
  intros N. apply andb_true_iff in N as [N1 N2]. rewrite N1. simpl.
  destruct (isspace c); simpl.
  - now apply IH.
  - intros E. apply negb_true_iff, Z.eqb_neq in N1. contradiction.
Qed.

(** [tokenSplit] returns [nullptr] for the first token exactly when the
    line is blank. *)
Lemma tokenSplit_null line :
  fst (tokenSplit (Some (cstr line))) = None <-> blankb line = true.
Proof.
  unfold tokenSplit, blankb. pose proof (cstr_nonzero line) as N. split.
  - destruct (deref (skip_spaces (cstr line)) =? NUL) eqn:E.
    + intros _. apply Z.eqb_eq in E. now apply skip_spaces_deref.
    + destruct (scan_token (tl (skip_spaces (cstr line)))) as [tok stop].
      destruct (negb (deref stop =? NUL)); discriminate.
  - intros B. now rewrite skip_spaces_blank.
Qed.

Lemma PollBluetoothCommand_blank c d line :
  bt_line c = Some line -> blankb line = true ->
  PollBluetoothCommand c d = Crash null_dereference [].
Proof.
  intros L B. unfold PollBluetoothCommand. rewrite L.
  apply tokenSplit_null in B.
  destruct (tokenSplit (Some (cstr line))) as [cmd ptr]. simpl in B.
  now subst cmd.
Qed.

(** C10, at the failing inputs.  For the empty line and for the line that
    holds a lone carriage return, [tokenSplit] returns [nullptr] as the
    command, and the dispatch of [PollBluetoothCommand] hands it to
    [strcmp]: the call faults before anything is printed. *)
Theorem PollBluetoothCommand_null_command (d : Device) :
  fst (tokenSplit (Some (cstr (lit "")))) = None
  /\ PollBluetoothCommand (typed (lit "")) d = Crash null_dereference []
  /\ fst (tokenSplit (Some (cstr [13]))) = None
  /\ PollBluetoothCommand (typed [13]) d = Crash null_dereference [].
Proof.
  repeat split; try reflexivity;
    eapply PollBluetoothCommand_blank; reflexivity.
Qed.

Lemma scan_token_word w rest :
  forallb (fun c => negb (c =? NUL) && negb (isspace c)) w = true ->
  isspace (deref rest) = true \/ deref rest = NUL ->
  scan_token (w ++ rest) = (w, rest).
Proof.
  intros W S. induction w as [ | c w IH ]; simpl in *.
  - destruct rest as [ | r rest ]; [ reflexivity | ]. simpl in *.
    destruct S as [ S | S ].
    + rewrite S. now rewrite andb_false_r.
    + subst r. reflexivity.
  - apply andb_true_iff in W as [W1 W2]. rewrite W1, (IH W2). reflexivity.
Qed.

Lemma token_chars v :
  tokenb v = true ->
  exists c w, v = c :: w
    /\ (c =? NUL) = false /\ isspace c = false
    /\ forallb (fun c => negb (c =? NUL) && negb (isspace c)) w = true.
Proof.
  unfold tokenb. destruct v as [ | c w ]; [ discriminate | ].
  simpl. intros H. apply andb_true_iff in H as [H1 H2].
  apply andb_true_iff in H1 as [H1 H3].
  apply negb_true_iff in H1, H3. now exists c, w.
Qed.

Lemma token_plain v : tokenb v = true -> cstr v = v.
Proof.
  unfold tokenb. intros H. apply andb_true_iff in H as [_ H].
  apply cstr_plain. rewrite forallb_forall in *. intros c I.
  specialize (H c I). now apply andb_true_iff in H as [H _].
Qed.

(** A token followed by a blank and more text: the token is returned and
    [ptr] is left after the blank. *)
Lemma tokenSplit_first w rest :
  tokenb w = true ->
  tokenSplit (Some (w ++ 32 :: rest)) = (Some w, Some rest).
Proof.
  intros T. destruct (token_chars w T) as [c [w' [-> [N [S W]]]]].
  unfold tokenSplit. simpl skip_spaces. rewrite N, S. simpl.
  rewrite N. rewrite (scan_token_word w' (32 :: rest) W); [ | now left ].
  reflexivity.
Qed.

(** A token that ends the line: the token is returned and [ptr] becomes
    [nullptr]. *)
Lemma tokenSplit_last w :
  tokenb w = true -> tokenSplit (Some w) = (Some w, None).
Proof.
  intros T. destruct (token_chars w T) as [c [w' [-> [N [S W]]]]].
  unfold tokenSplit. simpl skip_spaces. rewrite N, S. simpl.
  rewrite N. rewrite <- (app_nil_r w') at 1.
  rewrite (scan_token_word w' [] W); [ | now right ].
  reflexivity.
Qed.

(** ** Reading and writing a settings member *)

Lemma member_store f x s : member f (store f x s) = x.
Proof. now destruct f, s. Qed.

Lemma settings_set_settings s d : settings (set_settings s d) = s.
Proof. now destruct d. Qed.

Lemma SettingsReadWriteHelper_write f size v d :
  let d' := set_settings
              (store f (written size v (member f (settings d))) (settings d)) d in
  SettingsReadWriteHelper f size (Some v) d =
  Done true d'
    [EEPROM_put (settings d'); EEPROM_commit;
     bt_println (lit "Settings saved.")].
Proof.
  unfold SettingsReadWriteHelper, written, poke, SaveSettings.
  rewrite bind_upd.
  destruct (strcmp v (lit "-") =? 0); cbn [negb when].
  - rewrite bind_ret. destruct d as [s]; destruct s; destruct f; reflexivity.
  - rewrite bind_upd. destruct d as [s]; destruct s; destruct f; reflexivity.
Qed.

Lemma SettingsReadWriteHelper_read f size d :
  SettingsReadWriteHelper f size None d =
  Done false d [bt_println (cstr (member f (settings d)))].
Proof. reflexivity. Qed.

Lemma firstn_zeros_tail n (l : list Z) :
  cstr l = l -> cstr (firstn n (l ++ repeat NUL n)) = firstn n l.
Proof.
  intros P. rewrite cstr_firstn, cstr_app_zeros, P. reflexivity.
Qed.

Lemma skipn_repeat_succ n (x : Z) r :
  skipn n (repeat x (S n) ++ r) = x :: r.
Proof. induction n as [ | n IH ]; [ reflexivity | exact IH ]. Qed.

(** The text of a member after the write form: nothing for "-", else the
    first [size - 1] characters of the value. *)
Lemma cstr_written size v b :
  (0 < size)%nat ->
  cstr (written size v b) =
  if same (cstr v) (lit "-") then [] else firstn (size - 1) (cstr v).
Proof.
  intros Pos. unfold written. rewrite strcmp_same.
  change (cstr (lit "-")) with (lit "-").
  destruct size as [ | n ]; [ lia | clear Pos ].
  destruct (same (cstr v) (lit "-")).
  - reflexivity.
  - unfold strncpy, memset. replace (S n - 1)%nat with n by lia.
    replace (skipn n (repeat 0 (S n) ++ skipn (S n) b))
      with (NUL :: skipn (S n) b).
    + rewrite cstr_app_nul. apply firstn_zeros_tail, cstr_idem.
    + symmetry. apply skipn_repeat_succ.
Qed.

(** ** The console commands for one member *)

(** One comparison of the command dispatch, for a command that is known. *)
Ltac dispatch_step :=
  cbv beta iota; unfold strcmp_at at 1; cbv beta iota; rewrite bind_ret;
  match goal with
  | |- context [strcmp ?a ?b =? 0] =>
      let r := eval vm_compute in (strcmp a b =? 0) in
      change (strcmp a b =? 0) with r
  end;
  cbv beta iota.

Lemma command_line_plain name v :
  forallb (fun c => negb (c =? NUL)) (lit name) = true ->
  tokenb v = true ->
  cstr (lit name ++ 32 :: v) = lit name ++ 32 :: v.
Proof.
  intros N T. apply cstr_plain. rewrite forallb_app, N. simpl.
  rewrite <- (token_plain v T). apply cstr_nonzero.
Qed.

Lemma settings_after_restart_wifi d :
  settings (set_wifi_last_try 0 (set_mqtt_last_try 0 d)) = settings d.
Proof. now destruct d. Qed.

Lemma settings_after_restart_mqtt d :
  settings (set_mqtt_last_try 0 d) = settings d.
Proof. now destruct d. Qed.

Lemma PollBluetoothCommand_write f name v c d :
  command_of f = Some name -> tokenb v = true ->
  bt_line c = Some (lit name ++ 32 :: v) ->
  exists d1 o1,
    PollBluetoothCommand c d = Done tt d1 o1
    /\ member f (settings d1) = written (sizeof f) v (member f (settings d)).
Proof.
  intros C T L. unfold PollBluetoothCommand. rewrite L.
  destruct f; simpl in C; inversion C; subst name; clear C;
    (rewrite command_line_plain by (reflexivity || exact T));
    (rewrite tokenSplit_first by reflexivity);
    repeat dispatch_step;
    rewrite (tokenSplit_last v T); cbv beta iota;
    rewrite (bind_done _ _ _ _ _ _ (SettingsReadWriteHelper_write _ _ v d));
    eexists _, _; (split; [ reflexivity | ]);
    rewrite ?settings_after_restart_wifi, ?settings_after_restart_mqtt,
      settings_set_settings, member_store; reflexivity.
Qed.

Lemma PollBluetoothCommand_read f name c d :
  command_of f = Some name ->
  bt_line c = Some (lit name) ->
  PollBluetoothCommand c d =
  Done tt d [bt_println (cstr (member f (settings d)))].
Proof.
  intros C L. unfold PollBluetoothCommand. rewrite L.
  destruct f; simpl in C; inversion C; subst name; clear C;
    match goal with
    | |- context [tokenSplit (Some (cstr ?l))] =>
        let r := eval vm_compute in (tokenSplit (Some (cstr l))) in
        change (tokenSplit (Some (cstr l))) with r
    end;
    repeat dispatch_step;
    reflexivity.
Qed.

(** C8, as the code has it.  For each of the five members that have a
    console command with a read and a write form (device-name, mqtt-server,
    mqtt-id, mqtt-control-topic, mqtt-status-topic) and every token [v]:
    after the write form with [v], the read form prints nothing but a line
    holding the first [sizeof - 1] characters of [v], or the empty line when
    [v] is "-"; so a value other than "-" that fits the member with its
    terminating zero is read back as it was written. *)
Theorem settings_round_trip f name v c1 c2 d :
  command_of f = Some name -> tokenb v = true ->
  bt_line c1 = Some (lit name ++ 32 :: v) ->
  bt_line c2 = Some (lit name) ->
  exists d1 o1,
    PollBluetoothCommand c1 d = Done tt d1 o1
    /\ PollBluetoothCommand c2 d1 =
       Done tt d1
         [bt_println
            (if same v (lit "-") then [] else firstn (sizeof f - 1) v)]
    /\ (same v (lit "-") = false -> (length v < sizeof f)%nat ->
        PollBluetoothCommand c2 d1 = Done tt d1 [bt_println v]).
Proof.
  intros C T L1 L2.
  destruct (PollBluetoothCommand_write f name v c1 d C T L1) as [d1 [o1 [E W]]].
  exists d1, o1. split; [ exact E | ].
  assert (R : PollBluetoothCommand c2 d1 =
              Done tt d1
                [bt_println
                   (if same v (lit "-") then []
                    else firstn (sizeof f - 1) v)]).
  { rewrite (PollBluetoothCommand_read f name c2 d1 C L2), W.
    rewrite cstr_written by (destruct f; simpl; lia).
    now rewrite (token_plain v T). }
  split; [ exact R | ].
  intros N S. rewrite R, N. now rewrite firstn_all2 by lia.
Qed.

Lemma settings_round_trip_device_name :
  exists d1 o1,
    PollBluetoothCommand (typed (lit "device-name" ++ 32 :: lit "kettle")) reset
      = Done tt d1 o1
    /\ PollBluetoothCommand (typed (lit "device-name")) d1
       = Done tt d1 [bt_println (lit "kettle")].
Proof.
  destruct (settings_round_trip f_device_name "device-name" (lit "kettle")
              (typed (lit "device-name" ++ 32 :: lit "kettle"))
              (typed (lit "device-name")) reset
              eq_refl eq_refl eq_refl eq_refl)
    as [d1 [o1 [E [_ R]]]].
  exists d1, o1. split; [ exact E | ].
  apply R; [ reflexivity | ]. simpl. lia.
Defined.

(** C8 as stated fails on a value that does not fit: the host name
    broker.example.com written to the 16-byte member [mqtt_server] is read
    back without its last three characters. *)
Lemma mqtt_server_read_back_cut :
  exists d1 o1,
    PollBluetoothCommand (typed (lit "mqtt-server broker.example.com")) reset
      = Done tt d1 o1
    /\ PollBluetoothCommand (typed (lit "mqtt-server")) d1
       = Done tt d1 [bt_println (lit "broker.example.")]
    /\ lit "broker.example." <> lit "broker.example.com".
Proof.
  eexists _, _. split; [ vm_compute; reflexivity | ].
  split; [ vm_compute; reflexivity | discriminate ].
Qed.

(** ** The control topic *)

Lemma skipn_repeat_zeros n m : skipn n (repeat NUL m) = repeat NUL (m - n).
Proof.
  revert m. induction n as [ | n IH ]; intros [ | m ]; simpl;
    try reflexivity. apply IH.
Qed.

(** The text of the local buffer [str] is the text of the first seven
    bytes of the payload. *)
Lemma cstr_str payload :
  cstr (memcpy (repeat NUL 8) payload (Nat.min (length payload) (8 - 1)))
  = cstr (firstn 7 payload).
Proof.
  unfold memcpy. rewrite skipn_repeat_zeros, cstr_app_zeros.
  f_equal. change (8 - 1)%nat with 7%nat.
  destruct (Nat.le_ge_cases (length payload) 7) as [ L | L ].
  - rewrite Nat.min_l by exact L. now rewrite !firstn_all2 by lia.
  - now rewrite Nat.min_r by exact L.
Qed.

Lemma tolower_digit c d :
  48 <= d <= 57 -> (tolower c = tolower d <-> c = d).
Proof.
  unfold tolower. intros D.
  destruct (Z.leb_spec 65 c); destruct (Z.leb_spec c 90);
    destruct (Z.leb_spec 65 d); destruct (Z.leb_spec d 90); simpl; lia.
Qed.

Lemma same_nocase_digit text d :
  48 <= d <= 57 -> same_nocase text [d] = same text [d].
Proof.
  intros D. apply eq_true_iff_eq. unfold same_nocase.
  rewrite !same_true.
  destruct text as [ | c [ | c' text ] ]; simpl; split; intros H;
    try discriminate; inversion H.
  - f_equal. now apply (tolower_digit c d D).
  - reflexivity.
Qed.

Lemma MQTTCallback_done topic payload d :
  (strlen (mqtt_control_topic (settings d)) < 32)%nat ->
  MQTTCallback topic payload d =
  Done tt
    (if same (cstr topic) (cstr (mqtt_control_topic (settings d)))
     then apply_command (decode (cstr (firstn 7 payload))) d else d)
    [].
Proof.
  intros W. unfold MQTTCallback. rewrite bind_get.
  rewrite (strncmp_same 32 topic _ W).
  destruct (same (cstr topic) (cstr (mqtt_control_topic (settings d))));
    cbn [when]; [ | reflexivity ].
  rewrite !strcasecmp_same, !strcmp_same, cstr_str.
  change (cstr (lit "on")) with (lit "on").
  change (cstr (lit "true")) with (lit "true").
  change (cstr (lit "off")) with (lit "off").
  change (cstr (lit "false")) with (lit "false").
  change (cstr (lit "1")) with [49]. change (cstr (lit "0")) with [48].
  unfold decode. change (lit "1") with [49]. change (lit "0") with [48].
  rewrite !same_nocase_digit by lia.
  destruct (same_nocase (cstr (firstn 7 payload)) (lit "on")
            || same_nocase (cstr (firstn 7 payload)) (lit "true")
            || same (cstr (firstn 7 payload)) [49]); [ reflexivity | ].
  destruct (same_nocase (cstr (firstn 7 payload)) (lit "off")
            || same_nocase (cstr (firstn 7 payload)) (lit "false")
            || same (cstr (firstn 7 payload)) [48]); reflexivity.
Qed.

(** The defaults and every value the console writes leave a member
    terminated within its bytes. *)
Lemma written_terminated size v b :
  (0 < size)%nat -> (strlen (written size v b) < size)%nat.
Proof.
  intros S. unfold strlen. rewrite cstr_written by exact S.
  destruct (same (cstr v) (lit "-")); simpl; [ exact S | ].
  rewrite length_firstn. lia.
Qed.

(** C5, as the code has it.  The stored control topic is taken to be a
    terminated string within its 32 bytes.  A message whose topic is not
    that string leaves the device as it was.  For a message on the control
    topic, the text decoded is the first seven payload bytes read as a C
    string, that is up to the first zero byte among them if there is one:
    compared without regard to case, "on", "true" and "1" set
    [power_enable], "off", "false" and "0" clear it, and any other text
    leaves the device as it was.  Nothing is printed and nothing faults. *)
Theorem MQTTCallback_decodes topic payload d :
  (strlen (mqtt_control_topic (settings d)) < 32)%nat ->
  (cstr topic <> cstr (mqtt_control_topic (settings d)) ->
   MQTTCallback topic payload d = Done tt d [])
  /\ (cstr topic = cstr (mqtt_control_topic (settings d)) ->
      MQTTCallback topic payload d =
      Done tt (apply_command (decode (cstr (firstn 7 payload))) d) []).
Proof.
  intros W. rewrite (MQTTCallback_done topic payload d W).
  split; intros H.
  - destruct (same (cstr topic) (cstr (mqtt_control_topic (settings d)))) eqn:E;
      [ apply same_true in E; contradiction | reflexivity ].
  - rewrite H, same_refl. reflexivity.
Qed.

Lemma MQTTCallback_decodes_mixed_case :
  MQTTCallback (lit "sw/cmd") (lit "tRuE") configured
    = Done tt (set_power_enable true configured) []
  /\ MQTTCallback (lit "sw/other") (lit "on") configured
     = Done tt configured [].
Proof.
  destruct (MQTTCallback_decodes (lit "sw/cmd") (lit "tRuE") configured)
    as [_ Y]; [ vm_compute; lia | ].
  destruct (MQTTCallback_decodes (lit "sw/other") (lit "on") configured)
    as [N _]; [ vm_compute; lia | ].
  split; [ apply Y; reflexivity | apply N; discriminate ].
Defined.

(** C5 as stated fails on a payload with a zero byte: the four bytes
    "on", zero, "x" are not one of the six words, with or without regard to
    case, yet the callback switches the power on. *)
Lemma payload_cut_at_zero_byte :
  decode (firstn 7 on_zero_x) = None
  /\ power_enable configured = false
  /\ MQTTCallback (lit "sw/cmd") on_zero_x configured
     = Done tt (set_power_enable true configured) [].
Proof. repeat split. Qed.

(** ** The link supervisors *)

Lemma wl_status_eqb_eq a b : wl_status_eqb a b = true <-> a = b.
Proof. destruct a, b; simpl; split; intros; congruence. Qed.

Lemma wl_status_eqb_neq a b : wl_status_eqb a b = false <-> a <> b.
Proof. destruct a, b; simpl; split; intros; congruence. Qed.

Lemma set_last_status_same d : set_last_status (last_status d) d = d.
Proof. now destruct d. Qed.

Lemma set_last_state_same d : set_last_state (last_state d) d = d.
Proof. now destruct d. Qed.

(** Unfolding a supervisor on a device given field by field; the tests
    are then decided from the outside in. *)
Ltac run_supervisor :=
  cbv [EnsureWiFi EnsureMQTT PublishStatus bind get upd emit ret when];
  cbn [settings wifi_last_try mqtt_last_try last_status last_state
       power_enable set_last_status set_last_state set_wifi_last_try
       set_mqtt_last_try].

Ltac decide_tests :=
  repeat (progress
            (repeat match goal with
                    | H : _ = true |- _ => rewrite H
                    | H : _ = false |- _ => rewrite H
                    end;
             cbv beta iota;
             cbn [settings wifi_last_try mqtt_last_try last_status last_state
                  power_enable set_last_status set_last_state
                  set_wifi_last_try set_mqtt_last_try negb])).

(** [EnsureWiFi] while the link is down and a network name is set. *)
Lemma EnsureWiFi_retry status now d :
  status <> WL_CONNECTED ->
  (0 < strlen (wifi_ssid (settings d)))%nat ->
  exists out,
    EnsureWiFi status now d =
    Done false
      (if (wifi_last_try d =? 0) || (60000 <=? elapsed now (wifi_last_try d))
       then set_wifi_last_try now (set_last_status status d)
       else set_last_status status d)
      out
    /\ wifi_attempts out =
       (if (wifi_last_try d =? 0) || (60000 <=? elapsed now (wifi_last_try d))
        then 1%nat else 0%nat)
    /\ ((wifi_last_try d =? 0) || (60000 <=? elapsed now (wifi_last_try d))
        = false -> forallb is_diagnostic out = true).
Proof.
  intros C S. apply wl_status_eqb_neq in C.
  assert (E : (strlen (wifi_ssid (settings d)) =? 0)%nat = false)
    by (apply Nat.eqb_neq; lia).
  clear S.
  destruct d as [s pe be bem wlt mlt ls lst bp bpm lb bd lc le lpe lbe].
  cbn [settings wifi_last_try] in *.
  destruct ((wlt =? 0) || (60000 <=? elapsed now wlt)) eqn:K;
    destruct (wl_status_eqb status ls) eqn:L;
    try (pose proof L as L'; apply wl_status_eqb_eq in L'; subst ls);
    run_supervisor; decide_tests;
    eexists; (split; [ reflexivity | split; [ reflexivity | ] ]);
    intros; try discriminate; reflexivity.
Qed.

(** [EnsureWiFi] while the link is down and no network name is set. *)
Lemma EnsureWiFi_unset status now d :
  status <> WL_CONNECTED ->
  strlen (wifi_ssid (settings d)) = 0%nat ->
  exists out,
    EnsureWiFi status now d = Done false (set_last_status status d) out
    /\ forallb is_diagnostic out = true
    /\ (status = last_status d -> out = []).
Proof.
  intros C S. apply wl_status_eqb_neq in C.
  assert (E : (strlen (wifi_ssid (settings d)) =? 0)%nat = true)
    by (apply Nat.eqb_eq; lia).
  clear S.
  destruct d as [s pe be bem wlt mlt ls lst bp bpm lb bd lc le lpe lbe].
  cbn [settings last_status] in *.
  destruct (wl_status_eqb status ls) eqn:L;
    try (pose proof L as L'; apply wl_status_eqb_eq in L'; subst ls);
    run_supervisor; decide_tests;
    eexists; (split; [ reflexivity | split; [ reflexivity | ] ]);
    intros K.
  - reflexivity.
  - apply wl_status_eqb_neq in L. contradiction.
Qed.

(** [EnsureMQTT] while the link is down and a broker address is set. *)
Lemma EnsureMQTT_retry state now success d :
  state <> MQTT_CONNECTED ->
  (0 < strlen (mqtt_server (settings d)))%nat ->
  exists out,
    EnsureMQTT state now success d =
    (if (mqtt_last_try d =? 0) || (60000 <=? elapsed now (mqtt_last_try d))
     then Done success (set_mqtt_last_try now (set_last_state state d)) out
     else Done false (set_last_state state d) out)
    /\ mqtt_attempts out =
       (if (mqtt_last_try d =? 0) || (60000 <=? elapsed now (mqtt_last_try d))
        then 1%nat else 0%nat)
    /\ ((mqtt_last_try d =? 0) || (60000 <=? elapsed now (mqtt_last_try d))
        = false -> forallb is_diagnostic out = true)
    /\ publishes out = [].
Proof.
  intros C S. apply Z.eqb_neq in C.
  assert (E : (strlen (mqtt_server (settings d)) =? 0)%nat = false)
    by (apply Nat.eqb_neq; lia).
  clear S.
  destruct d as [s pe be bem wlt mlt ls lst bp bpm lb bd lc le lpe lbe].
  cbn [settings mqtt_last_try] in *.
  destruct ((mlt =? 0) || (60000 <=? elapsed now mlt)) eqn:K;
    destruct (state =? lst) eqn:L;
    try (pose proof L as L'; apply Z.eqb_eq in L'; subst lst);
    destruct (strlen (mqtt_user s) =? 0)%nat eqn:U;
    destruct (success && (0 <? strlen (mqtt_control_topic s))%nat) eqn:T;
    run_supervisor; decide_tests;
    eexists; (split; [ reflexivity | ]);
    (split; [ reflexivity | ]); (split; [ | reflexivity ]);
    intros; try discriminate; reflexivity.
Qed.

(** [EnsureMQTT] while the link is down and no broker address is set. *)
Lemma EnsureMQTT_unset state now success d :
  state <> MQTT_CONNECTED ->
  strlen (mqtt_server (settings d)) = 0%nat ->
  exists out,
    EnsureMQTT state now success d = Done false (set_last_state state d) out
    /\ forallb is_diagnostic out = true
    /\ (state = last_state d -> out = []).
Proof.
  intros C S. apply Z.eqb_neq in C.
  assert (E : (strlen (mqtt_server (settings d)) =? 0)%nat = true)
    by (apply Nat.eqb_eq; lia).
  clear S.
  destruct d as [s pe be bem wlt mlt ls lst bp bpm lb bd lc le lpe lbe].
  cbn [settings last_state] in *.
  destruct (state =? lst) eqn:L;
    try (pose proof L as L'; apply Z.eqb_eq in L'; subst lst);
    run_supervisor; decide_tests;
    eexists; (split; [ reflexivity | split; [ reflexivity | ] ]);
    intros K.
  - reflexivity.
  - apply Z.eqb_neq in L. contradiction.
Qed.

Lemma diagnostics_only out :
  forallb is_diagnostic out = true ->
  wifi_attempts out = 0%nat /\ mqtt_attempts out = 0%nat /\ publishes out = [].
Proof.
  unfold wifi_attempts, mqtt_attempts, publishes.
  induction out as [ | e out IH ]; simpl; [ now repeat split | ].
  intros H. apply andb_true_iff in H as [H1 H2].
  destruct (IH H2) as [A [B C]].
  destruct e; simpl in *; try discriminate; now repeat split.
Qed.

Lemma retry_due_iff last now :
  (last =? 0) || (60000 <=? elapsed now last) = true
  <-> last = 0 \/ 60000 <= elapsed now last.
Proof. rewrite orb_true_iff, Z.eqb_eq, Z.leb_le. tauto. Qed.

Lemma retry_not_due last now :
  last <> 0 -> elapsed now last < 60000 ->
  (last =? 0) || (60000 <=? elapsed now last) = false.
Proof.
  intros N E. apply orb_false_iff. split.
  - now apply Z.eqb_neq.
  - apply Z.leb_gt. exact E.
Qed.

(** C7, as the code has it.  A supervisor called while its link is down
    and its endpoint is not set (empty network name, empty broker address)
    returns false and starts no connection attempt.  It leaves every
    variable of the device as it was, [wifi_last_try] and [mqtt_last_try]
    among them, except the status it saw last ([last_status], [last_state]),
    which becomes the status it sees now; it prints only the state-change
    diagnostic, and nothing at all when the status is the one seen last. *)
Theorem ensure_without_endpoint d :
  (forall status now,
      status <> WL_CONNECTED ->
      strlen (wifi_ssid (settings d)) = 0%nat ->
      exists d' out,
        EnsureWiFi status now d = Done false d' out
        /\ d' = set_last_status status d
        /\ wifi_last_try d' = wifi_last_try d
        /\ wifi_attempts out = 0%nat
        /\ forallb is_diagnostic out = true
        /\ (status = last_status d -> d' = d /\ out = []))
  /\ (forall state now success,
         state <> MQTT_CONNECTED ->
         strlen (mqtt_server (settings d)) = 0%nat ->
         exists d' out,
           EnsureMQTT state now success d = Done false d' out
           /\ d' = set_last_state state d
           /\ mqtt_last_try d' = mqtt_last_try d
           /\ mqtt_attempts out = 0%nat
           /\ forallb is_diagnostic out = true
           /\ (state = last_state d -> d' = d /\ out = [])).
Proof.
  split.
  - intros status now C S.
    destruct (EnsureWiFi_unset status now d C S) as [out [E [D Q]]].
    exists (set_last_status status d), out.
    split; [ exact E | ]. split; [ reflexivity | ].
    split; [ now destruct d | ].
    split; [ now apply diagnostics_only | ].
    split; [ exact D | ].
    intros K. split; [ rewrite K; apply set_last_status_same | now apply Q ].
  - intros state now success C S.
    destruct (EnsureMQTT_unset state now success d C S) as [out [E [D Q]]].
    exists (set_last_state state d), out.
    split; [ exact E | ]. split; [ reflexivity | ].
    split; [ now destruct d | ].
    split; [ now apply diagnostics_only | ].
    split; [ exact D | ].
    intros K. split; [ rewrite K; apply set_last_state_same | now apply Q ].
Qed.

Lemma ensure_without_endpoint_at_reset :
  (exists d' out,
      EnsureWiFi WL_DISCONNECTED 5 reset = Done false d' out
      /\ wifi_last_try d' = 0 /\ wifi_attempts out = 0%nat)
  /\ (exists d' out,
         EnsureMQTT MQTT_CONNECTION_LOST 5 true reset = Done false d' out
         /\ mqtt_last_try d' = 0 /\ mqtt_attempts out = 0%nat).
Proof.
  destruct (ensure_without_endpoint reset) as [W B].
  split.
  - destruct (W WL_DISCONNECTED 5) as [d' [out [E [_ [L [A _]]]]]];
      [ discriminate | reflexivity | ].
    exists d', out. repeat split; assumption.
  - destruct (B MQTT_CONNECTION_LOST 5 true) as [d' [out [E [_ [L [A _]]]]]];
      [ discriminate | reflexivity | ].
    exists d', out. repeat split; assumption.
Defined.

(** C7 as stated fails on the first call after reset: with no network
    name set, [EnsureWiFi] that sees the link disconnected changes its
    static [last_status] and prints the diagnostic. *)
Lemma EnsureWiFi_unset_records_status :
  strlen (wifi_ssid (settings reset)) = 0%nat
  /\ EnsureWiFi WL_DISCONNECTED 5 reset
     = Done false (set_last_status WL_DISCONNECTED reset)
         [Serial_print (lit "WiFi state changed to ");
          Serial_print (lit "DISCONNECTED"); Serial_println (lit ".")]
  /\ set_last_status WL_DISCONNECTED reset <> reset.
Proof. repeat split. discriminate. Qed.

Lemma settings_after_attempt_wifi status now d :
  settings (set_wifi_last_try now (set_last_status status d)) = settings d
  /\ wifi_last_try (set_wifi_last_try now (set_last_status status d)) = now.
Proof. now destruct d. Qed.

Lemma settings_after_attempt_mqtt state now d :
  settings (set_mqtt_last_try now (set_last_state state d)) = settings d
  /\ mqtt_last_try (set_mqtt_last_try now (set_last_state state d)) = now.
Proof. now destruct d. Qed.

(** C6, as the code has it.  For each supervisor, called while its link is
    down and its endpoint is set:
    - when the recorded last attempt is not 0 and less than 60000 ms have
      elapsed since, the call starts no attempt, returns false, prints at
      most the state-change diagnostic and changes nothing but the status
      seen last;
    - when the recorded last attempt is 0 or at least 60000 ms have
      elapsed since, the call starts exactly one attempt and records the
      clock as the last attempt; and if the clock did not read 0 then, a
      further call within 60000 ms of that attempt starts none.
    An attempt made when the clock reads 0 is recorded as 0, the value
    that stands for no attempt so far, and is not covered by the last
    point. *)
Theorem ensure_retry_gate d :
  (forall status now,
      status <> WL_CONNECTED ->
      (0 < strlen (wifi_ssid (settings d)))%nat ->
      (wifi_last_try d <> 0 -> elapsed now (wifi_last_try d) < 60000 ->
       exists out,
         EnsureWiFi status now d = Done false (set_last_status status d) out
         /\ wifi_attempts out = 0%nat
         /\ forallb is_diagnostic out = true)
      /\ (wifi_last_try d = 0 \/ 60000 <= elapsed now (wifi_last_try d) ->
          exists d' out,
            EnsureWiFi status now d = Done false d' out
            /\ wifi_attempts out = 1%nat
            /\ wifi_last_try d' = now
            /\ (now <> 0 ->
                forall status' now',
                  status' <> WL_CONNECTED -> elapsed now' now < 60000 ->
                  exists out',
                    EnsureWiFi status' now' d'
                    = Done false (set_last_status status' d') out'
                    /\ wifi_attempts out' = 0%nat)))
  /\ (forall state now success,
         state <> MQTT_CONNECTED ->
         (0 < strlen (mqtt_server (settings d)))%nat ->
         (mqtt_last_try d <> 0 -> elapsed now (mqtt_last_try d) < 60000 ->
          exists out,
            EnsureMQTT state now success d
            = Done false (set_last_state state d) out
            /\ mqtt_attempts out = 0%nat
            /\ forallb is_diagnostic out = true)
         /\ (mqtt_last_try d = 0 \/ 60000 <= elapsed now (mqtt_last_try d) ->
             exists d' out,
               EnsureMQTT state now success d = Done success d' out
               /\ mqtt_attempts out = 1%nat
               /\ mqtt_last_try d' = now
               /\ (now <> 0 ->
                   forall state' now' success',
                     state' <> MQTT_CONNECTED -> elapsed now' now < 60000 ->
                     exists out',
                       EnsureMQTT state' now' success' d'
                       = Done false (set_last_state state' d') out'
                       /\ mqtt_attempts out' = 0%nat))).
Proof.
  split.
  - intros status now C S. split.
    + intros N E.
      destruct (EnsureWiFi_retry status now d C S) as [out [R [A D]]].
      rewrite (retry_not_due _ _ N E) in *.
      exists out. split; [ exact R | split; [ exact A | now apply D ] ].
    + intros K. apply retry_due_iff in K.
      destruct (EnsureWiFi_retry status now d C S) as [out [R [A _]]].
      rewrite K in *.
      destruct (settings_after_attempt_wifi status now d) as [S' T'].
      eexists _, out. split; [ exact R | ].
      split; [ exact A | ]. split; [ exact T' | ].
      intros N status' now' C' E'.
      destruct (EnsureWiFi_retry status' now'
                  (set_wifi_last_try now (set_last_status status d)) C')
        as [out' [R' [A' _]]]; [ now rewrite S' | ].
      rewrite T', (retry_not_due _ _ N E') in *.
      exists out'. split; [ exact R' | exact A' ].
  - intros state now success C S. split.
    + intros N E.
      destruct (EnsureMQTT_retry state now success d C S) as [out [R [A [D _]]]].
      rewrite (retry_not_due _ _ N E) in *.
      exists out. split; [ exact R | split; [ exact A | now apply D ] ].
    + intros K. apply retry_due_iff in K.
      destruct (EnsureMQTT_retry state now success d C S) as [out [R [A _]]].
      rewrite K in *.
      destruct (settings_after_attempt_mqtt state now d) as [S' T'].
      eexists _, out. split; [ exact R | ].
      split; [ exact A | ]. split; [ exact T' | ].
      intros N state' now' success' C' E'.
      destruct (EnsureMQTT_retry state' now' success'
                  (set_mqtt_last_try now (set_last_state state d)) C')
        as [out' [R' [A' _]]]; [ now rewrite S' | ].
      rewrite T', (retry_not_due _ _ N E') in *.
      exists out'. split; [ exact R' | exact A' ].
Qed.

Lemma ensure_retry_gate_configured :
  (exists d' out,
      EnsureWiFi WL_DISCONNECTED 70000 (set_wifi_last_try 10000 configured)
      = Done false d' out
      /\ wifi_attempts out = 1%nat /\ wifi_last_try d' = 70000)
  /\ (exists out,
         EnsureWiFi WL_DISCONNECTED 69999 (set_wifi_last_try 10000 configured)
         = Done false
             (set_last_status WL_DISCONNECTED
                (set_wifi_last_try 10000 configured)) out
         /\ wifi_attempts out = 0%nat)
  /\ (exists d' out,
         EnsureMQTT MQTT_DISCONNECTED 2000 false configured
         = Done false d' out
         /\ mqtt_attempts out = 1%nat /\ mqtt_last_try d' = 2000)
  /\ (exists out,
         EnsureMQTT MQTT_CONNECT_FAILED 61999 false
           (set_mqtt_last_try 2000 configured)
         = Done false
             (set_last_state MQTT_CONNECT_FAILED
                (set_mqtt_last_try 2000 configured)) out
         /\ mqtt_attempts out = 0%nat).
Proof.
  destruct (ensure_retry_gate (set_wifi_last_try 10000 configured)) as [W _].
  destruct (ensure_retry_gate configured) as [_ B].
  destruct (ensure_retry_gate (set_mqtt_last_try 2000 configured)) as [_ B'].
  split; [ | split; [ | split ] ].
  - destruct (W WL_DISCONNECTED 70000) as [_ A];
      [ discriminate | vm_compute; lia | ].
    destruct A as [d' [out [E [N [L _]]]]]; [ right; vm_compute; discriminate | ].
    exists d', out. repeat split; assumption.
  - destruct (W WL_DISCONNECTED 69999) as [Q _];
      [ discriminate | vm_compute; lia | ].
    destruct Q as [out [E [N _]]]; [ discriminate | reflexivity | ].
    exists out. split; assumption.
  - destruct (B MQTT_DISCONNECTED 2000 false) as [_ A];
      [ discriminate | vm_compute; lia | ].
    destruct A as [d' [out [E [N [L _]]]]]; [ left; reflexivity | ].
    exists d', out. repeat split; assumption.
  - destruct (B' MQTT_CONNECT_FAILED 61999 false) as [Q _];
      [ discriminate | vm_compute; lia | ].
    destruct Q as [out [E [N _]]]; [ discriminate | reflexivity | ].
    exists out. split; assumption.
Defined.

(** C6 as stated fails when an attempt falls on the clock reading 0, as
    it does when a retry comes due at the instant the 32-bit clock wraps:
    the attempt is recorded as 0, and the call one millisecond later
    starts a second attempt. *)
Lemma EnsureWiFi_two_attempts_one_ms_apart :
  exists d1 o1 d2 o2,
    EnsureWiFi WL_DISCONNECTED 0 (set_wifi_last_try 4294907296 configured)
    = Done false d1 o1
    /\ wifi_attempts o1 = 1%nat
    /\ wifi_last_try d1 = 0
    /\ EnsureWiFi WL_DISCONNECTED 1 d1 = Done false d2 o2
    /\ wifi_attempts o2 = 1%nat
    /\ elapsed 1 0 = 1.
Proof.
  eexists _, _, _, _.
  split; [ vm_compute; reflexivity | ].
  split; [ reflexivity | ]. split; [ reflexivity | ].
  split; [ vm_compute; reflexivity | ].
  split; reflexivity.
Qed.

(** ** The console gate *)

(** C3, at the failing input.  After a first iteration of the loop,
    Bluetooth is switched on by a long hold and seen by the loop at
    6001 ms; a client attaches and is seen gone at 605001 ms, when the gate
    stays up.  One second later, at 606001 ms, the
    loop takes the gate down: 600000 ms have elapsed since Bluetooth was
    switched on, and 1000 ms since the client was seen gone. *)
Theorem bluetooth_timeout_runs_from_enable :
  option_map bluetooth_enable (final (after_long_hold attach_detach reset))
  = Some true
  /\ option_map bluetooth_enable_millis
       (final (after_long_hold attach_detach reset))
     = Some 6001
  /\ In (Serial_println (lit "Bluetooth client disconnected."))
       (output (after_long_hold attach_detach reset))
  /\ option_map bluetooth_enable
       (final (after_long_hold (attach_detach ++ [tick 606001 false]) reset))
     = Some false
  /\ In (Serial_println (lit "Bluetooth timeout."))
       (output (after_long_hold (attach_detach ++ [tick 606001 false]) reset))
  /\ elapsed 606001 605001 = 1000
  /\ elapsed 606001 6001 = 600000.
Proof.
  split; [ vm_compute; reflexivity | ].
  split; [ vm_compute; reflexivity | ].
  split; [ vm_compute; tauto | ].
  split; [ vm_compute; reflexivity | ].
  split; [ vm_compute; tauto | ].
  split; reflexivity.
Qed.

(** The later revision measures from the time a client was seen gone:
    with the gate up and no client attached, the gate falls exactly when
    600000 ms have elapsed since [bluetooth_disconnected_millis], which is
    the clock of this iteration when the client was attached until now. *)
Lemma Rev2_gate_step_idle now_edge now_test g :
  Rev2.config_enable g = true ->
  let since := if Rev2.last_bluetooth_has_client g then now_edge
               else Rev2.bluetooth_disconnected_millis g in
  Rev2.config_enable (Rev2.gate_step false now_edge now_test g)
  = negb (600000 <=? elapsed now_test since)
  /\ Rev2.bluetooth_disconnected_millis (Rev2.gate_step false now_edge now_test g)
     = since
  /\ Rev2.config_enable (Rev2.gate_step true now_edge now_test g) = true.
Proof.
  intros E. destruct g as [ce lce lc bdm]. simpl in E. subst ce.
  unfold Rev2.gate_step. simpl.
  destruct lc; simpl;
    [ destruct (600000 <=? elapsed now_test now_edge)
    | destruct (600000 <=? elapsed now_test bdm) ];
    repeat split.
Qed.

(** ** What a computation leaves alone *)

Section Frame.

Variable R : Device -> Device -> Prop.
Variable Q : event -> bool.
Variable C : Prop.
Hypothesis R_refl : forall d, R d d.
Hypothesis R_trans : forall a b c, R a b -> R b c -> R a c.

Lemma keeps_ret {A} (a : A) : keeps R Q C (ret a).
Proof. intros d. split; [ apply R_refl | reflexivity ]. Qed.

Lemma keeps_get {A} (proj : Device -> A) : keeps R Q C (get proj).
Proof. intros d. split; [ apply R_refl | reflexivity ]. Qed.

Lemma keeps_upd (f : Device -> Device) :
  (forall d, R d (f d)) -> keeps R Q C (upd f).
Proof. intros H d. split; [ apply H | reflexivity ]. Qed.

Lemma keeps_emit (e : event) : Q e = true -> keeps R Q C (emit e).
Proof. intros H d. split; [ apply R_refl | simpl; now rewrite H ]. Qed.

Lemma keeps_crash {A} (f : fault) : C -> keeps R Q C (@crash A f).
Proof. intros H d. split; [ exact H | reflexivity ]. Qed.

Lemma keeps_at_bind {A B} (m : M A) (k : A -> M B) d :
  keeps_at R Q C m d ->
  (forall a d1, R d d1 -> keeps_at R Q C (k a) d1) ->
  keeps_at R Q C (bind m k) d.
Proof.
  unfold keeps_at, bind. intros Hm Hk.
  destruct (m d) as [a d1 o1 | f o1]; [ | exact Hm ].
  destruct Hm as [R1 Q1]. specialize (Hk a d1 R1).
  destruct (k a d1) as [b d2 o2 | f o2]; rewrite forallb_app, Q1.
  - destruct Hk as [R2 Q2]. split; [ now apply R_trans with d1 | exact Q2 ].
  - exact Hk.
Qed.

Lemma keeps_bind {A B} (m : M A) (k : A -> M B) :
  keeps R Q C m -> (forall a, keeps R Q C (k a)) -> keeps R Q C (bind m k).
Proof.
  intros Hm Hk d. apply keeps_at_bind; [ apply Hm | ].
  intros a d1 _. apply Hk.
Qed.

Lemma keeps_when (c : bool) (m : M unit) :
  keeps R Q C m -> keeps R Q C (when c m).
Proof. intros H. destruct c; [ exact H | apply keeps_ret ]. Qed.

Lemma keeps_println_all ls :
  (forall s, Q (bt_println s) = true) -> keeps R Q C (println_all ls).
Proof.
  intros P. induction ls as [ | l ls IH ]; simpl.
  - apply keeps_ret.
  - apply keeps_bind; [ apply keeps_emit, P | intros _; exact IH ].
Qed.

End Frame.

Lemma keeps_weaken {A} (R R' : Device -> Device -> Prop) Q (C C' : Prop)
    (m : M A) :
  (forall a b, R a b -> R' a b) -> (C -> C') ->
  keeps R Q C m -> keeps R' Q C' m.
Proof.
  intros HR HC H d. specialize (H d). unfold keeps_at in *.
  destruct (m d) as [a d1 o1 | f o1]; destruct H as [H1 H2];
    split; auto.
Qed.

Lemma keeps_pointwise {A} R Q C (m : M A) d :
  keeps R Q C m -> keeps_at R Q C m d.
Proof. intros H. apply H. Qed.

(** Proving that a computation built from the primitives keeps a relation
    that the writes it makes respect: [write] settles the writes and
    [lemmas] the calls. *)
Ltac frame_step write lemmas :=
  first
    [ apply keeps_ret; assumption
    | apply keeps_get; assumption
    | apply keeps_crash; exact I
    | apply keeps_emit; [ assumption | reflexivity ]
    | apply keeps_upd; [ intros []; write ]
    | apply keeps_println_all; [ assumption | assumption | reflexivity ]
    | lemmas
    | apply keeps_when; [ assumption | ]
    | apply keeps_bind; [ assumption | | intros ? ]
    | match goal with
      | |- keeps _ _ _ (if ?c then _ else _) => destruct c
      | |- keeps _ _ _ (match ?x with _ => _ end) => destruct x
      end ].

Lemma bookkeeping_refl d : bookkeeping d d.
Proof. now repeat split. Qed.

Lemma bookkeeping_trans a b c :
  bookkeeping a b -> bookkeeping b c -> bookkeeping a c.
Proof.
  unfold bookkeeping. intros [A1 [A2 A3]] [B1 [B2 B3]].
  repeat split; congruence.
Qed.

Lemma steady_refl d : steady d d.
Proof. now repeat split. Qed.

Lemma steady_trans a b c : steady a b -> steady b c -> steady a c.
Proof.
  unfold steady. intros [A1 [A2 A3]] [B1 [B2 B3]].
  split; [ now apply bookkeeping_trans with b | split; congruence ].
Qed.

Lemma steady_bookkeeping a b : steady a b -> bookkeeping a b.
Proof. now intros [H _]. Qed.

Lemma any_change_refl d : any_change d d.
Proof. exact I. Qed.

Lemma any_change_trans a b c : any_change a b -> any_change b c -> any_change a c.
Proof. intros _ _. exact I. Qed.

Ltac bookkeeping_frame lemmas :=
  pose proof bookkeeping_refl as Hrefl;
  pose proof bookkeeping_trans as Htrans;
  repeat frame_step ltac:(now repeat split) lemmas.

Ltac steady_frame lemmas :=
  pose proof steady_refl as Hrefl;
  pose proof steady_trans as Htrans;
  repeat frame_step ltac:(now repeat split) lemmas.

Ltac any_frame lemmas :=
  pose proof any_change_refl as Hrefl;
  pose proof any_change_trans as Htrans;
  repeat frame_step ltac:(exact I) lemmas.

(** *** The console: the bookkeeping is kept, nothing is published *)

Lemma keeps_RestartMQTT C : keeps bookkeeping not_publish C RestartMQTT.
Proof. unfold RestartMQTT. bookkeeping_frame fail. Qed.

Lemma keeps_RestartWiFi C : keeps bookkeeping not_publish C RestartWiFi.
Proof.
  unfold RestartWiFi. bookkeeping_frame ltac:(apply keeps_RestartMQTT).
Qed.

Lemma keeps_SaveSettings C : keeps bookkeeping not_publish C SaveSettings.
Proof. unfold SaveSettings. bookkeeping_frame fail. Qed.

Lemma keeps_poke C f g : keeps bookkeeping not_publish C (poke f g).
Proof. unfold poke. bookkeeping_frame fail. Qed.

Lemma keeps_SettingsReadWriteHelper C f size v :
  keeps bookkeeping not_publish C (SettingsReadWriteHelper f size v).
Proof.
  unfold SettingsReadWriteHelper.
  bookkeeping_frame
    ltac:(first [ apply keeps_SaveSettings | apply keeps_poke ]).
Qed.

Lemma keeps_PollBluetoothCommand c :
  keeps bookkeeping not_publish True (PollBluetoothCommand c).
Proof.
  unfold PollBluetoothCommand, strcmp_at, PrintHelp.
  bookkeeping_frame
    ltac:(first [ apply keeps_SaveSettings | apply keeps_poke
                | apply keeps_SettingsReadWriteHelper
                | apply keeps_RestartMQTT | apply keeps_RestartWiFi ]).
Qed.

(** With nothing waiting on the console the call does nothing. *)
Lemma PollBluetoothCommand_idle c d :
  bt_line c = None -> PollBluetoothCommand c d = Done tt d [].
Proof. intros L. unfold PollBluetoothCommand. now rewrite L. Qed.

(** *** The console: the control topic stays terminated *)

Lemma topic_kept_refl d : topic_kept_or_terminated d d.
Proof. now left. Qed.

Lemma topic_kept_trans a b c :
  topic_kept_or_terminated a b -> topic_kept_or_terminated b c ->
  topic_kept_or_terminated a c.
Proof.
  unfold topic_kept_or_terminated. intros [ E1 | T1 ] [ E2 | T2 ].
  - left. congruence.
  - now right.
  - right. now rewrite E2.
  - now right.
Qed.

Ltac topic_frame lemmas :=
  pose proof topic_kept_refl as Hrefl;
  pose proof topic_kept_trans as Htrans;
  repeat frame_step
    ltac:(first [ now left
                | match goal with
                  | s : Settings |- _ => destruct s; now left
                  end ])
    lemmas.

Lemma topic_kept_poke f g :
  f <> f_mqtt_control_topic ->
  keeps topic_kept_or_terminated any_event True (poke f g).
Proof.
  intros N. unfold poke. apply keeps_upd.
  intros [s]. left. destruct s, f; try reflexivity. contradiction.
Qed.

Lemma topic_kept_SettingsReadWriteHelper f v :
  keeps topic_kept_or_terminated any_event True
    (SettingsReadWriteHelper f (sizeof f) v).
Proof.
  intros d. unfold keeps_at. destruct v as [ v | ].
  - rewrite SettingsReadWriteHelper_write. split; [ | reflexivity ].
    unfold topic_kept_or_terminated. rewrite settings_set_settings.
    destruct (settings d) as [h dn ws wp ms mp mi mu mw ct st].
    destruct f; try (left; reflexivity).
    right. apply (written_terminated 32). lia.
  - rewrite SettingsReadWriteHelper_read. split; [ now left | reflexivity ].
Qed.

(** No console command leaves the control topic without its terminating
    zero. *)
Lemma PollBluetoothCommand_keeps_topic_terminated c d d' out :
  (strlen (mqtt_control_topic (settings d)) < 32)%nat ->
  PollBluetoothCommand c d = Done tt d' out ->
  (strlen (mqtt_control_topic (settings d')) < 32)%nat.
Proof.
  intros T E.
  assert (K : keeps topic_kept_or_terminated any_event True
                (PollBluetoothCommand c)).
  { unfold PollBluetoothCommand, strcmp_at, PrintHelp, RestartWiFi,
      RestartMQTT, SaveSettings.
    topic_frame
      ltac:(first [ apply topic_kept_SettingsReadWriteHelper
                  | apply topic_kept_poke; discriminate ]). }
  specialize (K d). unfold keeps_at in K. rewrite E in K.
  destruct K as [[ K | K ] _]; [ now rewrite K | exact K ].
Qed.

(** *** The supervisors and the callback *)

Lemma keeps_MQTTCallback C topic payload :
  keeps bookkeeping not_publish C (MQTTCallback topic payload).
Proof. unfold MQTTCallback. bookkeeping_frame fail. Qed.

Lemma keeps_mqtt_loop_call C inbound :
  keeps bookkeeping not_publish C (mqtt_loop_call inbound).
Proof.
  unfold mqtt_loop_call.
  assert (D : keeps bookkeeping not_publish C (deliver inbound)).
  { induction inbound as [ | [topic payload] rest IH ]; simpl;
      bookkeeping_frame
        ltac:(first [ exact IH | apply keeps_MQTTCallback ]). }
  bookkeeping_frame ltac:(exact D).
Qed.

Lemma keeps_EnsureWiFi C status now :
  keeps steady not_publish C (EnsureWiFi status now).
Proof. unfold EnsureWiFi. steady_frame fail. Qed.

(** [EnsureMQTT] that sees the state it saw last publishes nothing. *)
Lemma keeps_EnsureMQTT_same_state C now success d :
  keeps_at bookkeeping not_publish C (EnsureMQTT (last_state d) now success) d.
Proof.
  unfold keeps_at, EnsureMQTT.
  rewrite bind_get, Z.eqb_refl. cbn [negb when]. rewrite bind_ret.
  refine ((_ : keeps bookkeeping not_publish C _) d).
  bookkeeping_frame fail.
Qed.

(** [EnsureMQTT] that sees the link connected for the first time. *)
Lemma EnsureMQTT_connected now success d :
  last_state d <> MQTT_CONNECTED ->
  EnsureMQTT MQTT_CONNECTED now success d =
  Done true (set_last_state MQTT_CONNECTED d)
    ([Serial_print (lit "MQTT state changed to ");
      Serial_print (lit "CONNECTED"); Serial_println (lit ".")]
     ++ (if (0 <? strlen (mqtt_status_topic (settings d)))%nat
         then [status_message d] else [])).
Proof.
  intros N. apply not_eq_sym, Z.eqb_neq in N.
  destruct d as [s pe be bem wlt mlt ls lst bp bpm lb bd lc le lpe lbe].
  cbn [last_state settings] in *. unfold status_message.
  assert (X : (MQTT_CONNECTED =? MQTT_CONNECTED) = true) by reflexivity.
  destruct (0 <? strlen (mqtt_status_topic s))%nat eqn:T;
    run_supervisor; decide_tests; reflexivity.
Qed.

Lemma EnsureWiFi_connected now d :
  exists out,
    EnsureWiFi WL_CONNECTED now d
    = Done true (set_last_status WL_CONNECTED d) out
    /\ publishes out = [].
Proof.
  destruct d as [s pe be bem wlt mlt ls lst bp bpm lb bd lc le lpe lbe].
  assert (X : wl_status_eqb WL_CONNECTED WL_CONNECTED = true) by reflexivity.
  destruct (wl_status_eqb WL_CONNECTED ls) eqn:L;
    try (pose proof L as L'; apply wl_status_eqb_eq in L'; subst ls);
    run_supervisor; decide_tests; eexists; split; reflexivity.
Qed.

(** *** Counting the publishes of a run *)

Lemma not_publish_publishes out :
  forallb not_publish out = true -> publishes out = [].
Proof.
  unfold publishes, not_publish.
  induction out as [ | e out IH ]; simpl; [ reflexivity | ].
  intros H. apply andb_true_iff in H as [H1 H2].
  apply negb_true_iff in H1. rewrite H1. now apply IH.
Qed.

Lemma publishes_app a b : publishes (a ++ b) = publishes a ++ publishes b.
Proof. apply filter_app. Qed.

Lemma bind_assoc {A B C} (m : M A) (k1 : A -> M B) (k2 : B -> M C) d :
  bind (bind m k1) k2 d = bind m (fun a => bind (k1 a) k2) d.
Proof.
  unfold bind. destruct (m d) as [a d1 o1 | f o1]; [ | reflexivity ].
  destruct (k1 a d1) as [b d2 o2 | f o2]; [ | reflexivity ].
  destruct (k2 b d2) as [c d3 o3 | f o3]; now rewrite app_assoc.
Qed.

(** Sequencing under [publishes_if_power]: a first part that publishes
    nothing, then a second part. *)
Lemma publishes_bind {A B} R C p expected (m : M A) (k : A -> M B) d :
  keeps_at R not_publish C m d ->
  (forall a d1, R d d1 -> publishes_if_power p expected (k a) d1) ->
  expected = [] \/ ~ C ->
  publishes_if_power p expected (bind m k) d.
Proof.
  unfold keeps_at, publishes_if_power, bind. intros Hm Hk T F.
  destruct (m d) as [a d1 o1 | f o1]; simpl.
  - destruct Hm as [R1 Q1]. specialize (Hk a d1 R1).
    destruct (k a d1) as [b d2 o2 | f o2]; simpl in *;
      rewrite publishes_app, (not_publish_publishes o1 Q1); simpl;
      apply Hk; [ exact F | discriminate ].
  - destruct Hm as [HC Q1]. destruct T as [ -> | T ]; [ | contradiction ].
    now apply not_publish_publishes.
Qed.

(** A first part whose run is known, then a second part. *)
Lemma publishes_done {A B} p e1 e2 (m : M A) (k : A -> M B) d a d1 o1 :
  m d = Done a d1 o1 -> publishes o1 = e1 ->
  publishes_if_power p e2 (k a) d1 ->
  publishes_if_power p (e1 ++ e2) (bind m k) d.
Proof.
  unfold publishes_if_power. intros E P Hk F.
  rewrite (bind_done _ _ _ _ _ _ E) in *.
  destruct (k a d1) as [b d2 o2 | f o2]; simpl in *;
    rewrite publishes_app, P; f_equal; apply Hk;
    [ exact F | discriminate ].
Qed.

Lemma publishes_assoc {A B C} p expected
    (m : M A) (k1 : A -> M B) (k2 : B -> M C) d :
  publishes_if_power p expected (bind m (fun a => bind (k1 a) k2)) d ->
  publishes_if_power p expected (bind (bind m k1) k2) d.
Proof. unfold publishes_if_power. now rewrite bind_assoc. Qed.

Lemma publishes_get {A B} p expected (proj : Device -> A) (k : A -> M B) d :
  publishes_if_power p expected (k (proj d)) d ->
  publishes_if_power p expected (bind (get proj) k) d.
Proof. unfold publishes_if_power. now rewrite bind_get. Qed.

Lemma final_bind_emit {B} (e : event) (k : unit -> M B) d :
  final (bind (emit e) k d) = final (k tt d).
Proof. rewrite bind_emit. now destruct (k tt d). Qed.

Lemma PublishStatus_final d : final (PublishStatus d) = Some d.
Proof.
  unfold PublishStatus. rewrite bind_get.
  destruct (0 <? strlen (mqtt_status_topic (settings d)))%nat; cbn [when];
    [ rewrite bind_get | ]; reflexivity.
Qed.

(** The last statement of [loop]. *)
Lemma silent_reconcile p d :
  last_power_enable d = p ->
  publishes_if_power p []
    (pe <- get power_enable ;;
     lp <- get last_power_enable ;;
     when (negb (Bool.eqb pe lp))
       (upd (set_last_power_enable pe) ;;
        emit (digitalWrite POWER_PIN pe) ;;
        emit (Serial_println (if pe then lit "Power on." else lit "Power off.")) ;;
        PublishStatus)) d.
Proof.
  intros L F. rewrite !bind_get in *. rewrite L in *.
  destruct (Bool.eqb (power_enable d) p) eqn:E; cbn [negb when] in *.
  - reflexivity.
  - exfalso. apply eqb_false_iff in E. apply E.
    specialize (F (set_last_power_enable (power_enable d) d)).
    rewrite bind_upd, !final_bind_emit, PublishStatus_final in F.
    specialize (F eq_refl). now destruct d.
Qed.

(** The statements of [loop] after the link supervisors: the blink and the
    reconciliation of the power state. *)
Ltac loop_tail :=
  apply publishes_get; apply publishes_get;
  apply (publishes_bind bookkeeping True);
  [ apply keeps_pointwise; bookkeeping_frame fail
  | | left; reflexivity ];
  intros _ ? [? [? _]];
  apply silent_reconcile; congruence.

(** An iteration of [loop] that sees the link state seen last publishes
    nothing, provided the power state at its end is the one reconciled
    last. *)
Lemma loop_silent i d :
  loop_entered d = true ->
  mqtt_state i = last_state d ->
  publishes_if_power (last_power_enable d) [] (loop i) d.
Proof.
  intros He Hs. unfold loop, PrintHelp.
  generalize (eq_refl (last_power_enable d)).
  generalize (last_power_enable d) at 2 3 as p. intros p Hp.
  apply publishes_get. rewrite He. cbn [negb when].
  apply (publishes_bind bookkeeping True);
    [ apply keeps_pointwise; bookkeeping_frame fail | | now left ].
  intros _ d1 [S1 [P1 _]].
  apply publishes_get. apply publishes_get.
  apply (publishes_bind bookkeeping True);
    [ apply keeps_pointwise; bookkeeping_frame fail | | now left ].
  intros _ d2 [S2 [P2 _]].
  apply publishes_get.
  apply (publishes_bind bookkeeping True);
    [ apply keeps_pointwise;
      bookkeeping_frame ltac:(apply keeps_PollBluetoothCommand)
    | | now left ].
  intros _ d3 [S3 [P3 _]].
  apply (publishes_bind bookkeeping True);
    [ apply keeps_pointwise;
      apply (keeps_weaken steady bookkeeping _ True True);
      [ apply steady_bookkeeping | tauto | apply keeps_EnsureWiFi ]
    | | now left ].
  intros wifi d4 [S4 [P4 _]].
  assert (S : mqtt_state i = last_state d4) by congruence.
  apply (publishes_bind bookkeeping True); [ | | now left ].
  { destruct wifi.
    - apply keeps_at_bind; [ apply bookkeeping_trans | | ].
      + rewrite S. apply keeps_EnsureMQTT_same_state.
      + intros bus d5 _. apply keeps_pointwise.
        bookkeeping_frame ltac:(apply keeps_mqtt_loop_call).
    - apply keeps_pointwise. bookkeeping_frame fail. }
  intros _ d5 [S5 [P5 _]].
  loop_tail.
Qed.

Lemma keeps_PollBluetoothCommand_idle R Q C c :
  (forall d, R d d) -> bt_line c = None ->
  keeps R Q C (PollBluetoothCommand c).
Proof.
  intros Hr L d. unfold keeps_at.
  rewrite (PollBluetoothCommand_idle c d L). split; [ apply Hr | reflexivity ].
Qed.

(** With nothing on the console an iteration of [loop] runs to its end. *)
Lemma loop_ends i d :
  bt_line (console i) = None -> exists d', final (loop i d) = Some d'.
Proof.
  intros L.
  assert (K : keeps any_change any_event False (loop i)).
  { assert (D : keeps any_change any_event False (deliver (inbound i))).
    { induction (inbound i) as [ | [topic payload] rest IH ]; simpl;
        unfold MQTTCallback; any_frame ltac:(exact IH). }
    unfold loop, PrintHelp, EnsureWiFi, EnsureMQTT, PublishStatus,
      mqtt_loop_call.
    any_frame
      ltac:(first [ exact D
                  | apply keeps_PollBluetoothCommand_idle;
                    [ exact any_change_refl | exact L ] ]). }
  specialize (K d). unfold keeps_at in K.
  destruct (loop i d) as [a d' o | f o]; [ now exists d' | now destruct K ].
Qed.

(** An iteration of [loop] with nothing on the console, WiFi up, that sees
    the bus connected when it was not the state seen last: the status is
    published once, with the power state and on the status topic the
    iteration began with, provided the power state at its end is the one
    reconciled last. *)
Lemma loop_publishes_once i d :
  loop_entered d = true ->
  bt_line (console i) = None ->
  WiFi_status i = WL_CONNECTED ->
  mqtt_state i = MQTT_CONNECTED ->
  last_state d <> MQTT_CONNECTED ->
  (0 < strlen (mqtt_status_topic (settings d)))%nat ->
  publishes_if_power (last_power_enable d) [status_message d] (loop i) d.
Proof.
  intros He Hc Hw Hm Hl Ht. unfold loop, PrintHelp.
  generalize (eq_refl (last_power_enable d)).
  generalize (last_power_enable d) at 2 3 as p. intros p Hp.
  apply publishes_get. rewrite He. cbn [negb when].
  apply (publishes_bind steady False);
    [ apply keeps_pointwise; steady_frame fail | | right; tauto ].
  intros _ d1 [[S1 [P1 _]] [T1 W1]].
  apply publishes_get. apply publishes_get.
  apply (publishes_bind steady False);
    [ apply keeps_pointwise; steady_frame fail | | right; tauto ].
  intros _ d2 [[S2 [P2 _]] [T2 W2]].
  apply publishes_get.
  apply (publishes_bind steady False);
    [ apply keeps_pointwise;
      steady_frame
        ltac:(apply keeps_PollBluetoothCommand_idle;
              [ exact steady_refl | exact Hc ])
    | | right; tauto ].
  intros _ d3 [[S3 [P3 _]] [T3 W3]].
  rewrite Hw, Hm.
  destruct (EnsureWiFi_connected (millis_wifi i) d3) as [ow [Ew Pw]].
  apply (publishes_done p [] [status_message d] _ _ _ _ _ _ Ew Pw).
  cbv beta iota. apply publishes_assoc.
  set (d4 := set_last_status WL_CONNECTED d3).
  assert (F4 : last_state d4 = last_state d /\ settings d4 = settings d
               /\ power_enable d4 = power_enable d
               /\ last_power_enable d4 = p).
  { subst d4. destruct d3. cbn in *. repeat split; congruence. }
  destruct F4 as [S4 [T4 [W4 P4]]].
  assert (M : status_message d4 = status_message d)
    by (unfold status_message; now rewrite T4, W4).
  apply (publishes_done p [status_message d] [] _ _ _ _ _ _
           (EnsureMQTT_connected (millis_mqtt i) (mqtt_connect_result i) d4
              ltac:(now rewrite S4))).
  { rewrite publishes_app, T4.
    apply Nat.ltb_lt in Ht. rewrite Ht, M. reflexivity. }
  cbv beta iota.
  apply (publishes_bind bookkeeping False);
    [ apply keeps_pointwise;
      bookkeeping_frame ltac:(apply keeps_mqtt_loop_call)
    | | now left ].
  intros _ d5 [S5 [P5 _]].
  assert (P5' : last_power_enable d5 = p)
    by (rewrite P5; subst d4; destruct d3; cbn in *; congruence).
  apply publishes_get; apply publishes_get;
    apply (publishes_bind bookkeeping True);
    [ apply keeps_pointwise; bookkeeping_frame fail | | now left ].
  intros _ d6 [S6 [P6 _]].
  apply silent_reconcile. congruence.
Qed.

(** * Further properties *)

(** ** The later revision: stripping a line *)

Lemma skip_spaces_drop_blanks l : skip_spaces l = drop_blanks l.
Proof.
  induction l as [ | c l IH ]; simpl; [ reflexivity | ].
  zeq c NUL; simpl.
  - subst c. reflexivity.
  - now rewrite IH.
Qed.

Lemma cstr_split p : exists tail, p = cstr p ++ tail /\ deref tail = NUL.
Proof.
  induction p as [ | c p [tail [E D]] ]; simpl.
  - now exists [].
  - zeq c NUL.
    + exists (c :: p). now split.
    + exists tail. split; [ simpl; now rewrite <- E | exact D ].
Qed.

Lemma cstr_text_then_zero l z :
  forallb (fun c => negb (c =? NUL)) l = true -> deref z = NUL ->
  cstr (l ++ z) = l.
Proof.
  intros N D. induction l as [ | c l IH ]; simpl in *.
  - now apply cstr_nil_deref.
  - apply andb_true_iff in N as [N1 N2]. apply negb_true_iff in N1.
    rewrite N1. now rewrite IH.
Qed.

Lemma drop_blanks_app_zero s tail :
  forallb (fun c => negb (c =? NUL)) s = true -> deref tail = NUL ->
  drop_blanks (s ++ tail) = drop_blanks s ++ tail.
Proof.
  intros N D. induction s as [ | c s IH ]; simpl in *.
  - destruct tail as [ | t tail ]; [ reflexivity | ].
    simpl in D. subst t. reflexivity.
  - apply andb_true_iff in N as [_ N2].
    destruct (isspace c); [ now apply IH | reflexivity ].
Qed.

Lemma drop_blanks_split s :
  exists blanks, s = blanks ++ drop_blanks s /\ forallb isspace blanks = true.
Proof.
  induction s as [ | c s [blanks [E B]] ]; simpl.
  - now exists [].
  - destruct (isspace c) eqn:S.
    + exists (c :: blanks). simpl. rewrite S, B. split; [ now rewrite <- E | reflexivity ].
    + now exists [].
Qed.

Lemma drop_blanks_head s c rest :
  drop_blanks s = c :: rest -> isspace c = false.
Proof.
  induction s as [ | x s IH ]; simpl; [ discriminate | ].
  destruct (isspace x) eqn:S; [ exact IH | ].
  intros E. inversion E. now subst.
Qed.

Lemma drop_blanks_fixed s :
  (forall c rest, s = c :: rest -> isspace c = false) -> drop_blanks s = s.
Proof.
  destruct s as [ | c s ]; simpl; [ reflexivity | ].
  intros H. now rewrite (H c s eq_refl).
Qed.

Lemma nonzero_app a b :
  forallb (fun c => negb (c =? NUL)) (a ++ b) = true ->
  forallb (fun c => negb (c =? NUL)) a = true
  /\ forallb (fun c => negb (c =? NUL)) b = true.
Proof. rewrite forallb_app. apply andb_true_iff. Qed.

Lemma write_at_length i c buf : length (write_at i c buf) = length buf.
Proof.
  revert i. induction buf as [ | b buf IH ]; intros [ | i ]; simpl;
    try reflexivity. now rewrite IH.
Qed.

Lemma write_at_app pre c x l :
  write_at (length pre) c (pre ++ x :: l) = pre ++ c :: l.
Proof. induction pre as [ | p pre IH ]; simpl; [ reflexivity | now rewrite IH ]. Qed.

Lemma write_at_end pre c : write_at (length pre) c pre = pre.
Proof. induction pre as [ | p pre IH ]; simpl; [ reflexivity | now rewrite IH ]. Qed.

Lemma nth_after pre (l : list Z) : nth (length pre) (pre ++ l) NUL = deref l.
Proof.
  induction pre as [ | p pre IH ]; simpl; [ now destruct l | exact IH ].
Qed.

Lemma copy_down_length fuel buf out in_ :
  length (fst (copy_down fuel buf out in_)) = length buf.
Proof.
  revert buf out in_. induction fuel as [ | fuel IH ]; intros; simpl;
    [ reflexivity | ].
  destruct (nth in_ buf NUL =? NUL); [ reflexivity | ].
  now rewrite IH, write_at_length.
Qed.

Lemma strip_back_length n buf : length (strip_back n buf) = length buf.
Proof.
  revert buf. induction n as [ | n IH ]; intros; simpl; [ reflexivity | ].
  destruct (isspace (nth n buf NUL)); [ | reflexivity ].
  now rewrite IH, write_at_length.
Qed.

(** The copy: the text [rest] that starts at [in_] ends up at [out]; the
    bytes between the two indices change but keep their number. *)
Lemma copy_down_text rest : forall pre mid tail fuel,
  forallb (fun c => negb (c =? NUL)) rest = true ->
  deref tail = NUL ->
  (length rest <= fuel)%nat ->
  exists mid',
    length mid' = length mid
    /\ copy_down fuel (pre ++ mid ++ rest ++ tail)
         (length pre) (length pre + length mid)
       = (pre ++ rest ++ mid' ++ tail, (length pre + length rest)%nat).
Proof.
  induction rest as [ | c rest IH ]; intros pre mid tail fuel N D F.
  - exists mid. split; [ reflexivity | ]. simpl.
    rewrite Nat.add_0_r.
    destruct fuel as [ | fuel ]; simpl; [ reflexivity | ].
    replace (pre ++ mid ++ tail) with ((pre ++ mid) ++ tail)
      by now rewrite app_assoc.
    rewrite <- length_app, nth_after, D. reflexivity.
  - simpl in N. apply andb_true_iff in N as [N1 N2].
    apply negb_true_iff in N1.
    destruct fuel as [ | fuel ]; [ simpl in F; lia | ]. simpl in F.
    cbn [copy_down].
    assert (Hn : nth (length pre + length mid)
                   (pre ++ mid ++ (c :: rest) ++ tail) NUL = c).
    { replace (pre ++ mid ++ (c :: rest) ++ tail)
        with ((pre ++ mid) ++ c :: rest ++ tail)
        by (now rewrite <- app_assoc).
      now rewrite <- length_app, nth_after. }
    rewrite Hn, N1.
    destruct mid as [ | m mid ].
    + simpl app at 1. simpl length. rewrite Nat.add_0_r.
      replace (pre ++ (c :: rest) ++ tail) with (pre ++ c :: rest ++ tail)
        by reflexivity.
      rewrite write_at_app.
      destruct (IH (pre ++ [c]) [] tail fuel N2 D ltac:(lia))
        as [mid' [L E]].
      exists mid'. split; [ exact L | ].
      rewrite length_app in E. simpl in E.
      rewrite Nat.add_0_r in E.
      replace (S (length pre)) with (length pre + 1)%nat by lia.
      replace (pre ++ c :: rest ++ tail) with ((pre ++ [c]) ++ rest ++ tail)
        by (now rewrite <- app_assoc).
      rewrite E. f_equal.
      * now rewrite <- app_assoc.
      * lia.
    + replace (pre ++ (m :: mid) ++ (c :: rest) ++ tail)
        with (pre ++ m :: (mid ++ (c :: rest) ++ tail)) by reflexivity.
      rewrite write_at_app.
      destruct (IH (pre ++ [c]) (mid ++ [c]) tail fuel N2 D ltac:(lia))
        as [mid' [L E]].
      exists mid'. split.
      * rewrite L, length_app. simpl. lia.
      * rewrite !length_app in E. simpl in E.
        replace (S (length pre)) with (length pre + 1)%nat by lia.
        replace (S (length pre + length (m :: mid)))
          with (length pre + 1 + (length mid + 1))%nat by (simpl; lia).
        replace (pre ++ c :: mid ++ (c :: rest) ++ tail)
          with ((pre ++ [c]) ++ (mid ++ [c]) ++ rest ++ tail)
          by (rewrite <- !app_assoc; reflexivity).
        rewrite E. f_equal.
        -- now rewrite <- app_assoc.
        -- simpl. lia.
Qed.

(** The blanks at the end are overwritten with zeros from the back. *)
Lemma strip_back_text body : forall z,
  deref z = NUL ->
  exists z',
    deref z' = NUL
    /\ strip_back (length body) (body ++ z)
       = rev (drop_blanks (rev body)) ++ z'.
Proof.
  induction body as [ | c body IH ] using rev_ind; intros z D.
  - exists z. now split.
  - rewrite length_app. simpl length. rewrite Nat.add_1_r.
    cbn [strip_back]. rewrite <- app_assoc. simpl app.
    rewrite nth_after. simpl deref.
    rewrite rev_app_distr. simpl rev. simpl app. cbn [drop_blanks].
    destruct (isspace c).
    + rewrite write_at_app. apply (IH (NUL :: z)). reflexivity.
    + exists z. split; [ exact D | ].
      simpl. rewrite rev_involutive. now rewrite <- app_assoc.
Qed.

Lemma write_zero_after body z :
  exists z', deref z' = NUL
             /\ write_at (length body) NUL (body ++ z) = body ++ z'.
Proof.
  destruct z as [ | x z ].
  - exists []. split; [ reflexivity | ].
    now rewrite app_nil_r, write_at_end.
  - exists (NUL :: z). split; [ reflexivity | apply write_at_app ].
Qed.

Lemma forallb_drop_blanks (P : Z -> bool) l :
  forallb P l = true -> forallb P (drop_blanks l) = true.
Proof.
  induction l as [ | c l IH ]; simpl; [ reflexivity | ].
  intros H. destruct (isspace c); [ | exact H ].
  apply andb_true_iff in H as [_ H]. now apply IH.
Qed.

Lemma forallb_rev (P : Z -> bool) l :
  forallb P l = true -> forallb P (rev l) = true.
Proof.
  rewrite !forallb_forall. intros H x I. apply H. now apply in_rev.
Qed.

Lemma drop_blanks_idem l : drop_blanks (drop_blanks l) = drop_blanks l.
Proof.
  induction l as [ | c l IH ]; simpl; [ reflexivity | ].
  destruct (isspace c) eqn:S; [ exact IH | ]. simpl. now rewrite S.
Qed.

Lemma trim_head s c rest : trim s = c :: rest -> isspace c = false.
Proof.
  unfold trim. intros E.
  destruct (drop_blanks_split (rev (drop_blanks s))) as [blanks [R _]].
  apply (f_equal (@rev Z)) in R. rewrite rev_involutive, rev_app_distr, E in R.
  simpl in R. now apply (drop_blanks_head s c _ R).
Qed.

Lemma trim_last s front c : trim s = front ++ [c] -> isspace c = false.
Proof.
  unfold trim. intros E. apply (f_equal (@rev Z)) in E.
  rewrite rev_involutive, rev_app_distr in E. simpl in E.
  now apply (drop_blanks_head _ _ _ E).
Qed.

Lemma trim_idem s : trim (trim s) = trim s.
Proof.
  assert (H : drop_blanks (trim s) = trim s)
    by (apply drop_blanks_fixed; intros c rest; apply trim_head).
  unfold trim at 1. rewrite H. unfold trim.
  now rewrite rev_involutive, drop_blanks_idem.
Qed.

Lemma StrStrip_text_split s tail :
  forallb (fun c => negb (c =? NUL)) s = true -> deref tail = NUL ->
  cstr (StrStrip (s ++ tail)) = trim s.
Proof.
  intros N D.
  destruct (drop_blanks_split s) as [blanks [Es B]].
  assert (Nb : forallb (fun c => negb (c =? NUL)) (drop_blanks s) = true)
    by now apply forallb_drop_blanks.
  unfold StrStrip, trim.
  rewrite skip_spaces_drop_blanks, (drop_blanks_app_zero _ _ N D).
  set (body := drop_blanks s) in *.
  assert (L : (length (s ++ tail) - length (body ++ tail))%nat = length blanks).
  { rewrite Es. rewrite !length_app. lia. }
  rewrite L.
  destruct (copy_down_text body [] blanks tail (length (s ++ tail)) Nb D)
    as [mid' [Lm C]].
  { rewrite Es. rewrite !length_app. lia. }
  simpl in C.
  assert (Eb : s ++ tail = blanks ++ body ++ tail)
    by (rewrite Es at 1; now rewrite <- app_assoc).
  rewrite Eb at 2. rewrite C.
  destruct (write_zero_after body (mid' ++ tail)) as [z [Dz W]].
  rewrite W.
  destruct (strip_back_text body z Dz) as [z' [Dz' S]].
  rewrite S. apply cstr_text_then_zero; [ | exact Dz' ].
  now apply forallb_rev, forallb_drop_blanks, forallb_rev.
Qed.

Lemma StrStrip_text str : cstr (StrStrip str) = trim (cstr str).
Proof.
  destruct (cstr_split str) as [tail [E D]].
  rewrite E at 1. apply StrStrip_text_split; [ apply cstr_nonzero | exact D ].
Qed.

Lemma StrStrip_length str : length (StrStrip str) = length str.
Proof.
  unfold StrStrip.
  destruct (copy_down (length str) str 0
              (length str - length (skip_spaces str))) as [buf out] eqn:C.
  rewrite strip_back_length, write_at_length.
  change buf with (fst (buf, out)). rewrite <- C. apply copy_down_length.
Qed.

(** X1.  [StrStrip] leaves in the buffer, as its text, the text it found
    without the blanks at its two ends: the text left neither begins nor
    ends with a blank, stripping again changes nothing, and the buffer
    keeps its size. *)
Theorem StrStrip_trims str :
  cstr (StrStrip str) = trim (cstr str)
  /\ length (StrStrip str) = length str
  /\ (forall c rest, cstr (StrStrip str) = c :: rest -> isspace c = false)
  /\ (forall front c, cstr (StrStrip str) = front ++ [c] -> isspace c = false)
  /\ cstr (StrStrip (StrStrip str)) = cstr (StrStrip str).
Proof.
  split; [ apply StrStrip_text | ].
  split; [ apply StrStrip_length | ].
  rewrite !StrStrip_text.
  split; [ apply trim_head | ].
  split; [ apply trim_last | apply trim_idem ].
Qed.

Lemma StrStrip_trims_padded :
  cstr (StrStrip (lit "  my net  " ++ [NUL; 7])) = lit "my net"
  /\ isspace 109 = false /\ isspace 116 = false.
Proof.
  destruct (StrStrip_trims (lit "  my net  " ++ [NUL; 7])) as [_ [_ [H [T _]]]].
  split; [ reflexivity | ]. split.
  - apply (H 109 (lit "y net")). reflexivity.
  - apply (T (lit "my ne") 116). reflexivity.
Defined.

(** ** The later revision: reading a line from the console *)

Lemma drop_blanks_length l : (length (drop_blanks l) <= length l)%nat.
Proof.
  induction l as [ | c l IH ]; simpl; [ lia | ].
  destruct (isspace c); simpl; lia.
Qed.

Lemma trim_length s : (length (trim s) <= length s)%nat.
Proof.
  unfold trim. rewrite length_rev.
  pose proof (drop_blanks_length (rev (drop_blanks s))) as A.
  rewrite length_rev in A. pose proof (drop_blanks_length s). lia.
Qed.

Lemma cstr_length l : (length (cstr l) <= length l)%nat.
Proof.
  induction l as [ | c l IH ]; simpl; [ lia | ].
  zeq c NUL; simpl; lia.
Qed.

Lemma forallb_firstn (P : Z -> bool) n l :
  forallb P l = true -> forallb P (firstn n l) = true.
Proof.
  revert l. induction n as [ | n IH ]; intros [ | c l ]; simpl;
    try reflexivity.
  intros H. apply andb_true_iff in H as [H1 H2]. rewrite H1. now apply IH.
Qed.

Lemma forallb_cstr (P : Z -> bool) l :
  forallb P l = true -> forallb P (cstr l) = true.
Proof.
  induction l as [ | c l IH ]; simpl; [ reflexivity | ].
  intros H. apply andb_true_iff in H as [H1 H2].
  zeq c NUL; simpl; [ reflexivity | ]. rewrite H1. now apply IH.
Qed.

(** The loop stores the characters it takes from index [i] on, over the
    bytes [room] that are left before the last byte of the line. *)
Lemma read_line_stores linesize reads : forall pre room rest,
  (length pre + length room = linesize - 1)%nat ->
  read_line reads (pre ++ room ++ rest) (length pre) linesize
  = (pre ++ firstn (length room) (first_line reads)
       ++ skipn (length (firstn (length room) (first_line reads))) room
       ++ rest,
     (length pre + length (firstn (length room) (first_line reads)))%nat).
Proof.
  induction reads as [ | c reads IH ]; intros pre room rest L.
  - simpl. rewrite firstn_nil. simpl. now rewrite Nat.add_0_r.
  - simpl. destruct (c <? 0); [ now apply IH | ].
    destruct (c =? 10).
    + rewrite firstn_nil. simpl. now rewrite Nat.add_0_r.
    + destruct room as [ | z room ].
      * simpl in L. rewrite Nat.add_0_r in L.
        assert (F : (length pre <? linesize - 1)%nat = false)
          by (apply Nat.ltb_ge; lia).
        rewrite F. rewrite (IH pre [] rest) by (simpl; lia). reflexivity.
      * simpl in L.
        assert (F : (length pre <? linesize - 1)%nat = true)
          by (apply Nat.ltb_lt; lia).
        rewrite F. simpl app. rewrite write_at_app.
        specialize (IH (pre ++ [c]) room rest).
        rewrite length_app in IH. simpl length in IH.
        replace (S (length pre)) with (length pre + 1)%nat by lia.
        replace (pre ++ c :: room ++ rest) with ((pre ++ [c]) ++ room ++ rest)
          by (now rewrite <- app_assoc).
        rewrite IH by lia. simpl. rewrite <- app_assoc. simpl.
        f_equal. lia.
Qed.

Lemma repeat_snoc (x : Z) n : repeat x (S n) = repeat x n ++ [x].
Proof. induction n as [ | n IH ]; simpl; [ reflexivity | now rewrite <- IH ]. Qed.

(** The line as the loop leaves it, for a buffer of [linesize] bytes. *)
Lemma read_line_after_memset reads line linesize :
  length line = linesize -> (1 <= linesize)%nat ->
  exists zeros,
    read_line reads (memset line 0 linesize) 0 linesize
    = (firstn (linesize - 1) (first_line reads) ++ repeat NUL (S zeros),
       length (firstn (linesize - 1) (first_line reads)))
    /\ (length (firstn (linesize - 1) (first_line reads)) + S zeros)%nat
       = linesize.
Proof.
  intros L P. unfold memset.
  rewrite skipn_all2 by lia. rewrite app_nil_r.
  destruct linesize as [ | n ]; [ lia | ].
  rewrite repeat_snoc. replace (S n - 1)%nat with n by lia.
  pose proof (read_line_stores (S n) reads [] (repeat 0 n) [0]) as R.
  simpl app in R. simpl length in R. rewrite repeat_length in R.
  rewrite R by lia. clear R.
  set (taken := firstn n (first_line reads)).
  assert (T : (length taken <= n)%nat)
    by (subst taken; rewrite length_firstn; lia).
  exists (n - length taken)%nat. split; [ | lia ].
  f_equal. f_equal. rewrite skipn_repeat_zeros.
  change 0 with NUL. rewrite <- repeat_snoc. reflexivity.
Qed.

(** X2.  [BluetoothReadLine] on a buffer of [linesize] bytes, two at
    least.  The characters taken are those read before the first line
    feed, the failed reads apart, and of these at most [linesize - 1]; the
    line is their text, stripped when [strip] is set, it fills the buffer
    and it is terminated within it.  The value returned tells whether any
    character was taken, not whether the line holds any: a line of blanks
    gives true and an empty line. *)
Theorem BluetoothReadLine_line reads line linesize strip :
  length line = linesize -> (2 <= linesize)%nat ->
  let taken := firstn (linesize - 1) (first_line reads) in
  let out := fst (BluetoothReadLine reads line linesize strip) in
  let ok := snd (BluetoothReadLine reads line linesize strip) in
  cstr out = (if strip then trim (cstr taken) else cstr taken)
  /\ length out = linesize
  /\ (strlen out < linesize)%nat
  /\ ok = negb (same (first_line reads) [])
  /\ (strip = true -> first_line reads <> [] ->
      forallb isspace (first_line reads) = true ->
      ok = true /\ cstr out = []).
Proof.
  intros L P taken out ok.
  destruct (read_line_after_memset reads line linesize L ltac:(lia))
    as [zeros [R Z]].
  fold taken in R, Z.
  assert (T : cstr (taken ++ repeat NUL (S zeros)) = cstr taken)
    by apply cstr_app_zeros.
  assert (O : cstr out = (if strip then trim (cstr taken) else cstr taken)).
  { subst out. unfold BluetoothReadLine. rewrite R. cbn [fst].
    destruct strip; [ now rewrite StrStrip_text, T | exact T ]. }
  assert (K : ok = negb (same (first_line reads) [])).
  { subst ok. unfold BluetoothReadLine. rewrite R. cbn [snd].
    subst taken. destruct (first_line reads) as [ | c r ] eqn:F.
    - now rewrite firstn_nil.
    - destruct linesize as [ | [ | n ] ]; try lia. reflexivity. }
  split; [ exact O | ].
  split.
  { subst out. unfold BluetoothReadLine. rewrite R. cbn [fst].
    destruct strip; [ rewrite StrStrip_length | ];
      rewrite length_app, repeat_length; exact Z. }
  split.
  { unfold strlen. rewrite O.
    pose proof (cstr_length taken). pose proof (trim_length (cstr taken)).
    destruct strip; lia. }
  split; [ exact K | ].
  intros S N B. split.
  - rewrite K. destruct (first_line reads); [ contradiction | reflexivity ].
  - rewrite O, S.
    assert (Bt : forallb isspace (cstr taken) = true)
      by (subst taken; now apply forallb_cstr, forallb_firstn).
    unfold trim.
    assert (D : drop_blanks (cstr taken) = []).
    { clear - Bt. induction (cstr taken) as [ | c t IH ]; simpl in *;
        [ reflexivity | ].
      apply andb_true_iff in Bt as [B1 B2]. rewrite B1. now apply IH. }
    now rewrite D.
Qed.

Lemma BluetoothReadLine_line_of_blanks :
  snd (BluetoothReadLine (lit "   " ++ [10; 120]) (repeat 7 32) 32 true) = true
  /\ cstr (fst (BluetoothReadLine (lit "   " ++ [10; 120]) (repeat 7 32) 32 true))
     = [].
Proof.
  destruct (BluetoothReadLine_line (lit "   " ++ [10; 120]) (repeat 7 32) 32
              true eq_refl ltac:(lia))
    as [_ [_ [_ [_ E]]]].
  apply E; [ reflexivity | discriminate | reflexivity ].
Defined.

(** ** The later revision: text for the web pages *)

Ltac html_cases c :=
  unfold htmlEncode_char;
  zeq c 38; [ | zeq c 34; [ | zeq c 39; [ | zeq c 60; [ | zeq c 62 ] ] ] ].

Lemma htmlEncode_char_safe c :
  forallb (fun x => negb (markup x)) (htmlEncode_char c) = true.
Proof.
  html_cases c; subst; try reflexivity.
  simpl. unfold markup.
  repeat match goal with
         | H : c <> ?k |- _ => apply Z.eqb_neq in H; rewrite H; clear H
         end.
  reflexivity.
Qed.

Lemma htmlEncode_app a b : htmlEncode (a ++ b) = htmlEncode a ++ htmlEncode b.
Proof.
  induction a as [ | c a IH ]; simpl; [ reflexivity | ].
  now rewrite IH, app_assoc.
Qed.

Lemma htmlEncode_char_inj x y A B :
  htmlEncode_char x ++ A = htmlEncode_char y ++ B -> x = y /\ A = B.
Proof.
  html_cases x; html_cases y; subst; cbn; intros H; inversion H; subst;
    try (split; congruence); try lia; try discriminate; exfalso; congruence.
Qed.

(** X3.  [htmlEncode] puts no less-than sign, greater-than sign, double
    quote or single quote in its result, whatever the input; a text that
    holds none of them and no ampersand is left as it is; and the encoding
    of two texts put together is the two encodings put together. *)
Theorem htmlEncode_no_markup input :
  forallb (fun c => negb (markup c)) (htmlEncode input) = true
  /\ (forallb (fun c => negb (markup c) && negb (c =? 38)) input = true ->
      htmlEncode input = input)
  /\ (forall more, htmlEncode (input ++ more)
                   = htmlEncode input ++ htmlEncode more).
Proof.
  split; [ | split ].
  - induction input as [ | c input IH ]; simpl; [ reflexivity | ].
    rewrite forallb_app, IH, andb_true_r. apply htmlEncode_char_safe.
  - induction input as [ | c input IH ]; simpl; [ reflexivity | ].
    intros H. apply andb_true_iff in H as [H1 H2].
    apply andb_true_iff in H1 as [M A].
    rewrite (IH H2). unfold markup in M.
    apply negb_true_iff in M, A.
    apply orb_false_iff in M as [M M4]. apply orb_false_iff in M as [M M3].
    apply orb_false_iff in M as [M1 M2].
    unfold htmlEncode_char. now rewrite A, M3, M4, M1, M2.
  - intros more. apply htmlEncode_app.
Qed.

Lemma htmlEncode_no_markup_plain :
  htmlEncode (lit "MQTTSwitch 2") = lit "MQTTSwitch 2".
Proof.
  destruct (htmlEncode_no_markup (lit "MQTTSwitch 2")) as [_ [P _]].
  apply P. reflexivity.
Defined.

(** X4.  [htmlEncode] loses nothing: two texts with the same encoding are
    the same text. *)
Theorem htmlEncode_injective a b : htmlEncode a = htmlEncode b -> a = b.
Proof.
  revert b. induction a as [ | x a IH ]; intros [ | y b ]; simpl.
  - reflexivity.
  - intros H. exfalso. revert H. html_cases y; discriminate.
  - intros H. exfalso. revert H. html_cases x; discriminate.
  - intros H. apply htmlEncode_char_inj in H as [-> H]. now rewrite (IH b H).
Qed.

Lemma htmlEncode_injective_entity :
  lit "a<b" = lit "a<b".
Proof.
  apply (htmlEncode_injective (lit "a<b") (lit "a<b")). reflexivity.
Defined.

(** ** The later revision: the web form *)

Lemma posted_member f arg :
  member f (posted_settings arg)
  = firstn (form_sizeof f)
      (cstr (arg (form_field f)) ++ repeat NUL (form_sizeof f)).
Proof. destruct f; cbn; now rewrite app_nil_r. Qed.

Lemma firstn_text_zeros n (s : list Z) :
  (n <= length s)%nat -> firstn n (s ++ repeat NUL n) = firstn n s.
Proof.
  intros L. rewrite firstn_app.
  replace (n - length s)%nat with 0%nat by lia.
  simpl. now rewrite app_nil_r.
Qed.

(** X5.  [httpPOSTSettings] replaces the settings by the record it builds
    from the form and saves that record, whose header is the valid one, so
    that the next start-up loads it.  A form value shorter than its member
    is stored as it is.  A value as long as the member or longer fills the
    member to its last byte and leaves no terminating zero in it.  An empty
    port field stores the port 0. *)
Theorem httpPOSTSettings_stores arg d :
  (exists replies,
      httpPOSTSettings arg d
      = Done replies (set_settings (posted_settings arg) d)
          [EEPROM_put (posted_settings arg); EEPROM_commit])
  /\ (forall d0 spiffs, exists out,
         Rev2.setup (posted_settings arg) spiffs d0
         = Done tt (set_settings (posted_settings arg) d0) out)
  /\ (forall f,
         (length (cstr (arg (form_field f))) < form_sizeof f)%nat ->
         cstr (member f (posted_settings arg)) = cstr (arg (form_field f)))
  /\ (forall f,
         (form_sizeof f <= length (cstr (arg (form_field f))))%nat ->
         member f (posted_settings arg)
         = firstn (form_sizeof f) (cstr (arg (form_field f)))
         /\ length (member f (posted_settings arg)) = form_sizeof f
         /\ forallb (fun c => negb (c =? NUL)) (member f (posted_settings arg))
            = true)
  /\ (cstr (arg "mqtt_port"%string) = [] -> mqtt_port (posted_settings arg) = 0).
Proof.
  split; [ | split; [ | split; [ | split ] ] ].
  - eexists. unfold httpPOSTSettings, SaveSettings.
    rewrite bind_upd, bind_assoc, bind_get, settings_set_settings.
    reflexivity.
  - intros d0 spiffs. unfold Rev2.setup, load_settings.
    cbv [bind emit].
    change (header (posted_settings arg) =? Rev2.SETTINGS_HEADER) with true.
    destruct spiffs; eexists; reflexivity.
  - intros f L. rewrite posted_member, cstr_firstn, cstr_app_zeros, cstr_idem.
    apply firstn_all2. lia.
  - intros f L.
    assert (E : member f (posted_settings arg)
                = firstn (form_sizeof f) (cstr (arg (form_field f))))
      by (rewrite posted_member; now apply firstn_text_zeros).
    assert (N : forallb (fun c => negb (c =? NUL))
                  (member f (posted_settings arg)) = true)
      by (rewrite E; apply forallb_firstn, cstr_nonzero).
    split; [ exact E | ]. split; [ | exact N ].
    rewrite E, length_firstn. lia.
  - intros P. cbn [posted_settings mqtt_port]. unfold atoi.
    destruct (cstr_split (arg "mqtt_port"%string)) as [tail [E D]].
    rewrite P in E. simpl in E. rewrite E.
    destruct tail as [ | t tail ]; [ reflexivity | ].
    simpl in D. subst t. reflexivity.
Qed.

Lemma httpPOSTSettings_stores_long_name :
  cstr (member f_mqtt_server
          (posted_settings (fun _ => lit "10.0.0.2"))) = lit "10.0.0.2"
  /\ member f_mqtt_server
       (posted_settings (fun _ => lit "broker.example.com"))
     = lit "broker.example.c"
  /\ mqtt_port (posted_settings (fun _ => [])) = 0.
Proof.
  destruct (httpPOSTSettings_stores (fun _ => lit "10.0.0.2") reset)
    as [_ [_ [S _]]].
  destruct (httpPOSTSettings_stores (fun _ => lit "broker.example.com") reset)
    as [_ [_ [_ [L _]]]].
  destruct (httpPOSTSettings_stores (fun _ => []) reset)
    as [_ [_ [_ [_ P]]]].
  split; [ apply (S f_mqtt_server); simpl; lia | ].
  split; [ apply (L f_mqtt_server); simpl; lia | ].
  apply P. reflexivity.
Defined.

(** [MQTTCallback] whatever the stored topic holds: the topic of the
    message is compared over 32 characters at most. *)
Lemma MQTTCallback_compares_32 topic payload d :
  MQTTCallback topic payload d =
  Done tt
    (if same (firstn 32 (cstr topic))
          (firstn 32 (cstr (mqtt_control_topic (settings d))))
     then apply_command (decode (cstr (firstn 7 payload))) d else d)
    [].
Proof.
  unfold MQTTCallback. rewrite bind_get.
  assert (E : (strncmp topic (mqtt_control_topic (settings d)) 32 =? 0)
              = same (firstn 32 (cstr topic))
                  (firstn 32 (cstr (mqtt_control_topic (settings d))))).
  { apply eq_true_iff_eq. rewrite Z.eqb_eq, strncmp_zero, same_true. tauto. }
  rewrite E.
  destruct (same (firstn 32 (cstr topic))
              (firstn 32 (cstr (mqtt_control_topic (settings d)))));
    cbn [when]; [ | reflexivity ].
  rewrite !strcasecmp_same, !strcmp_same, cstr_str.
  change (cstr (lit "on")) with (lit "on").
  change (cstr (lit "true")) with (lit "true").
  change (cstr (lit "off")) with (lit "off").
  change (cstr (lit "false")) with (lit "false").
  change (cstr (lit "1")) with [49]. change (cstr (lit "0")) with [48].
  unfold decode. change (lit "1") with [49]. change (lit "0") with [48].
  rewrite !same_nocase_digit by lia.
  destruct (same_nocase (cstr (firstn 7 payload)) (lit "on")
            || same_nocase (cstr (firstn 7 payload)) (lit "true")
            || same (cstr (firstn 7 payload)) [49]); [ reflexivity | ].
  destruct (same_nocase (cstr (firstn 7 payload)) (lit "off")
            || same_nocase (cstr (firstn 7 payload)) (lit "false")
            || same (cstr (firstn 7 payload)) [48]); reflexivity.
Qed.

(** X6.  A control topic of 32 characters or more posted through the web
    form is stored without its end, and [MQTTCallback] then acts on every
    message whose topic begins with the same 32 characters, whatever
    follows them. *)
Theorem posted_topic_matches_by_prefix arg d topic payload :
  (32 <= length (cstr (arg "mqtt_control_topic"%string)))%nat ->
  firstn 32 (cstr topic)
  = firstn 32 (cstr (arg "mqtt_control_topic"%string)) ->
  MQTTCallback topic payload (set_settings (posted_settings arg) d)
  = Done tt
      (apply_command (decode (cstr (firstn 7 payload)))
         (set_settings (posted_settings arg) d))
      [].
Proof.
  intros L E. rewrite MQTTCallback_compares_32, settings_set_settings.
  pose proof (posted_member f_mqtt_control_topic arg) as M.
  cbn [member form_field form_sizeof sizeof] in M. rewrite M.
  rewrite firstn_text_zeros by exact L.
  rewrite (cstr_plain (firstn 32 (cstr (arg "mqtt_control_topic"%string))))
    by (apply forallb_firstn, cstr_nonzero).
  rewrite firstn_firstn, Nat.min_id, E, same_refl. reflexivity.
Qed.

Lemma posted_topic_matches_by_prefix_other_topic :
  decode (cstr (firstn 7 (lit "on"))) = Some true
  /\ MQTTCallback (lit "home/livingroom/lamp/switch/commute") (lit "on")
       (set_settings
          (posted_settings
             (form_with_topic (lit "home/livingroom/lamp/switch/command")))
          reset)
     = Done tt
         (apply_command (decode (cstr (firstn 7 (lit "on"))))
            (set_settings
               (posted_settings
                  (form_with_topic (lit "home/livingroom/lamp/switch/command")))
               reset))
         [].
Proof.
  split; [ reflexivity | ].
  apply (posted_topic_matches_by_prefix
           (form_with_topic (lit "home/livingroom/lamp/switch/command"))
           reset (lit "home/livingroom/lamp/switch/commute") (lit "on")).
  - vm_compute. lia.
  - vm_compute. reflexivity.
Defined.

(** ** The later revision: the gate *)

(** X7.  In the later revision switching the gate on does not restart the
    idle time: the edge leaves [bluetooth_disconnected_millis] as it is.
    When the gate is switched on with no client attached and 600000 ms or
    more on the clock since that time, which is 0 until a client has been
    seen to leave, the iteration of the loop that sees the gate go up takes
    it down again. *)
Theorem gate_up_and_down_at_once g now_edge now_test :
  Rev2.config_enable g = true ->
  Rev2.last_config_enable g = false ->
  Rev2.last_bluetooth_has_client g = false ->
  600000 <= elapsed now_test (Rev2.bluetooth_disconnected_millis g) ->
  Rev2.bluetooth_disconnected_millis (gate_edge g)
  = Rev2.bluetooth_disconnected_millis g
  /\ Rev2.last_config_enable (gate_edge g) = true
  /\ Rev2.config_enable (gate_iteration false now_edge now_test g) = false.
Proof.
  destruct g as [ce lce lc bdm]. simpl. intros -> -> -> T.
  apply Z.leb_le in T. unfold gate_iteration, gate_edge, Rev2.gate_step. simpl.
  rewrite T. repeat split.
Qed.

Lemma gate_up_and_down_at_once_after_reset :
  Rev2.config_enable
    (gate_iteration false 700000 700000 (Rev2.mkGate true false false 0))
  = false.
Proof.
  apply (gate_up_and_down_at_once (Rev2.mkGate true false false 0)
           700000 700000); reflexivity || (vm_compute; discriminate).
Defined.

Lemma gate_iteration_idle now g :
  Rev2.config_enable g = true ->
  Rev2.last_bluetooth_has_client g = false ->
  elapsed now (Rev2.bluetooth_disconnected_millis g) < 600000 ->
  Rev2.config_enable (gate_iteration false now now g) = true
  /\ Rev2.last_bluetooth_has_client (gate_iteration false now now g) = false
  /\ Rev2.bluetooth_disconnected_millis (gate_iteration false now now g)
     = Rev2.bluetooth_disconnected_millis g.
Proof.
  destruct g as [ce lce lc bdm]. simpl. intros -> -> T.
  apply Z.leb_gt in T.
  unfold gate_iteration, gate_edge, Rev2.gate_step.
  destruct lce; simpl; rewrite T; repeat split.
Qed.

Lemma gate_idle_stays nows : forall g,
  Rev2.config_enable g = true ->
  Rev2.last_bluetooth_has_client g = false ->
  Forall (fun now => elapsed now (Rev2.bluetooth_disconnected_millis g) < 600000)
    nows ->
  Rev2.config_enable (gate_idle nows g) = true
  /\ Rev2.last_bluetooth_has_client (gate_idle nows g) = false
  /\ Rev2.bluetooth_disconnected_millis (gate_idle nows g)
     = Rev2.bluetooth_disconnected_millis g.
Proof.
  induction nows as [ | now nows IH ]; intros g E L F.
  - repeat split; assumption.
  - inversion F as [ | ? ? T F' ]; subst.
    destruct (gate_iteration_idle now g E L T) as [E1 [L1 B1]].
    change (gate_idle (now :: nows) g)
      with (gate_idle nows (gate_iteration false now now g)).
    destruct (IH (gate_iteration false now now g) E1 L1) as [E2 [L2 B2]].
    + rewrite B1. exact F'.
    + rewrite B2, B1. repeat split; assumption.
Qed.

(** X8.  The later revision counts the ten minutes from the time a client
    is seen gone.  The iteration that finds the client gone, clock reading
    [t0], records [t0]; through every run of iterations without a client
    whose clocks read less than 600000 ms past [t0] the gate stays up and
    the record stays [t0]; the next iteration without a client takes the
    gate down exactly when its clock reads 600000 ms or more past [t0]. *)
Theorem gate_counts_from_disconnect g t0 t0' nows now :
  Rev2.config_enable g = true ->
  Rev2.last_bluetooth_has_client g = true ->
  elapsed t0' t0 < 600000 ->
  Forall (fun n => elapsed n t0 < 600000) nows ->
  let g' := gate_idle nows (gate_iteration false t0 t0' g) in
  Rev2.config_enable g' = true
  /\ Rev2.bluetooth_disconnected_millis g' = t0
  /\ Rev2.config_enable (gate_iteration false now now g')
     = negb (600000 <=? elapsed now t0)
  /\ Rev2.config_enable (gate_iteration true now now g') = true.
Proof.
  intros E L T F g'.
  assert (S : Rev2.config_enable (gate_iteration false t0 t0' g) = true
              /\ Rev2.last_bluetooth_has_client (gate_iteration false t0 t0' g)
                 = false
              /\ Rev2.bluetooth_disconnected_millis
                   (gate_iteration false t0 t0' g) = t0).
  { destruct g as [ce lce lc bdm]. simpl in E, L. subst ce lc.
    apply Z.leb_gt in T.
    unfold gate_iteration, gate_edge, Rev2.gate_step.
    destruct lce; simpl; rewrite T; repeat split. }
  destruct S as [E1 [L1 B1]].
  destruct (gate_idle_stays nows (gate_iteration false t0 t0' g) E1 L1)
    as [E2 [L2 B2]].
  { rewrite B1. exact F. }
  fold g' in E2, L2, B2. rewrite B1 in B2.
  split; [ exact E2 | split; [ exact B2 | ] ].
  destruct g' as [ce lce lc bdm]. simpl in E2, L2, B2. subst ce lc bdm.
  unfold gate_iteration, gate_edge, Rev2.gate_step.
  destruct lce; simpl;
    destruct (600000 <=? elapsed now t0); repeat split.
Qed.

Lemma gate_counts_from_disconnect_one_second_later :
  Rev2.config_enable
    (gate_iteration false 606001 606001
       (gate_idle [606000]
          (gate_iteration false 605001 605001
             (Rev2.mkGate true true true 0)))) = true
  /\ Rev2.config_enable
       (gate_iteration false 1205001 1205001
          (gate_idle [606000]
             (gate_iteration false 605001 605001
                (Rev2.mkGate true true true 0)))) = false.
Proof.
  assert (F : Forall (fun n => elapsed n 605001 < 600000) [606000]).
  { constructor; [ vm_compute; reflexivity | constructor ]. }
  split.
  - destruct (gate_counts_from_disconnect (Rev2.mkGate true true true 0)
                605001 605001 [606000] 606001 eq_refl eq_refl eq_refl F)
      as [_ [_ [A _]]].
    rewrite A. reflexivity.
  - destruct (gate_counts_from_disconnect (Rev2.mkGate true true true 0)
                605001 605001 [606000] 1205001 eq_refl eq_refl eq_refl F)
      as [_ [_ [A _]]].
    rewrite A. reflexivity.
Defined.

(** ** The console: tokens *)

Lemma scan_token_split rest :
  forallb (fun c => negb (c =? NUL)) rest = true ->
  rest = fst (scan_token rest) ++ snd (scan_token rest)
  /\ forallb (fun c => negb (c =? NUL) && negb (isspace c))
       (fst (scan_token rest)) = true
  /\ match snd (scan_token rest) with
     | [] => True
     | sep :: _ => isspace sep = true
     end.
Proof.
  induction rest as [ | c rest IH ]; simpl; intros N.
  - repeat split.
  - apply andb_true_iff in N as [N1 N2]. rewrite N1. simpl.
    destruct (isspace c) eqn:S; simpl.
    + repeat split. exact S.
    + destruct (IH N2) as [E [T P]].
      destruct (scan_token rest) as [tok stop]. simpl in *.
      rewrite N1, S, T. repeat split; [ now rewrite <- E | exact P ].
Qed.

(** X9.  [tokenSplit] on a line as [PollBluetoothCommand] hands it over.
    It returns no token exactly when the line is blank.  Otherwise the
    line is made of blanks, the token returned, and then either nothing,
    and [ptr] is left null, or one blank and the text [ptr] is left at.
    The token is never empty and holds no blank. *)
Theorem tokenSplit_parts line :
  match tokenSplit (Some (cstr line)) with
  | (None, ptr) => blankb line = true /\ ptr = Some []
  | (Some token, ptr) =>
      tokenb token = true /\ blankb line = false
      /\ exists blanks,
           forallb isspace blanks = true
           /\ match ptr with
              | None => cstr line = blanks ++ token
              | Some rest =>
                  exists sep, isspace sep = true
                              /\ cstr line = blanks ++ token ++ sep :: rest
              end
  end.
Proof.
  pose proof (tokenSplit_null line) as Null.
  pose proof (cstr_nonzero line) as N.
  destruct (drop_blanks_split (cstr line)) as [blanks [E B]].
  unfold tokenSplit in *. rewrite skip_spaces_drop_blanks in *.
  destruct (drop_blanks (cstr line)) as [ | c p ] eqn:D.
  - simpl in *. split; [ now apply Null | reflexivity ].
  - assert (Np : forallb (fun c => negb (c =? NUL)) (c :: p) = true).
    { rewrite E in N. now apply nonzero_app in N as [_ N]. }
    simpl in Np. apply andb_true_iff in Np as [Nc Np].
    assert (Sc : isspace c = false) by (apply (drop_blanks_head _ _ _ D)).
    cbn [deref tl] in *. apply negb_true_iff in Nc. rewrite Nc in *.
    destruct (scan_token_split p Np) as [Ep [T P]].
    destruct (scan_token p) as [tok stop]. cbn [fst snd] in *.
    assert (Tk : tokenb (c :: tok) = true).
    { unfold tokenb. simpl. now rewrite Nc, Sc, T. }
    assert (Nb : blankb line = false).
    { destruct (blankb line); [ | reflexivity ].
      destruct Null as [_ Null]. specialize (Null eq_refl).
      destruct (negb (deref stop =? NUL)); discriminate. }
    destruct stop as [ | sep r ].
    + simpl. split; [ exact Tk | ]. split; [ exact Nb | ].
      exists blanks. split; [ exact B | ].
      rewrite E at 1. rewrite Ep at 1. now rewrite app_nil_r.
    + assert (Ns : (sep =? NUL) = false).
      { rewrite Ep in Np. apply nonzero_app in Np as [_ Np].
        simpl in Np. apply andb_true_iff in Np as [Np _].
        now apply negb_true_iff in Np. }
      simpl. rewrite Ns. simpl.
      split; [ exact Tk | ]. split; [ exact Nb | ].
      exists blanks. split; [ exact B | ].
      exists sep. split; [ exact P | ].
      rewrite E at 1. rewrite Ep at 1. reflexivity.
Qed.

(** ** The console: single commands *)

Lemma tokenSplit_token line token ptr :
  tokenSplit (Some (cstr line)) = (Some token, ptr) -> tokenb token = true.
Proof.
  pose proof (cstr_nonzero line) as N.
  destruct (drop_blanks_split (cstr line)) as [blanks [E B]].
  unfold tokenSplit. rewrite skip_spaces_drop_blanks.
  destruct (drop_blanks (cstr line)) as [ | c p ] eqn:D;
    [ discriminate | ].
  assert (Np : forallb (fun c => negb (c =? NUL)) (c :: p) = true).
  { rewrite E in N. now apply nonzero_app in N as [_ N]. }
  simpl in Np. apply andb_true_iff in Np as [Nc Np].
  assert (Sc : isspace c = false) by (apply (drop_blanks_head _ _ _ D)).
  cbn [deref tl]. apply negb_true_iff in Nc. rewrite Nc.
  destruct (scan_token_split p Np) as [_ [T _]].
  destruct (scan_token p) as [tok stop]. cbn [fst] in T.
  assert (Tk : tokenb (c :: tok) = true).
  { unfold tokenb. simpl. now rewrite Nc, Sc, T. }
  destruct (negb (deref stop =? NUL)); intros H; inversion H; now subst.
Qed.

Lemma strcmp_unknown cmd :
  tokenb cmd = true -> ~ In cmd (map lit command_names) ->
  forall name, In name command_names -> (strcmp cmd (lit name) =? 0) = false.
Proof.
  intros T U name I. apply Z.eqb_neq. intros Z. apply strcmp_zero in Z.
  rewrite (token_plain cmd T) in Z. apply U. rewrite Z.
  simpl in I.
  repeat (destruct I as [ <- | I ];
          [ vm_compute; repeat (first [ left; reflexivity | right ]) | ]).
  contradiction.
Qed.

Ltac skip_command K :=
  cbv beta iota; unfold strcmp_at at 1; cbv beta iota; rewrite bind_ret;
  match goal with
  | |- context [strcmp ?a (lit ?n) =? 0] =>
      rewrite (K n) by (simpl; tauto)
  end;
  cbv beta iota.

(** X10.  A line whose first token is none of the fourteen command names,
    compared as written, case included, is answered with an error line
    and changes nothing. *)
Theorem unknown_command line cmd c d :
  bt_line c = Some line ->
  fst (tokenSplit (Some (cstr line))) = Some cmd ->
  ~ In cmd (map lit command_names) ->
  PollBluetoothCommand c d
  = Done tt d [bt_println (lit "Error: command not found")].
Proof.
  intros L H U. unfold PollBluetoothCommand. rewrite L.
  destruct (tokenSplit (Some (cstr line))) as [cmd' ptr] eqn:TS.
  simpl in H. subst cmd'.
  pose proof (strcmp_unknown cmd (tokenSplit_token _ _ _ TS) U) as K.
  do 14 skip_command K.
  reflexivity.
Qed.

Lemma unknown_command_upper_case :
  PollBluetoothCommand (typed (lit "ON now")) reset
  = Done tt reset [bt_println (lit "Error: command not found")].
Proof.
  apply (unknown_command (lit "ON now") (lit "ON") (typed (lit "ON now")) reset).
  - reflexivity.
  - reflexivity.
  - vm_compute. intros H.
    repeat (destruct H as [ H | H ]; [ discriminate | ]). exact H.
Defined.

(** ** The console: the port *)

Lemma digits_decimal ds : forall acc junk,
  forallb isdigit ds = true -> isdigit (deref junk) = false ->
  digits acc (ds ++ junk)
  = fold_left (fun acc c => acc * 10 + (c - 48)) ds acc.
Proof.
  induction ds as [ | c ds IH ]; simpl; intros acc junk D J.
  - destruct junk as [ | j junk ]; [ reflexivity | ].
    simpl in *. now rewrite J.
  - apply andb_true_iff in D as [D1 D2]. rewrite D1. now apply IH.
Qed.

Lemma atoi_decimal c ds junk :
  forallb isdigit (c :: ds) = true -> isdigit (deref junk) = false ->
  atoi ((c :: ds) ++ junk) = Z.min LONG_MAX (decimal (c :: ds)).
Proof.
  intros D J. unfold atoi, decimal.
  assert (Dc : isdigit c = true) by (simpl in D; now apply andb_true_iff in D).
  assert (R : 48 <= c <= 57).
  { unfold isdigit in Dc. apply andb_true_iff in Dc as [A B].
    apply Z.leb_le in A, B. lia. }
  assert (S : skip_spaces ((c :: ds) ++ junk) = (c :: ds) ++ junk).
  { simpl. replace (isspace c) with false; [ now rewrite andb_false_r | ].
    symmetry. unfold isspace. apply orb_false_iff. split.
    - apply Z.eqb_neq. lia.
    - apply andb_false_iff. right. apply Z.leb_gt. lia. }
  rewrite S. cbn [app deref].
  replace (c =? 45) with false by (symmetry; apply Z.eqb_neq; lia).
  replace (c =? 43) with false by (symmetry; apply Z.eqb_neq; lia).
  change (c :: ds ++ junk) with ((c :: ds) ++ junk).
  now rewrite digits_decimal.
Qed.

Lemma atoi_no_number c rest :
  isdigit c = false -> isspace c = false -> c <> 43 -> c <> 45 ->
  atoi (c :: rest) = 0.
Proof.
  intros D S P M. unfold atoi. simpl. rewrite S, andb_false_r. simpl.
  apply Z.eqb_neq in P, M. rewrite P, M, D. reflexivity.
Qed.

(** X11.  The command mqtt-port.  With an argument, the argument is read
    as [atoi] reads it: a value from 1 to 65535 becomes the port, the
    settings are saved and the link to the broker is restarted; any other
    value is answered with an error line and changes nothing.  What
    [atoi] reads is the number the leading digits write, whatever comes
    after them, and 0 when the argument begins with no digit and no
    sign.  Without an argument the command prints the port. *)
Theorem mqtt_port_command v c d :
  tokenb v = true ->
  (bt_line c = Some (lit "mqtt-port" ++ 32 :: v) ->
   PollBluetoothCommand c d
   = if (1 <=? atoi v) && (atoi v <=? UINT16_MAX)
     then Done tt
            (set_mqtt_last_try 0
               (set_settings (store_port (atoi v) (settings d)) d))
            [EEPROM_put (store_port (atoi v) (settings d)); EEPROM_commit;
             bt_println (lit "Settings saved!"); mqtt_disconnect]
     else Done tt d [bt_println (lit "Error: invalid port number")])
  /\ (bt_line c = Some (lit "mqtt-port") ->
      PollBluetoothCommand c d
      = Done tt d [bt_println_int (mqtt_port (settings d))])
  /\ (forall x ds junk,
         v = (x :: ds) ++ junk -> forallb isdigit (x :: ds) = true ->
         isdigit (deref junk) = false ->
         atoi v = Z.min LONG_MAX (decimal (x :: ds)))
  /\ (forall x rest,
         v = x :: rest -> isdigit x = false -> x <> 43 -> x <> 45 ->
         atoi v = 0).
Proof.
  intros T. split; [ | split; [ | split ] ].
  - intros L. unfold PollBluetoothCommand. rewrite L.
    rewrite command_line_plain by (reflexivity || exact T).
    rewrite tokenSplit_first by reflexivity.
    repeat dispatch_step.
    rewrite (tokenSplit_last v T). cbv beta iota.
    destruct (atoi v <? 1) eqn:A; destruct (UINT16_MAX <? atoi v) eqn:B;
      cbn [orb];
      try apply Z.ltb_lt in A; try apply Z.ltb_ge in A;
      try apply Z.ltb_lt in B; try apply Z.ltb_ge in B.
    + replace (1 <=? atoi v) with false by (symmetry; apply Z.leb_gt; lia).
      reflexivity.
    + replace (1 <=? atoi v) with false by (symmetry; apply Z.leb_gt; lia).
      reflexivity.
    + replace (atoi v <=? UINT16_MAX) with false
        by (symmetry; apply Z.leb_gt; lia).
      rewrite andb_false_r. reflexivity.
    + replace (1 <=? atoi v) with true by (symmetry; apply Z.leb_le; lia).
      replace (atoi v <=? UINT16_MAX) with true
        by (symmetry; apply Z.leb_le; lia).
      unfold SaveSettings, RestartMQTT.
      rewrite bind_upd, bind_assoc, bind_get, settings_set_settings.
      reflexivity.
  - intros L. unfold PollBluetoothCommand. rewrite L.
    match goal with
    | |- context [tokenSplit (Some (cstr ?l))] =>
        let r := eval vm_compute in (tokenSplit (Some (cstr l))) in
        change (tokenSplit (Some (cstr l))) with r
    end.
    repeat dispatch_step. reflexivity.
  - intros x ds junk -> D J. now apply atoi_decimal.
  - intros x rest -> D P M. apply atoi_no_number; try assumption.
    apply token_chars in T as [c0 [w [E [_ [S _]]]]]. now inversion E; subst.
Qed.

Lemma mqtt_port_command_secure_port :
  PollBluetoothCommand (typed (lit "mqtt-port 8883/tcp")) reset
  = Done tt
      (set_mqtt_last_try 0
         (set_settings (store_port 8883 (settings reset)) reset))
      [EEPROM_put (store_port 8883 (settings reset)); EEPROM_commit;
       bt_println (lit "Settings saved!"); mqtt_disconnect]
  /\ atoi (lit "8883/tcp") = 8883
  /\ atoi (lit "tcp") = 0.
Proof.
  destruct (mqtt_port_command (lit "8883/tcp") (typed (lit "mqtt-port 8883/tcp"))
              reset eq_refl) as [W [_ [N _]]].
  destruct (mqtt_port_command (lit "tcp") (typed (lit "mqtt-port tcp"))
              reset eq_refl) as [_ [_ [_ Z]]].
  split; [ | split ].
  - apply (W eq_refl).
  - apply (N 56 (lit "883") (lit "/tcp")); reflexivity.
  - apply (Z 116 (lit "cp")); [ reflexivity | reflexivity | | ]; discriminate.
Defined.

(** ** The console: credentials *)

Lemma cstr_copied size v b :
  (0 < size)%nat ->
  cstr (strncpy (memset b 0 size) v (size - 1)) = firstn (size - 1) (cstr v).
Proof.
  intros Pos. destruct size as [ | n ]; [ lia | clear Pos ].
  unfold strncpy, memset. replace (S n - 1)%nat with n by lia.
  replace (skipn n (repeat 0 (S n) ++ skipn (S n) b))
    with (NUL :: skipn (S n) b) by (symmetry; apply skipn_repeat_succ).
  rewrite cstr_app_nul. apply firstn_zeros_tail, cstr_idem.
Qed.

Lemma cstr_cleared size b : (0 < size)%nat -> cstr (memset b 0 size) = [].
Proof.
  intros Pos. destruct size as [ | n ]; [ lia | reflexivity ].
Qed.

Lemma two_words_plain name u v :
  forallb (fun c => negb (c =? NUL)) (lit name) = true ->
  tokenb u = true -> tokenb v = true ->
  cstr (lit name ++ 32 :: u ++ 32 :: v) = lit name ++ 32 :: u ++ 32 :: v.
Proof.
  intros N U V. apply cstr_plain. rewrite forallb_app, N. simpl.
  rewrite forallb_app. simpl.
  rewrite <- (token_plain u U), <- (token_plain v V), !cstr_nonzero.
  reflexivity.
Qed.

(** The first attempt after a restart: whatever the clock reads. *)
Lemma EnsureWiFi_begins status now d :
  status <> WL_CONNECTED ->
  (0 < strlen (wifi_ssid (settings d)))%nat ->
  wifi_last_try d = 0 ->
  exists diag,
    output (EnsureWiFi status now d)
    = diag
      ++ [Serial_print (lit "Connecting to WiFi SSID ");
          Serial_print (cstr (wifi_ssid (settings d)));
          Serial_println (lit ".");
          WiFi_setHostname (cstr (device_name (settings d)));
          WiFi_begin (cstr (wifi_ssid (settings d)))
            (cstr (wifi_password (settings d)))]
    /\ forallb is_diagnostic diag = true.
Proof.
  intros C S Z. apply wl_status_eqb_neq in C.
  assert (E : (strlen (wifi_ssid (settings d)) =? 0)%nat = false)
    by (apply Nat.eqb_neq; lia).
  clear S.
  destruct d as [s pe be bem wlt mlt ls lst bp bpm lb bd lc le lpe lbe].
  cbn [settings wifi_last_try] in *. subst wlt.
  destruct (wl_status_eqb status ls) eqn:L;
    try (pose proof L as L'; apply wl_status_eqb_eq in L'; subst ls);
    run_supervisor; decide_tests; cbn [output app].
  - exists []. split; reflexivity.
  - eexists [_; _; _]. split; reflexivity.
Qed.

Ltac credentials_state :=
  cbn [settings set_settings store member sizeof set_mqtt_last_try
       set_wifi_last_try app].

Ltac run_credentials :=
  unfold poke, SaveSettings, RestartWiFi, RestartMQTT;
  cbv [bind get upd emit ret].

(** X12.  The command wifi.  With a network name and a password, both
    are stored, each cut to 31 characters; with a name alone the password
    is cleared.  The name is stored as written, the token "-" too.  The
    settings are saved, both links are restarted, and the next call of
    [EnsureWiFi] that finds the link down begins with the new name and
    password whatever the clock reads.  No other member is changed.
    Without a name the command is answered with an error line and changes
    nothing. *)
Theorem wifi_command ssid password c d :
  tokenb ssid = true -> tokenb password = true ->
  let stored d' pass :=
    cstr (wifi_ssid (settings d')) = firstn 31 ssid
    /\ cstr (wifi_password (settings d')) = pass
    /\ (forall f, f <> f_wifi_ssid -> f <> f_wifi_password ->
                  member f (settings d') = member f (settings d))
    /\ header (settings d') = header (settings d)
    /\ mqtt_port (settings d') = mqtt_port (settings d)
    /\ wifi_last_try d' = 0 /\ mqtt_last_try d' = 0
    /\ (forall status now,
           status <> WL_CONNECTED ->
           In (WiFi_begin (firstn 31 ssid) pass)
             (output (EnsureWiFi status now d'))) in
  (bt_line c = Some (lit "wifi" ++ 32 :: ssid ++ 32 :: password) ->
   exists d',
     PollBluetoothCommand c d
     = Done tt d'
         [EEPROM_put (settings d'); EEPROM_commit;
          bt_println (lit "Settings saved!"); mqtt_disconnect; WiFi_disconnect]
     /\ stored d' (firstn 31 password))
  /\ (bt_line c = Some (lit "wifi" ++ 32 :: ssid) ->
      exists d',
        PollBluetoothCommand c d
        = Done tt d'
            [EEPROM_put (settings d'); EEPROM_commit;
             bt_println (lit "Settings saved!"); mqtt_disconnect;
             WiFi_disconnect]
        /\ stored d' [])
  /\ (bt_line c = Some (lit "wifi") ->
      PollBluetoothCommand c d
      = Done tt d [bt_println (lit "Error: must specify SSID")]).
Proof.
  intros Ts Tp stored.
  assert (Ns : firstn 31 ssid <> []).
  { apply token_chars in Ts as [x [w [-> _]]]. discriminate. }
  assert (After : forall d' pass,
             cstr (wifi_ssid (settings d')) = firstn 31 ssid ->
             cstr (wifi_password (settings d')) = pass ->
             wifi_last_try d' = 0 ->
             forall status now,
               status <> WL_CONNECTED ->
               In (WiFi_begin (firstn 31 ssid) pass)
                 (output (EnsureWiFi status now d'))).
  { intros d' pass Es Ep Z status now C.
    destruct (EnsureWiFi_begins status now d' C) as [diag [O _]].
    - unfold strlen. rewrite Es.
      destruct (firstn 31 ssid); [ contradiction | simpl; lia ].
    - exact Z.
    - rewrite O, Es, Ep. apply in_or_app. right. simpl. tauto. }
  destruct d as [s pe be bem wlt mlt ls lst bp bpm lb bd lc le lpe lbe].
  destruct s as [h dn ws wp ms mp mi mu mw ct st].
  split; [ | split ].
  - intros L. unfold PollBluetoothCommand. rewrite L.
    rewrite two_words_plain by (reflexivity || assumption).
    rewrite tokenSplit_first by reflexivity.
    repeat dispatch_step.
    rewrite (tokenSplit_first ssid password Ts).
    rewrite (tokenSplit_last password Tp). cbv beta iota.
    run_credentials.
    exists (mkDevice
              (mkSettings h dn (strncpy (memset ws 0 32) ssid (32 - 1))
                 (strncpy (memset wp 0 32) password (32 - 1))
                 ms mp mi mu mw ct st)
              pe be bem 0 0 ls lst bp bpm lb bd lc le lpe lbe).
    split; [ reflexivity | ].
    subst stored. cbn [settings wifi_ssid wifi_password header mqtt_port
                         wifi_last_try mqtt_last_try].
    assert (Es : cstr (strncpy (memset ws 0 32) ssid (32 - 1)) = firstn 31 ssid)
      by (now rewrite cstr_copied, (token_plain ssid Ts) by lia).
    assert (Ep : cstr (strncpy (memset wp 0 32) password (32 - 1))
                 = firstn 31 password)
      by (now rewrite cstr_copied, (token_plain password Tp) by lia).
    repeat split; try assumption.
    + intros f F1 F2. destruct f; try reflexivity; contradiction.
    + now apply After.
  - intros L. unfold PollBluetoothCommand. rewrite L.
    rewrite command_line_plain by (reflexivity || assumption).
    rewrite tokenSplit_first by reflexivity.
    repeat dispatch_step.
    rewrite (tokenSplit_last ssid Ts). cbv beta iota.
    change (tokenSplit None) with (@None (list Z), @None (list Z)).
    cbv beta iota.
    run_credentials.
    exists (mkDevice
              (mkSettings h dn (strncpy (memset ws 0 32) ssid (32 - 1))
                 (memset wp 0 32) ms mp mi mu mw ct st)
              pe be bem 0 0 ls lst bp bpm lb bd lc le lpe lbe).
    split; [ reflexivity | ].
    subst stored. cbn [settings wifi_ssid wifi_password header mqtt_port
                         wifi_last_try mqtt_last_try].
    assert (Es : cstr (strncpy (memset ws 0 32) ssid (32 - 1)) = firstn 31 ssid)
      by (now rewrite cstr_copied, (token_plain ssid Ts) by lia).
    assert (Ep : cstr (memset wp 0 32) = []) by reflexivity.
    repeat split; try assumption.
    + intros f F1 F2. destruct f; try reflexivity; contradiction.
    + now apply After.
  - intros L. unfold PollBluetoothCommand. rewrite L.
    match goal with
    | |- context [tokenSplit (Some (cstr ?l))] =>
        let r := eval vm_compute in (tokenSplit (Some (cstr l))) in
        change (tokenSplit (Some (cstr l))) with r
    end.
    repeat dispatch_step. reflexivity.
Qed.

Lemma wifi_command_open_network :
  exists d',
    PollBluetoothCommand (typed (lit "wifi cafe")) configured
    = Done tt d'
        [EEPROM_put (settings d'); EEPROM_commit;
         bt_println (lit "Settings saved!"); mqtt_disconnect; WiFi_disconnect]
    /\ cstr (wifi_ssid (settings d')) = lit "cafe"
    /\ cstr (wifi_password (settings d')) = []
    /\ In (WiFi_begin (lit "cafe") [])
         (output (EnsureWiFi WL_DISCONNECTED 77 d')).
Proof.
  destruct (wifi_command (lit "cafe") (lit "x") (typed (lit "wifi cafe"))
              configured eq_refl eq_refl) as [_ [W _]].
  destruct (W eq_refl) as [d' [E [S [P [_ [_ [_ [_ [_ B]]]]]]]]].
  exists d'. split; [ exact E | ]. split; [ exact S | ].
  split; [ exact P | ]. apply B. discriminate.
Defined.

(** The first attempt after a restart of the link to the broker, when a
    user is set. *)
Lemma EnsureMQTT_connects state now success d :
  state <> MQTT_CONNECTED ->
  (0 < strlen (mqtt_server (settings d)))%nat ->
  (0 < strlen (mqtt_user (settings d)))%nat ->
  mqtt_last_try d = 0 ->
  In (mqtt_connect
        (cstr (if (strlen (mqtt_id (settings d)) =? 0)%nat
               then device_name (settings d) else mqtt_id (settings d)))
        (Some (cstr (mqtt_user (settings d)),
               cstr (mqtt_password (settings d))))
        (cstr (mqtt_status_topic (settings d))) 1 true (lit "OFFLINE"))
    (output (EnsureMQTT state now success d)).
Proof.
  intros C S U Z. apply Z.eqb_neq in C.
  assert (E : (strlen (mqtt_server (settings d)) =? 0)%nat = false)
    by (apply Nat.eqb_neq; lia).
  assert (E' : (strlen (mqtt_user (settings d)) =? 0)%nat = false)
    by (apply Nat.eqb_neq; lia).
  clear S U.
  destruct d as [s pe be bem wlt mlt ls lst bp bpm lb bd lc le lpe lbe].
  cbn [settings mqtt_last_try] in *. subst mlt.
  destruct (state =? lst) eqn:L;
    try (pose proof L as L'; apply Z.eqb_eq in L'; subst lst);
    destruct (success && (0 <? strlen (mqtt_control_topic s))%nat) eqn:T;
    run_supervisor; decide_tests; cbn [output app];
    repeat (first [ left; reflexivity | right ]).
Qed.

(** X13.  The command mqtt-auth.  With a user and a password, both are
    stored, each cut to 15 characters; with a user alone the password is
    cleared.  The settings are saved, the link to the broker is restarted
    and the timer of the WiFi link is left alone; with a broker address
    set, the next call of [EnsureMQTT] that finds the link down connects
    with the new user and password whatever the clock reads.  No other
    member is changed.  Without a user the command is answered with an
    error line and changes nothing. *)
Theorem mqtt_auth_command user password c d :
  tokenb user = true -> tokenb password = true ->
  let stored d' pass :=
    cstr (mqtt_user (settings d')) = firstn 15 user
    /\ cstr (mqtt_password (settings d')) = pass
    /\ (forall f, f <> f_mqtt_user -> f <> f_mqtt_password ->
                  member f (settings d') = member f (settings d))
    /\ header (settings d') = header (settings d)
    /\ mqtt_port (settings d') = mqtt_port (settings d)
    /\ mqtt_last_try d' = 0 /\ wifi_last_try d' = wifi_last_try d
    /\ (forall state now success,
           state <> MQTT_CONNECTED ->
           (0 < strlen (mqtt_server (settings d)))%nat ->
           exists id,
             In (mqtt_connect id (Some (firstn 15 user, pass))
                   (cstr (mqtt_status_topic (settings d))) 1 true
                   (lit "OFFLINE"))
               (output (EnsureMQTT state now success d'))) in
  (bt_line c = Some (lit "mqtt-auth" ++ 32 :: user ++ 32 :: password) ->
   exists d',
     PollBluetoothCommand c d
     = Done tt d'
         [EEPROM_put (settings d'); EEPROM_commit;
          bt_println (lit "Settings saved!"); mqtt_disconnect]
     /\ stored d' (firstn 15 password))
  /\ (bt_line c = Some (lit "mqtt-auth" ++ 32 :: user) ->
      exists d',
        PollBluetoothCommand c d
        = Done tt d'
            [EEPROM_put (settings d'); EEPROM_commit;
             bt_println (lit "Settings saved!"); mqtt_disconnect]
        /\ stored d' [])
  /\ (bt_line c = Some (lit "mqtt-auth") ->
      PollBluetoothCommand c d
      = Done tt d [bt_println (lit "Error: must specify user")]).
Proof.
  intros Tu Tp stored.
  assert (Nu : firstn 15 user <> []).
  { apply token_chars in Tu as [x [w [-> _]]]. discriminate. }
  assert (After : forall d' pass,
             cstr (mqtt_user (settings d')) = firstn 15 user ->
             cstr (mqtt_password (settings d')) = pass ->
             mqtt_server (settings d') = mqtt_server (settings d) ->
             mqtt_status_topic (settings d') = mqtt_status_topic (settings d) ->
             mqtt_last_try d' = 0 ->
             forall state now success,
               state <> MQTT_CONNECTED ->
               (0 < strlen (mqtt_server (settings d)))%nat ->
               exists id,
                 In (mqtt_connect id (Some (firstn 15 user, pass))
                       (cstr (mqtt_status_topic (settings d))) 1 true
                       (lit "OFFLINE"))
                   (output (EnsureMQTT state now success d'))).
  { intros d' pass Eu Ep Es Et Z state now success C S.
    eexists. rewrite <- Eu, <- Ep, <- Et.
    apply EnsureMQTT_connects; try assumption.
    - now rewrite Es.
    - unfold strlen. rewrite Eu.
      destruct (firstn 15 user); [ contradiction | simpl; lia ]. }
  destruct d as [s pe be bem wlt mlt ls lst bp bpm lb bd lc le lpe lbe].
  destruct s as [h dn ws wp ms mp mi mu mw ct st].
  split; [ | split ].
  - intros L. unfold PollBluetoothCommand. rewrite L.
    rewrite two_words_plain by (reflexivity || assumption).
    rewrite tokenSplit_first by reflexivity.
    repeat dispatch_step.
    rewrite (tokenSplit_first user password Tu).
    rewrite (tokenSplit_last password Tp). cbv beta iota.
    run_credentials.
    exists (mkDevice
              (mkSettings h dn ws wp ms mp mi
                 (strncpy (memset mu 0 16) user (16 - 1))
                 (strncpy (memset mw 0 16) password (16 - 1)) ct st)
              pe be bem wlt 0 ls lst bp bpm lb bd lc le lpe lbe).
    split; [ reflexivity | ].
    subst stored. cbn [settings mqtt_user mqtt_password header mqtt_port
                         wifi_last_try mqtt_last_try].
    assert (Eu : cstr (strncpy (memset mu 0 16) user (16 - 1)) = firstn 15 user)
      by (now rewrite cstr_copied, (token_plain user Tu) by lia).
    assert (Ep : cstr (strncpy (memset mw 0 16) password (16 - 1))
                 = firstn 15 password)
      by (now rewrite cstr_copied, (token_plain password Tp) by lia).
    repeat split; try assumption.
    + intros f F1 F2. destruct f; try reflexivity; contradiction.
    + intros state now success C S. now apply After.
  - intros L. unfold PollBluetoothCommand. rewrite L.
    rewrite command_line_plain by (reflexivity || assumption).
    rewrite tokenSplit_first by reflexivity.
    repeat dispatch_step.
    rewrite (tokenSplit_last user Tu). cbv beta iota.
    change (tokenSplit None) with (@None (list Z), @None (list Z)).
    cbv beta iota.
    run_credentials.
    exists (mkDevice
              (mkSettings h dn ws wp ms mp mi
                 (strncpy (memset mu 0 16) user (16 - 1))
                 (memset mw 0 16) ct st)
              pe be bem wlt 0 ls lst bp bpm lb bd lc le lpe lbe).
    split; [ reflexivity | ].
    subst stored. cbn [settings mqtt_user mqtt_password header mqtt_port
                         wifi_last_try mqtt_last_try].
    assert (Eu : cstr (strncpy (memset mu 0 16) user (16 - 1)) = firstn 15 user)
      by (now rewrite cstr_copied, (token_plain user Tu) by lia).
    assert (Ep : cstr (memset mw 0 16) = []) by reflexivity.
    repeat split; try assumption.
    + intros f F1 F2. destruct f; try reflexivity; contradiction.
    + intros state now success C S. now apply After.
  - intros L. unfold PollBluetoothCommand. rewrite L.
    match goal with
    | |- context [tokenSplit (Some (cstr ?l))] =>
        let r := eval vm_compute in (tokenSplit (Some (cstr l))) in
        change (tokenSplit (Some (cstr l))) with r
    end.
    repeat dispatch_step. reflexivity.
Qed.

Lemma mqtt_auth_command_long_password :
  exists d',
    PollBluetoothCommand
      (typed (lit "mqtt-auth switch correct-horse-battery")) configured
    = Done tt d'
        [EEPROM_put (settings d'); EEPROM_commit;
         bt_println (lit "Settings saved!"); mqtt_disconnect]
    /\ cstr (mqtt_password (settings d')) = lit "correct-horse-b"
    /\ exists id,
         In (mqtt_connect id (Some (lit "switch", lit "correct-horse-b"))
               (lit "sw/state") 1 true (lit "OFFLINE"))
           (output (EnsureMQTT MQTT_DISCONNECTED 77 true d')).
Proof.
  destruct (mqtt_auth_command (lit "switch") (lit "correct-horse-battery")
              (typed (lit "mqtt-auth switch correct-horse-battery"))
              configured eq_refl eq_refl) as [W _].
  destruct (W eq_refl) as [d' [E [_ [P [_ [_ [_ [_ [_ B]]]]]]]]].
  exists d'. split; [ exact E | ]. split; [ exact P | ].
  apply B; [ discriminate | vm_compute; lia ].
Defined.

(** ** The console: what a write restarts *)

(** X14.  The write form of the five commands that set one member, and
    the links.  Every one of them drops the link to the broker.  The
    command device-name restarts both links: both retry timers are zeroed
    and WiFi is disconnected.  The commands mqtt-server, mqtt-id and
    mqtt-status-topic zero the timer of the broker link and leave WiFi
    alone.  The command mqtt-control-topic zeroes neither timer: with a
    broker address set and the last attempt less than 60000 ms back, the
    calls of [EnsureMQTT] that find the link down make no attempt, and so
    no subscription to the new topic, until the retry falls due. *)
Theorem write_command_restarts f name v c d :
  command_of f = Some name -> tokenb v = true ->
  bt_line c = Some (lit name ++ 32 :: v) ->
  exists d' out,
    PollBluetoothCommand c d = Done tt d' out
    /\ In mqtt_disconnect out
    /\ (In WiFi_disconnect out <-> f = f_device_name)
    /\ wifi_last_try d'
       = (match f with f_device_name => 0 | _ => wifi_last_try d end)
    /\ mqtt_last_try d'
       = (match f with f_mqtt_control_topic => mqtt_last_try d | _ => 0 end)
    /\ (f = f_mqtt_control_topic ->
        forall state now success,
          state <> MQTT_CONNECTED ->
          (0 < strlen (mqtt_server (settings d)))%nat ->
          mqtt_last_try d <> 0 ->
          elapsed now (mqtt_last_try d) < 60000 ->
          mqtt_attempts (output (EnsureMQTT state now success d')) = 0%nat).
Proof.
  intros C T L. unfold PollBluetoothCommand. rewrite L.
  destruct f; simpl in C; inversion C; subst name; clear C;
    (rewrite command_line_plain by (reflexivity || exact T));
    (rewrite tokenSplit_first by reflexivity);
    repeat dispatch_step;
    rewrite (tokenSplit_last v T); cbv beta iota;
    rewrite (bind_done _ _ _ _ _ _ (SettingsReadWriteHelper_write _ _ v d));
    cbn [when];
    match goal with
    | |- context [set_settings ?s d] => set (d1 := set_settings s d)
    end;
    eexists _, _; (split; [ reflexivity | ]);
    (split; [ simpl; tauto | ]);
    (split; [ simpl; split; intros H; try reflexivity; try discriminate;
              try tauto;
              repeat (destruct H as [ H | H ]; try discriminate);
              try contradiction | ]);
    (split; [ subst d1; now destruct d | ]);
    (split; [ subst d1; now destruct d | ]);
    intros F; try discriminate.
  intros state now success S Srv Z E.
  destruct (EnsureMQTT_retry state now success d1 S) as [o [R [A _]]].
  - subst d1. rewrite settings_set_settings.
    now destruct (settings d).
  - assert (Q : mqtt_last_try d1 = mqtt_last_try d)
      by (subst d1; now destruct d).
    rewrite Q in A, R.
    apply Z.eqb_neq in Z. apply Z.leb_gt in E. rewrite Z, E in A, R.
    cbn [orb] in A, R. rewrite R. exact A.
Qed.

Lemma write_command_restarts_new_topic :
  exists d' out,
    PollBluetoothCommand (typed (lit "mqtt-control-topic sw/new"))
      (set_mqtt_last_try 5000 configured)
    = Done tt d' out
    /\ mqtt_last_try d' = 5000
    /\ mqtt_attempts (output (EnsureMQTT MQTT_DISCONNECTED 20000 true d'))
       = 0%nat.
Proof.
  destruct (write_command_restarts f_mqtt_control_topic "mqtt-control-topic"
              (lit "sw/new") (typed (lit "mqtt-control-topic sw/new"))
              (set_mqtt_last_try 5000 configured) eq_refl eq_refl eq_refl)
    as [d' [out [E [_ [_ [_ [M N]]]]]]].
  exists d', out. split; [ exact E | ]. split; [ exact M | ].
  apply N;
    [ reflexivity | discriminate | vm_compute; lia | discriminate
    | vm_compute; reflexivity ].
Defined.

(** ** The console: what the commands do to the settings *)

Lemma kept_dispatch a b (X Y : M unit) d :
  settings_kept_in_step X d -> settings_kept_in_step Y d ->
  settings_kept_in_step
    (r <- strcmp_at (Some a) b ;; if r =? 0 then X else Y) d.
Proof.
  intros HX HY. unfold settings_kept_in_step in *.
  change (strcmp_at (Some a) b) with (ret (strcmp a b)).
  rewrite bind_ret. now destruct (strcmp a b =? 0).
Qed.

Lemma settings_post_same d d' o :
  settings d' = settings d -> saves o = [] -> settings_post d d' o.
Proof. intros E S. unfold settings_post. rewrite E. repeat split; auto. Qed.

Lemma settings_post_refl d o : saves o = [] -> settings_post d d o.
Proof. now apply settings_post_same. Qed.

Lemma port_ok_store f v s : port_ok (store f v s) = port_ok s.
Proof. now destruct s, f. Qed.

Lemma header_store f v s : header (store f v s) = header s.
Proof. now destruct s, f. Qed.

Lemma port_ok_store_port p s :
  (p <? 1) || (UINT16_MAX <? p) = false -> port_ok (store_port p s) = true.
Proof.
  intros T. apply orb_false_iff in T as [T1 T2].
  apply Z.ltb_ge in T1, T2. destruct s. unfold port_ok. simpl.
  apply andb_true_iff. split; now apply Z.leb_le.
Qed.

Ltac run_command :=
  unfold settings_kept_in_step, SettingsReadWriteHelper, poke, SaveSettings,
    RestartWiFi, RestartMQTT, PrintHelp;
  repeat first [ rewrite bind_assoc | rewrite bind_upd | rewrite bind_get
               | rewrite bind_ret | rewrite bind_emit ];
  cbn [when negb].

Lemma kept_helper f name (k : M unit) d :
  (forall d1, k d1 = Done tt (set_mqtt_last_try 0 d1) [mqtt_disconnect]
              \/ k d1 = Done tt d1 [mqtt_disconnect]
              \/ k d1 = Done tt (set_wifi_last_try 0 (set_mqtt_last_try 0 d1))
                          [mqtt_disconnect; WiFi_disconnect]) ->
  settings_kept_in_step
    (changed <- SettingsReadWriteHelper f (sizeof f) name ;; when changed k) d.
Proof.
  intros K. unfold settings_kept_in_step. destruct name as [ v | ].
  - rewrite (bind_done _ _ _ _ _ _ (SettingsReadWriteHelper_write f _ v d)).
    cbn [when].
    set (d1 := set_settings _ d).
    assert (H1 : header (settings d1) = header (settings d))
      by (subst d1; now rewrite settings_set_settings, header_store).
    assert (P1 : port_ok (settings d1) = port_ok (settings d))
      by (subst d1; now rewrite settings_set_settings, port_ok_store).
    destruct (K d1) as [ E | [ E | E ] ]; rewrite E;
      (split; [ | split ]);
      rewrite ?settings_after_restart_wifi, ?settings_after_restart_mqtt;
      try assumption; try congruence; right; reflexivity.
  - rewrite (bind_done _ _ _ _ _ _ (SettingsReadWriteHelper_read f _ d)).
    cbn [when]. now apply settings_post_refl.
Qed.

Lemma kept_command c d : settings_kept_in_step (PollBluetoothCommand c) d.
Proof.
  unfold PollBluetoothCommand.
  destruct (bt_line c) as [ input | ];
    [ | now apply settings_post_refl ].
  destruct (tokenSplit (Some (cstr input))) as [[ cmd | ] ptr];
    [ | exact I ].
  repeat apply kept_dispatch.
  - (* help *)
    now apply settings_post_refl.
  - apply settings_post_same; [ now destruct d | reflexivity ].
  - apply settings_post_same; [ now destruct d | reflexivity ].
  - run_command. now apply settings_post_refl.
  - destruct (tokenSplit ptr) as [name ptr'].
    apply kept_helper. intros d1. right. right. reflexivity.
  - now apply settings_post_refl.
  - destruct (tokenSplit ptr) as [name ptr'].
    apply kept_helper. intros d1. left. reflexivity.
  - (* mqtt-port *)
    destruct (tokenSplit ptr) as [[ port | ] ptr'].
    + destruct ((atoi port <? 1) || (UINT16_MAX <? atoi port)) eqn:T.
      * now apply settings_post_refl.
      * run_command. rewrite settings_set_settings.
        split; [ | split ].
        -- rewrite settings_after_restart_mqtt, settings_set_settings.
           now destruct (settings d).
        -- intros _. rewrite settings_after_restart_mqtt, settings_set_settings.
           now apply port_ok_store_port.
        -- right.
           now rewrite settings_after_restart_mqtt, settings_set_settings.
    + run_command. now apply settings_post_refl.
  - destruct (tokenSplit ptr) as [name ptr'].
    apply kept_helper. intros d1. left. reflexivity.
  - (* mqtt-auth *)
    destruct (tokenSplit ptr) as [[ user | ] ptr'].
    + destruct (tokenSplit ptr') as [[ password | ] ptr''];
        run_command; rewrite !settings_set_settings;
        (split; [ | split ]);
        rewrite ?settings_after_restart_mqtt, ?settings_set_settings,
          ?header_store, ?port_ok_store;
        try reflexivity; try (intros P; exact P); right; reflexivity.
    + now apply settings_post_refl.
  - destruct (tokenSplit ptr) as [name ptr'].
    apply kept_helper. intros d1. right. left. reflexivity.
  - destruct (tokenSplit ptr) as [name ptr'].
    apply kept_helper. intros d1. left. reflexivity.
  - (* wifi *)
    destruct (tokenSplit ptr) as [[ ssid | ] ptr'].
    + destruct (tokenSplit ptr') as [[ password | ] ptr''];
        run_command; rewrite !settings_set_settings;
        (split; [ | split ]);
        rewrite ?settings_after_restart_wifi, ?settings_set_settings,
          ?header_store, ?port_ok_store;
        try reflexivity; try (intros P; exact P); right; reflexivity.
    + now apply settings_post_refl.
  - (* wifi-status *)
    destruct (WiFi_getMode c =? WIFI_OFF);
      [ now apply settings_post_refl | ].
    destruct (negb (wl_status_eqb (WiFi_status_now c) WL_CONNECTED));
      now apply settings_post_refl.
  - now apply settings_post_refl.
Qed.

(** ** The settings in memory and the settings saved *)

Lemma settings_same_refl d : settings_same d d.
Proof. reflexivity. Qed.

Lemma settings_same_trans a b c :
  settings_same a b -> settings_same b c -> settings_same a c.
Proof. unfold settings_same. congruence. Qed.

Ltac quiet_frame lemmas :=
  pose proof settings_same_refl as Hrefl;
  pose proof settings_same_trans as Htrans;
  repeat frame_step ltac:(reflexivity) lemmas.

Lemma not_save_saves out : forallb not_save out = true -> saves out = [].
Proof.
  unfold saves, not_save.
  induction out as [ | e out IH ]; simpl; [ reflexivity | ].
  intros H. apply andb_true_iff in H as [H1 H2].
  apply negb_true_iff in H1. rewrite H1. now apply IH.
Qed.

Lemma saves_app a b : saves (a ++ b) = saves a ++ saves b.
Proof. apply filter_app. Qed.

(** A part that leaves the settings alone and saves nothing, before or
    after a part that keeps them in step. *)
Lemma kept_after_quiet {A B} C (m : M A) (k : A -> M B) d :
  keeps_at settings_same not_save C m d ->
  (forall a d1, settings d1 = settings d -> settings_kept_in_step (k a) d1) ->
  settings_kept_in_step (bind m k) d.
Proof.
  unfold keeps_at, settings_kept_in_step, bind. intros Hm Hk.
  destruct (m d) as [a d1 o1 | f o1]; [ | exact I ].
  destruct Hm as [R1 Q1]. specialize (Hk a d1 R1).
  apply not_save_saves in Q1.
  destruct (k a d1) as [b d2 o2 | f o2]; [ | exact I ].
  unfold settings_post in *. rewrite saves_app, Q1. simpl.
  now rewrite <- R1.
Qed.

Lemma kept_before_quiet {A B} C (m : M A) (k : A -> M B) d :
  settings_kept_in_step m d ->
  (forall a, keeps settings_same not_save C (k a)) ->
  settings_kept_in_step (bind m k) d.
Proof.
  unfold keeps, keeps_at, settings_kept_in_step, bind. intros Hm Hk.
  destruct (m d) as [a d1 o1 | f o1]; [ | exact I ].
  specialize (Hk a d1).
  destruct (k a d1) as [b d2 o2 | f o2]; [ | exact I ].
  destruct Hk as [R2 Q2].
  apply not_save_saves in Q2.
  unfold settings_post, settings_same in *.
  rewrite saves_app, Q2, app_nil_r. now rewrite R2.
Qed.

Lemma kept_get {A B} (proj : Device -> A) (k : A -> M B) d :
  settings_kept_in_step (k (proj d)) d ->
  settings_kept_in_step (bind (get proj) k) d.
Proof. unfold settings_kept_in_step. now rewrite bind_get. Qed.

Lemma quiet_deliver C inbound :
  keeps settings_same not_save C (deliver inbound).
Proof.
  induction inbound as [ | [topic payload] rest IH ]; simpl;
    unfold MQTTCallback; quiet_frame ltac:(exact IH).
Qed.

Lemma kept_loop i d : settings_kept_in_step (loop i) d.
Proof.
  unfold loop.
  apply kept_get.
  apply (kept_after_quiet False);
    [ apply keeps_pointwise; quiet_frame fail | ].
  intros _ d1 _. apply kept_get. apply kept_get.
  apply (kept_after_quiet False);
    [ apply keeps_pointwise; quiet_frame fail | ].
  intros _ d2 _. apply kept_get.
  apply (kept_before_quiet False).
  - destruct (bluetooth_enable d2); cbn [when];
      [ | now apply settings_post_refl ].
    apply (kept_before_quiet False); [ apply kept_command | ].
    intros _. unfold PrintHelp. quiet_frame fail.
  - intros _.
    unfold EnsureWiFi, EnsureMQTT, PublishStatus, mqtt_loop_call.
    quiet_frame ltac:(apply quiet_deliver).
Qed.

Lemma bind_done_inv {A B} (m : M A) (k : A -> M B) d b d2 o :
  bind m k d = Done b d2 o ->
  exists a d1 o1 o2,
    m d = Done a d1 o1 /\ k a d1 = Done b d2 o2 /\ o = o1 ++ o2.
Proof.
  unfold bind. destruct (m d) as [a d1 o1 | f o1]; [ | discriminate ].
  destruct (k a d1) as [b' d2' o2 | f o2] eqn:K; [ | discriminate ].
  intros H. inversion H. subst. now exists a, d1, o1, o2.
Qed.

Lemma saves_are_saves out s : In (EEPROM_put s) out <-> In (EEPROM_put s) (saves out).
Proof.
  unfold saves. rewrite filter_In. split; [ now split | now intros [H _] ].
Qed.

(** X15.  The settings in memory and the settings saved stay in step
    through any run of the loop that comes to its end.  The header never
    changes and a port from 1 to 65535 stays in that range.  If nothing
    was handed to [EEPROM.put], the settings are as they were; otherwise
    the record handed over last is the settings the run ends with.  Every
    record handed over carries the header the run began with and, if the
    port was in range, a port in range. *)
Theorem settings_saved_when_changed iterations : forall d d' out,
  run iterations d = Done tt d' out ->
  header (settings d') = header (settings d)
  /\ (port_ok (settings d) = true -> port_ok (settings d') = true)
  /\ (saves out = [] -> settings d' = settings d)
  /\ (forall before e,
         saves out = before ++ [e] -> e = EEPROM_put (settings d'))
  /\ (forall s,
         In (EEPROM_put s) out ->
         header s = header (settings d)
         /\ (port_ok (settings d) = true -> port_ok s = true)).
Proof.
  induction iterations as [ | i rest IH ]; intros d d' out E.
  - inversion E. subst. repeat split; try tauto.
    + intros before e H. now destruct before.
    + contradiction.
    + contradiction.
  - simpl in E. apply bind_done_inv in E as [[] [d1 [o1 [o2 [E1 [E2 ->]]]]]].
    pose proof (kept_loop i d) as K. unfold settings_kept_in_step in K.
    rewrite E1 in K. destruct K as [H1 [P1 S1]].
    destruct (IH d1 d' o2 E2) as [H2 [P2 [N2 [L2 A2]]]].
    split; [ congruence | ]. split; [ tauto | ].
    rewrite saves_app. split; [ | split ].
    + intros N. apply app_eq_nil in N as [Na Nb].
      destruct S1 as [ [_ S1] | S1 ]; [ | rewrite S1 in Na; discriminate ].
      rewrite (N2 Nb). exact S1.
    + intros before e H.
      destruct (saves o2) as [ | x xs ] eqn:S2.
      * rewrite app_nil_r in H. rewrite (N2 eq_refl).
        destruct S1 as [ [S1 _] | S1 ]; rewrite S1 in H.
        -- symmetry in H. apply app_eq_nil in H as [_ H]. discriminate.
        -- change [EEPROM_put (settings d1)]
             with ([] ++ [EEPROM_put (settings d1)]) in H.
           now apply app_inj_tail in H as [_ <-].
      * destruct (@exists_last _ (x :: xs)) as [front [y Y]];
          [ discriminate | ].
        rewrite Y, app_assoc in H.
        apply app_inj_tail in H as [_ <-].
        now apply (L2 front y).
    + intros s I. apply in_app_or in I as [ I | I ].
      * apply saves_are_saves in I.
        destruct S1 as [ [S1 _] | S1 ]; rewrite S1 in I;
          [ contradiction | ].
        destruct I as [ I | [] ]. inversion I. subst s. tauto.
      * destruct (A2 s I) as [A B]. split; [ congruence | tauto ].
Qed.

Lemma settings_saved_when_changed_two_commands :
  match
    run [typing (lit "mqtt-port 8883") 100; typing (lit "wifi home secret") 200]
      (set_bluetooth_enable true reset)
  with
  | Done _ d' out =>
      length (saves out) = 2%nat
      /\ mqtt_port (settings d') = 8883
      /\ header (settings d') = SETTINGS_HEADER
      /\ forall before e,
           saves out = before ++ [e] -> e = EEPROM_put (settings d')
  | Crash _ _ => False
  end.
Proof.
  destruct (run [typing (lit "mqtt-port 8883") 100;
                 typing (lit "wifi home secret") 200]
              (set_bluetooth_enable true reset))
    as [[] d' out | f out] eqn:E.
  - destruct (settings_saved_when_changed _ _ _ _ E) as [H [_ [_ [L _]]]].
    vm_compute in E. inversion E. subst.
    split; [ reflexivity | ]. split; [ reflexivity | ].
    split; [ reflexivity | ]. exact L.
  - vm_compute in E. discriminate.
Defined.

(** ** The loop: reconciling the power state *)

Lemma reconciled_kept_refl d : reconciled_kept d d.
Proof. now split. Qed.

Lemma reconciled_kept_trans a b c :
  reconciled_kept a b -> reconciled_kept b c -> reconciled_kept a c.
Proof. unfold reconciled_kept. intros [A1 A2] [B1 B2]. split; congruence. Qed.

Ltac reconciled_frame lemmas :=
  pose proof reconciled_kept_refl as Hrefl;
  pose proof reconciled_kept_trans as Htrans;
  repeat frame_step ltac:(now split) lemmas.

Lemma not_relay_write_writes out :
  forallb not_relay_write out = true -> relay_writes out = [].
Proof.
  unfold relay_writes, not_relay_write.
  induction out as [ | e out IH ]; simpl; [ reflexivity | ].
  intros H. apply andb_true_iff in H as [H1 H2].
  apply negb_true_iff in H1. rewrite H1. now apply IH.
Qed.

Lemma relay_writes_app a b :
  relay_writes (a ++ b) = relay_writes a ++ relay_writes b.
Proof. apply filter_app. Qed.

Lemma reconciled_with_after p d' o1 o2 :
  forallb not_relay_write o1 = true ->
  reconciled_with p d' o2 -> reconciled_with p d' (o1 ++ o2).
Proof.
  intros Q [A [B [C D]]]. unfold reconciled_with.
  rewrite relay_writes_app, (not_relay_write_writes o1 Q). simpl.
  repeat split; try assumption.
  intros N T. destruct (D N T) as [before ->].
  exists (o1 ++ before). now rewrite app_assoc.
Qed.

Lemma ends_with_get {A B} P (proj : Device -> A) (k : A -> M B) d :
  ends_with P (k (proj d)) d -> ends_with P (bind (get proj) k) d.
Proof. unfold ends_with. now rewrite bind_get. Qed.

(** A first part that leaves the statics of the reconciliation alone and
    does not write the relay pin, then a second part. *)
Lemma reconciled_after {A B} C p (m : M A) (k : A -> M B) d :
  keeps_at reconciled_kept not_relay_write C m d ->
  (forall a d1, reconciled_kept d d1 -> ends_with (reconciled_with p) (k a) d1) ->
  ends_with (reconciled_with p) (bind m k) d.
Proof.
  unfold keeps_at, ends_with, bind. intros Hm Hk.
  destruct (m d) as [a d1 o1 | f o1]; [ | exact I ].
  destruct Hm as [R1 Q1]. specialize (Hk a d1 R1).
  destruct (k a d1) as [b d2 o2 | f o2]; [ | exact I ].
  now apply reconciled_with_after.
Qed.

Lemma PublishStatus_run d :
  PublishStatus d
  = Done tt d (if (0 <? strlen (mqtt_status_topic (settings d)))%nat
               then [status_message d] else []).
Proof.
  unfold PublishStatus. rewrite bind_get.
  destruct (0 <? strlen (mqtt_status_topic (settings d)))%nat; cbn [when];
    [ rewrite bind_get | ]; reflexivity.
Qed.

(** The last statement of [loop]. *)
Lemma reconcile_ends p d :
  last_power_enable d = p -> loop_entered d = true ->
  ends_with (reconciled_with p)
    (pe <- get power_enable ;;
     lp <- get last_power_enable ;;
     when (negb (Bool.eqb pe lp))
       (upd (set_last_power_enable pe) ;;
        emit (digitalWrite POWER_PIN pe) ;;
        emit (Serial_println (if pe then lit "Power on." else lit "Power off.")) ;;
        PublishStatus)) d.
Proof.
  intros L E. unfold ends_with. rewrite !bind_get. rewrite L.
  destruct (Bool.eqb (power_enable d) p) eqn:Q; cbn [negb when].
  - apply eqb_prop in Q. change (reconciled_with p d []).
    unfold reconciled_with.
    rewrite Q, eqb_reflx. repeat split; congruence.
  - rewrite bind_upd, !bind_emit, PublishStatus_run.
    destruct d as [s pe be bem wlt mlt ls lst bp bpm lb bd lc le lpe lbe].
    cbn [power_enable last_power_enable loop_entered settings
         set_last_power_enable] in *.
    unfold reconciled_with.
    cbn [power_enable last_power_enable loop_entered settings].
    rewrite Q.
    split; [ reflexivity | ]. split; [ assumption | ].
    split.
    + destruct (0 <? strlen (mqtt_status_topic s))%nat; reflexivity.
    + intros _ T. apply Nat.ltb_lt in T. rewrite T.
      eexists [_; _]. reflexivity.
Qed.

Lemma relay_kept_deliver C inbound :
  keeps reconciled_kept not_relay_write C (deliver inbound).
Proof.
  induction inbound as [ | [topic payload] rest IH ]; simpl;
    unfold MQTTCallback; reconciled_frame ltac:(exact IH).
Qed.

Lemma relay_kept_command c :
  keeps reconciled_kept not_relay_write True (PollBluetoothCommand c).
Proof.
  unfold PollBluetoothCommand, strcmp_at, PrintHelp, SettingsReadWriteHelper,
    poke, SaveSettings, RestartWiFi, RestartMQTT.
  reconciled_frame fail.
Qed.

Lemma loop_reconciled i d :
  ends_with
    (reconciled_with
       (if loop_entered d then last_power_enable d else power_enable d))
    (loop i) d.
Proof.
  unfold loop, PrintHelp.
  set (p := if loop_entered d then last_power_enable d else power_enable d).
  apply ends_with_get.
  assert (Rest : forall (k : M unit),
             (forall d1, last_power_enable d1 = p -> loop_entered d1 = true ->
                         ends_with (reconciled_with p) k d1) ->
             ends_with (reconciled_with p)
               (when (negb (loop_entered d))
                  (pe <- get power_enable ;;
                   upd (set_last_power_enable pe) ;;
                   b <- get bluetooth_enable ;;
                   upd (set_last_bluetooth_enable b) ;;
                   upd (set_loop_entered true)) ;; k) d).
  { intros k Hk. unfold ends_with. subst p.
    destruct (loop_entered d) eqn:E; cbn [negb when].
    - rewrite bind_ret. now apply Hk.
    - rewrite bind_assoc, bind_get, bind_assoc, bind_upd, bind_assoc, bind_get,
        bind_assoc, !bind_upd.
      apply Hk; now destruct d. }
  apply Rest. clear Rest. intros d1 L1 E1.
  apply ends_with_get. apply ends_with_get.
  apply (reconciled_after True);
    [ apply keeps_pointwise; reconciled_frame fail | ].
  intros _ d2 [L2 E2]. apply ends_with_get.
  apply (reconciled_after True);
    [ apply keeps_pointwise;
      reconciled_frame ltac:(apply relay_kept_command) | ].
  intros _ d3 [L3 E3].
  apply (reconciled_after True);
    [ apply keeps_pointwise; unfold EnsureWiFi; reconciled_frame fail | ].
  intros wifi d4 [L4 E4].
  apply (reconciled_after True);
    [ apply keeps_pointwise;
      unfold EnsureMQTT, PublishStatus, mqtt_loop_call;
      reconciled_frame ltac:(apply relay_kept_deliver) | ].
  intros _ d5 [L5 E5].
  apply ends_with_get. apply ends_with_get.
  apply (reconciled_after True);
    [ apply keeps_pointwise; reconciled_frame fail | ].
  intros _ d6 [L6 E6].
  apply reconcile_ends; congruence.
Qed.

(** X16.  Every iteration of [loop] that comes to its end leaves the
    power state reconciled: the static [last_power_enable] agrees with
    [power_enable].  The relay pin is written in the iteration once, with
    the power state it ends with, when that differs from the state
    reconciled last (on the first call, the power state at entry), and is
    not written otherwise, whatever the console, the broker and the link
    supervisors did.  When it is written and a status topic is set, the
    last call of the iteration is the retained publish of that power
    state. *)
Theorem loop_reconciles_power i d d' out :
  loop i d = Done tt d' out ->
  let reconciled :=
    if loop_entered d then last_power_enable d else power_enable d in
  last_power_enable d' = power_enable d'
  /\ loop_entered d' = true
  /\ relay_writes out
     = (if Bool.eqb (power_enable d') reconciled then []
        else [digitalWrite POWER_PIN (power_enable d')])
  /\ (power_enable d' <> reconciled ->
      (0 < strlen (mqtt_status_topic (settings d')))%nat ->
      exists before, out = before ++ [status_message d']).
Proof.
  intros E. pose proof (loop_reconciled i d) as K.
  unfold ends_with in K. rewrite E in K. exact K.
Qed.

Lemma loop_reconciles_power_console_on :
  match loop (typing (lit "on") 100) (set_bluetooth_enable true configured) with
  | Done _ d' out =>
      power_enable d' = true
      /\ relay_writes out = [digitalWrite POWER_PIN true]
      /\ exists before,
           out = before ++ [mqtt_publish (lit "sw/state") (lit "ON") true]
  | Crash _ _ => False
  end.
Proof.
  destruct (loop (typing (lit "on") 100) (set_bluetooth_enable true configured))
    as [[] d' out | f out] eqn:E.
  - destruct (loop_reconciles_power _ _ _ _ E) as [_ [_ [W P]]].
    vm_compute in E. inversion E. subst. clear E.
    split; [ reflexivity | ]. split; [ exact W | ].
    apply P; [ discriminate | vm_compute; lia ].
  - vm_compute in E. discriminate.
Defined.

(** ** The relay through a run *)




(** ** The loop: the link supervisors and the blink *)

Lemma blink_kept_refl d : blink_kept d d.
Proof. now split. Qed.

Lemma blink_kept_trans a b c :
  blink_kept a b -> blink_kept b c -> blink_kept a c.
Proof. unfold blink_kept. intros [A1 A2] [B1 B2]. split; congruence. Qed.

Ltac blink_frame lemmas :=
  pose proof blink_kept_refl as Hrefl;
  pose proof blink_kept_trans as Htrans;
  repeat frame_step ltac:(now split) lemmas.

Lemma wifi_attempts_app a b :
  wifi_attempts (a ++ b) = (wifi_attempts a + wifi_attempts b)%nat.
Proof. unfold wifi_attempts. now rewrite filter_app, length_app. Qed.

Lemma mqtt_attempts_app a b :
  mqtt_attempts (a ++ b) = (mqtt_attempts a + mqtt_attempts b)%nat.
Proof. unfold mqtt_attempts. now rewrite filter_app, length_app. Qed.

Lemma bus_polls_app a b : bus_polls (a ++ b) = (bus_polls a + bus_polls b)%nat.
Proof. unfold bus_polls. now rewrite filter_app, length_app. Qed.

Lemma led_writes_app a b : led_writes (a ++ b) = led_writes a ++ led_writes b.
Proof. apply filter_app. Qed.

Lemma no_link_call_tally out :
  forallb no_link_call out = true ->
  wifi_attempts out = 0%nat /\ mqtt_attempts out = 0%nat
  /\ bus_polls out = 0%nat /\ led_writes out = [].
Proof.
  unfold wifi_attempts, mqtt_attempts, bus_polls, led_writes, no_link_call.
  induction out as [ | e out IH ]; simpl; [ now repeat split | ].
  intros H. apply andb_true_iff in H as [H1 H2].
  destruct (IH H2) as [A [B [C D]]].
  apply andb_true_iff in H1 as [H1 H6]. apply andb_true_iff in H1 as [H1 H5].
  apply andb_true_iff in H1 as [H3 H4].
  apply negb_true_iff in H3, H4, H5, H6. rewrite H3, H4, H5, H6.
  now repeat split.
Qed.

Lemma tiers_after_quiet i since d' o1 o2 :
  forallb no_link_call o1 = true ->
  tiers i since d' o2 -> tiers i since d' (o1 ++ o2).
Proof.
  intros Q. apply no_link_call_tally in Q as [A [B [C D]]].
  unfold tiers.
  rewrite wifi_attempts_app, mqtt_attempts_app, bus_polls_app, led_writes_app,
    A, B, C, D.
  simpl. tauto.
Qed.

Lemma tiers_after {A B} C i since (m : M A) (k : A -> M B) d :
  keeps_at blink_kept no_link_call C m d ->
  (forall a d1, blink_kept d d1 -> ends_with (tiers i since) (k a) d1) ->
  ends_with (tiers i since) (bind m k) d.
Proof.
  unfold keeps_at, ends_with, bind. intros Hm Hk.
  destruct (m d) as [a d1 o1 | f o1]; [ | exact I ].
  destruct Hm as [R1 Q1]. specialize (Hk a d1 R1).
  destruct (k a d1) as [b d2 o2 | f o2]; [ | exact I ].
  now apply tiers_after_quiet.
Qed.

(** Sequencing: what the first part returns and leaves is known. *)
Lemma ends_with_returns {A B} V P (m : M A) (k : A -> M B) d :
  returns V m d ->
  (forall a d1 o1,
      V a d1 o1 -> ends_with (fun d2 o2 => P d2 (o1 ++ o2)) (k a) d1) ->
  ends_with P (bind m k) d.
Proof.
  unfold returns, ends_with, bind. intros Hm Hk.
  destruct (m d) as [a d1 o1 | f o1]; [ | exact I ].
  specialize (Hk a d1 o1 Hm).
  now destruct (k a d1) as [b d2 o2 | f o2].
Qed.

Lemma returns_kept {A} R Q C (m : M A) d :
  keeps_at R Q C m d ->
  returns (fun _ d1 o1 => R d d1 /\ forallb Q o1 = true) m d.
Proof.
  unfold keeps_at, returns. now destruct (m d).
Qed.

(** What [EnsureWiFi] returns. *)
Lemma EnsureWiFi_value status now d :
  returns
    (fun r d1 o =>
       r = wl_status_eqb status WL_CONNECTED
       /\ last_blink d1 = last_blink d
       /\ mqtt_attempts o = 0%nat /\ bus_polls o = 0%nat /\ led_writes o = []
       /\ (status = WL_CONNECTED -> wifi_attempts o = 0%nat))
    (EnsureWiFi status now) d.
Proof.
  destruct d as [s pe be bem wlt mlt ls lst bp bpm lb bd lc le lpe lbe].
  unfold returns.
  destruct (wl_status_eqb status ls) eqn:L;
    destruct (wl_status_eqb status WL_CONNECTED) eqn:C;
    destruct (strlen (wifi_ssid s) =? 0)%nat eqn:S;
    destruct ((wlt =? 0) || (60000 <=? elapsed now wlt)) eqn:K;
    run_supervisor; decide_tests;
    repeat split; intros X; try reflexivity;
    apply wl_status_eqb_eq in X; congruence.
Qed.

(** What [EnsureMQTT] returns. *)
Lemma EnsureMQTT_value state now success d :
  returns
    (fun r d1 o =>
       last_blink d1 = last_blink d
       /\ wifi_attempts o = 0%nat /\ bus_polls o = 0%nat /\ led_writes o = []
       /\ ((state = MQTT_CONNECTED /\ r = true /\ mqtt_attempts o = 0%nat)
           \/ (state <> MQTT_CONNECTED /\ r = false)
           \/ (state <> MQTT_CONNECTED /\ r = true /\ success = true
               /\ mqtt_attempts o = 1%nat)))
    (EnsureMQTT state now success) d.
Proof.
  destruct d as [s pe be bem wlt mlt ls lst bp bpm lb bd lc le lpe lbe].
  unfold returns.
  destruct (state =? MQTT_CONNECTED) eqn:C.
  - pose proof C as C'. apply Z.eqb_eq in C'.
    destruct (state =? lst) eqn:L;
      destruct (0 <? strlen (mqtt_status_topic s))%nat eqn:T;
      run_supervisor; decide_tests;
      (split; [ reflexivity | ]); (split; [ reflexivity | ]);
      (split; [ reflexivity | ]); (split; [ reflexivity | ]);
      left; repeat split; assumption.
  - pose proof C as C'. apply Z.eqb_neq in C'.
    destruct (state =? lst) eqn:L;
      destruct (strlen (mqtt_server s) =? 0)%nat eqn:S;
      destruct ((mlt =? 0) || (60000 <=? elapsed now mlt)) eqn:K;
      destruct (strlen (mqtt_user s) =? 0)%nat eqn:U;
      destruct success;
      destruct (0 <? strlen (mqtt_control_topic s))%nat eqn:G;
      run_supervisor; decide_tests; cbn [andb];
      (split; [ reflexivity | ]); (split; [ reflexivity | ]);
      (split; [ reflexivity | ]); (split; [ reflexivity | ]);
      first [ right; left; split; [ assumption | reflexivity ]
            | right; right; repeat split; assumption ].
Qed.

Lemma ends_with_of_returns {A} V P (m : M A) d :
  returns V m d -> (forall a d1 o1, V a d1 o1 -> P d1 o1) -> ends_with P m d.
Proof.
  unfold returns, ends_with. intros Hm HP.
  destruct (m d) as [a d1 o1 | f o1]; [ now apply (HP a) | exact I ].
Qed.

Lemma ends_with_assoc {A B C} P (m : M A) (k1 : A -> M B) (k2 : B -> M C) d :
  ends_with P (bind m (fun a => bind (k1 a) k2)) d ->
  ends_with P (bind (bind m k1) k2) d.
Proof. unfold ends_with. now rewrite bind_assoc. Qed.

Lemma ends_with_upd {B} P (f : Device -> Device) (k : unit -> M B) d :
  ends_with P (k tt) (f d) -> ends_with P (bind (upd f) k) d.
Proof. unfold ends_with. now rewrite bind_upd. Qed.

Lemma blink_kept_deliver C inbound :
  keeps blink_kept no_link_call C (deliver inbound).
Proof.
  induction inbound as [ | [topic payload] rest IH ]; simpl;
    unfold MQTTCallback; blink_frame ltac:(exact IH).
Qed.

Lemma blink_kept_command c :
  keeps blink_kept no_link_call True (PollBluetoothCommand c).
Proof.
  unfold PollBluetoothCommand, strcmp_at, PrintHelp, SettingsReadWriteHelper,
    poke, SaveSettings, RestartWiFi, RestartMQTT.
  blink_frame fail.
Qed.

(** The blink, the delay being one of the three. *)
Lemma blink_returns i delay since d :
  (delay =? 0) = false ->
  returns
    (fun _ d1 o =>
       blink_delay d1 = blink_delay d
       /\ last_blink d1
          = (if delay <=? elapsed (millis_blink i) since
             then millis_blink_set i else last_blink d)
       /\ wifi_attempts o = 0%nat /\ mqtt_attempts o = 0%nat
       /\ bus_polls o = 0%nat
       /\ led_writes o
          = (if delay <=? elapsed (millis_blink i) since
             then [digitalWrite STATUS_LED (negb (led i))] else []))
    (if delay =? 0 then emit (digitalWrite STATUS_LED true)
     else
       when (delay <=? elapsed (millis_blink i) since)
         (upd (set_last_blink (millis_blink_set i)) ;;
          emit (digitalWrite STATUS_LED (negb (led i))))) d.
Proof.
  intros Z. rewrite Z. unfold returns.
  destruct (delay <=? elapsed (millis_blink i) since); cbn [when].
  - rewrite bind_upd. destruct d. cbn. now repeat split.
  - cbn. now repeat split.
Qed.

(** The statements of [loop] after the link supervisors. *)
Lemma loop_blinks i since delay (P : Device -> list event -> Prop) d :
  (delay =? 0) = false ->
  blink_delay d = delay -> last_blink d = since ->
  (forall d' o,
      blink_delay d' = delay ->
      last_blink d'
      = (if delay <=? elapsed (millis_blink i) since
         then millis_blink_set i else since) ->
      wifi_attempts o = 0%nat -> mqtt_attempts o = 0%nat ->
      bus_polls o = 0%nat ->
      led_writes o
      = (if delay <=? elapsed (millis_blink i) since
         then [digitalWrite STATUS_LED (negb (led i))] else []) ->
      P d' o) ->
  ends_with P
    (delay <- get blink_delay ;;
     since <- get last_blink ;;
     (if delay =? 0 then emit (digitalWrite STATUS_LED true)
      else
        when (delay <=? elapsed (millis_blink i) since)
          (upd (set_last_blink (millis_blink_set i)) ;;
           emit (digitalWrite STATUS_LED (negb (led i))))) ;;
     p <- get power_enable ;;
     lp <- get last_power_enable ;;
     when (negb (Bool.eqb p lp))
       (upd (set_last_power_enable p) ;;
        emit (digitalWrite POWER_PIN p) ;;
        emit (Serial_println (if p then lit "Power on." else lit "Power off.")) ;;
        PublishStatus)) d.
Proof.
  intros Z D S HP.
  apply ends_with_get. apply ends_with_get. rewrite D, S.
  apply (ends_with_returns _ _ _ _ _ (blink_returns i delay since d Z)).
  intros _ d1 o1 [D1 [S1 [W1 [M1 [B1 L1]]]]].
  eapply ends_with_of_returns.
  - apply (returns_kept blink_kept no_link_call True).
    refine ((_ : keeps blink_kept no_link_call True _) d1).
    unfold PublishStatus. blink_frame fail.
  - cbv beta. intros _ d2 o2 [[S2 D2] Q2].
    apply no_link_call_tally in Q2 as [W2 [M2 [B2 L2]]].
    apply HP.
    + congruence.
    + rewrite S2, S1. now rewrite S.
    + rewrite wifi_attempts_app. lia.
    + rewrite mqtt_attempts_app. lia.
    + rewrite bus_polls_app. lia.
    + rewrite led_writes_app, L2, app_nil_r. exact L1.
Qed.

Lemma ends_with_emit {B} P (e : event) (k : unit -> M B) d :
  ends_with (fun d' o => P d' ([e] ++ o)) (k tt) d ->
  ends_with P (bind (emit e) k) d.
Proof.
  unfold ends_with. rewrite bind_emit. now destruct (k tt d).
Qed.

Ltac tally :=
  cbv beta; unfold tiers;
  rewrite ?wifi_attempts_app, ?mqtt_attempts_app, ?bus_polls_app,
    ?led_writes_app;
  change (wifi_attempts [mqtt_loop]) with 0%nat;
  change (mqtt_attempts [mqtt_loop]) with 0%nat;
  change (bus_polls [mqtt_loop]) with 1%nat;
  change (led_writes [mqtt_loop]) with (@nil event);
  repeat match goal with
         | H : wifi_attempts _ = _ |- _ => rewrite H; clear H
         | H : mqtt_attempts _ = _ |- _ => rewrite H; clear H
         | H : bus_polls _ = _ |- _ => rewrite H; clear H
         | H : led_writes _ = _ |- _ => rewrite H; clear H
         | H : blink_delay _ = _ |- _ => rewrite H; clear H
         | H : last_blink _ = _ |- _ => rewrite H; clear H
         end;
  cbn [app Nat.add].

Lemma loop_tiers i d : ends_with (tiers i (last_blink d)) (loop i) d.
Proof.
  unfold loop, PrintHelp.
  set (since := last_blink d). assert (S0 : last_blink d = since) by reflexivity.
  clearbody since.
  apply ends_with_get.
  apply (tiers_after True);
    [ apply keeps_pointwise; blink_frame fail | ].
  intros _ d1 [S1 _]. apply ends_with_get. apply ends_with_get.
  apply (tiers_after True);
    [ apply keeps_pointwise; blink_frame fail | ].
  intros _ d2 [S2 _]. apply ends_with_get.
  apply (tiers_after True);
    [ apply keeps_pointwise;
      blink_frame ltac:(apply blink_kept_command) | ].
  intros _ d3 [S3 _].
  assert (S : last_blink d3 = since) by congruence.
  clear S0 S1 S2 S3 d d1 d2.
  apply (ends_with_returns _ _ _ _ _
           (EnsureWiFi_value (WiFi_status i) (millis_wifi i) d3)).
  intros wifi d4 o4 [-> [S4 [M4 [B4 [L4 W4]]]]].
  destruct (wl_status_eqb (WiFi_status i) WL_CONNECTED) eqn:W.
  - apply wl_status_eqb_eq in W. specialize (W4 W).
    apply ends_with_assoc.
    apply (ends_with_returns _ _ _ _ _
             (EnsureMQTT_value (mqtt_state i) (millis_mqtt i)
                (mqtt_connect_result i) d4)).
    intros bus d5 o5 [S5 [W5 [B5 [L5 T5]]]].
    destruct bus.
    + apply ends_with_assoc. unfold mqtt_loop_call.
      apply ends_with_assoc. apply ends_with_emit.
      apply (ends_with_returns _ _ _ _ _
               (returns_kept _ _ _ _ _
                  (keeps_pointwise _ _ _ _ d5
                     (blink_kept_deliver True (inbound i))))).
      intros _ d6 o6 [[S6 _] Q6].
      apply no_link_call_tally in Q6 as [W6 [M6 [B6 L6]]].
      apply ends_with_upd.
      apply (loop_blinks i since 5000); try reflexivity;
        [ now destruct d6 | destruct d6; cbn in *; congruence | ].
      intros d' o Dd Sd Wo Mo Bo Lo.
      destruct T5 as [ [C [_ M5]] | [ [_ F] | [C [_ [R M5]]] ] ];
        [ | discriminate | ]; tally; (split; [ | now split ]).
      * right. right. repeat split; try assumption. now left.
      * right. right. repeat split; try assumption. now right.
    + apply ends_with_upd.
      apply (loop_blinks i since 1000); try reflexivity;
        [ now destruct d5 | destruct d5; cbn in *; congruence | ].
      intros d' o Dd Sd Wo Mo Bo Lo.
      destruct T5 as [ [_ [F _]] | [ [C _] | [_ [F _]] ] ];
        try discriminate.
      tally. split; [ | now split ].
      right. left. now repeat split.
  - apply wl_status_eqb_neq in W.
    apply ends_with_upd.
    apply (loop_blinks i since 250); try reflexivity;
      [ now destruct d4 | destruct d4; cbn in *; congruence | ].
    intros d' o Dd Sd Wo Mo Bo Lo.
    tally. split; [ | now split ].
    left. now repeat split.
Qed.

(** X18.  Every iteration of [loop] that comes to its end is in one of
    three tiers.  WiFi down: the blink delay is 250 ms, and the broker is
    neither contacted nor polled.  WiFi up and the broker link down: the
    delay is 1000 ms and no WiFi attempt is made.  WiFi up and the broker
    link up, or brought up by a connect of this iteration that succeeded:
    the delay is 5000 ms, [mqtt.loop()] is called once, and it is called
    in no other tier.  The status LED is written in the iteration exactly
    when the delay has elapsed since the last blink, once, with the
    inverse of what is read from it, and the time of the blink is taken
    then; the delay is never 0, so the LED is never just held on. *)
Theorem loop_link_tiers i d d' out :
  loop i d = Done tt d' out ->
  ((WiFi_status i <> WL_CONNECTED
    /\ blink_delay d' = 250
    /\ mqtt_attempts out = 0%nat /\ bus_polls out = 0%nat)
   \/ (WiFi_status i = WL_CONNECTED /\ mqtt_state i <> MQTT_CONNECTED
       /\ blink_delay d' = 1000
       /\ wifi_attempts out = 0%nat /\ bus_polls out = 0%nat)
   \/ (WiFi_status i = WL_CONNECTED
       /\ blink_delay d' = 5000
       /\ wifi_attempts out = 0%nat /\ bus_polls out = 1%nat
       /\ ((mqtt_state i = MQTT_CONNECTED /\ mqtt_attempts out = 0%nat)
           \/ (mqtt_state i <> MQTT_CONNECTED
               /\ mqtt_connect_result i = true
               /\ mqtt_attempts out = 1%nat))))
  /\ led_writes out
     = (if blink_delay d' <=? elapsed (millis_blink i) (last_blink d)
        then [digitalWrite STATUS_LED (negb (led i))] else [])
  /\ last_blink d'
     = (if blink_delay d' <=? elapsed (millis_blink i) (last_blink d)
        then millis_blink_set i else last_blink d).
Proof.
  intros E. pose proof (loop_tiers i d) as K.
  unfold ends_with in K. rewrite E in K. exact K.
Qed.

Lemma loop_link_tiers_online :
  match loop (online 9000) configured with
  | Done _ d' out =>
      blink_delay d' = 5000 /\ bus_polls out = 1%nat
      /\ led_writes out = [digitalWrite STATUS_LED true]
  | Crash _ _ => False
  end.
Proof.
  destruct (loop (online 9000) configured) as [[] d' out | f out] eqn:E.
  - destruct (loop_link_tiers _ _ _ _ E) as [T [L _]].
    destruct T as [ [W _] | [ [_ [M _]] | [_ [D [_ [B _]]]] ] ].
    + now contradiction W.
    + now contradiction M.
    + split; [ exact D | ]. split; [ exact B | ].
      rewrite L, D. reflexivity.
  - vm_compute in E. discriminate.
Defined.

(** ** The loop: the console gate *)

Lemma gate_kept_refl d : gate_kept d d.
Proof. now repeat split. Qed.

Lemma gate_kept_trans a b c : gate_kept a b -> gate_kept b c -> gate_kept a c.
Proof.
  unfold gate_kept. intros [A1 [A2 A3]] [B1 [B2 B3]]. repeat split; congruence.
Qed.

Ltac gate_frame lemmas :=
  pose proof gate_kept_refl as Hrefl;
  pose proof gate_kept_trans as Htrans;
  repeat frame_step ltac:(now repeat split) lemmas.

Lemma returns_bind {A B} V1 V (m : M A) (k : A -> M B) d :
  returns V1 m d ->
  (forall a d1 o1,
      V1 a d1 o1 -> returns (fun b d2 o2 => V b d2 (o1 ++ o2)) (k a) d1) ->
  returns V (bind m k) d.
Proof.
  unfold returns, bind. intros Hm Hk.
  destruct (m d) as [a d1 o1 | f o1]; [ | exact I ].
  specialize (Hk a d1 o1 Hm).
  now destruct (k a d1) as [b d2 o2 | f o2].
Qed.

Lemma returns_get {A B} V (proj : Device -> A) (k : A -> M B) d :
  returns V (k (proj d)) d -> returns V (bind (get proj) k) d.
Proof. unfold returns. now rewrite bind_get. Qed.

(** The statics with a dynamic initialiser, on the first call. *)
Lemma loop_first_call_returns d :
  returns
    (fun _ d1 o =>
       o = []
       /\ bluetooth_enable d1 = bluetooth_enable d
       /\ bluetooth_enable_millis d1 = bluetooth_enable_millis d
       /\ last_bluetooth_enable d1
          = (if loop_entered d then last_bluetooth_enable d
             else bluetooth_enable d))
    (when (negb (loop_entered d))
       (p <- get power_enable ;;
        upd (set_last_power_enable p) ;;
        b <- get bluetooth_enable ;;
        upd (set_last_bluetooth_enable b) ;;
        upd (set_loop_entered true))) d.
Proof.
  unfold returns. destruct d as [s pe be bem wlt mlt ls lst bp bpm lb bd lc le lpe lbe].
  cbn [loop_entered]. destruct le; cbn; now repeat split.
Qed.

(** The edge of the gate. *)
Lemma gate_edge_returns i d :
  returns
    (fun _ d1 o =>
       bluetooth_enable d1 = bluetooth_enable d
       /\ last_bluetooth_enable d1 = bluetooth_enable d
       /\ bluetooth_enable_millis d1
          = (if bluetooth_enable d && negb (last_bluetooth_enable d)
             then millis_enable i else bluetooth_enable_millis d)
       /\ forallb not_console o = true)
    (when (negb (Bool.eqb (bluetooth_enable d) (last_bluetooth_enable d)))
       (upd (set_last_bluetooth_enable (bluetooth_enable d)) ;;
        s <- get settings ;;
        if bluetooth_enable d then
          upd (set_bluetooth_enable_millis (millis_enable i)) ;;
          emit (bt_begin (cstr (device_name s))) ;;
          emit (Serial_print (lit "Bluetooth enabled; name: ")) ;;
          emit (Serial_print (cstr (device_name s))) ;;
          emit (Serial_println (lit "."))
        else
          emit bt_end ;;
          emit (Serial_println (lit "Bluetooth disabled.")))) d.
Proof.
  unfold returns. destruct d as [s pe be bem wlt mlt ls lst bp bpm lb bd lc le lpe lbe].
  cbn [bluetooth_enable last_bluetooth_enable].
  destruct be, lbe; cbn; now repeat split.
Qed.

Lemma gate_kept_command c :
  keeps gate_kept any_event True (PollBluetoothCommand c).
Proof.
  unfold PollBluetoothCommand, strcmp_at, PrintHelp, SettingsReadWriteHelper,
    poke, SaveSettings, RestartWiFi, RestartMQTT.
  gate_frame fail.
Qed.

(** The statements of [loop] that the gate encloses. *)
Lemma gate_block_returns i d :
  returns
    (fun _ d1 o =>
       last_bluetooth_enable d1 = last_bluetooth_enable d
       /\ bluetooth_enable_millis d1 = bluetooth_enable_millis d
       /\ bluetooth_enable d1
          = bluetooth_enable d
            && (bt_hasClient i
                || negb (600000 <=? elapsed (millis_timeout i)
                                      (bluetooth_enable_millis d)))
       /\ (bluetooth_enable d = false -> o = []))
    (when (bluetooth_enable d)
       (PollBluetoothCommand (console i) ;;
        lc <- get last_bluetooth_has_client ;;
        when (negb (Bool.eqb (bt_hasClient i) lc))
          (upd (set_last_bluetooth_has_client (bt_hasClient i)) ;;
           if bt_hasClient i then
             emit (Serial_println (lit "Bluetooth client connected.")) ;;
             PrintHelp
           else
             emit (Serial_println (lit "Bluetooth client disconnected."))) ;;
        since <- get bluetooth_enable_millis ;;
        when (negb (bt_hasClient i)
              && (600000 <=? elapsed (millis_timeout i) since))
          (upd (set_bluetooth_enable false) ;;
           emit (Serial_println (lit "Bluetooth timeout."))))) d.
Proof.
  destruct (bluetooth_enable d) eqn:B; cbn [when andb];
    [ | unfold returns; cbn; now repeat split ].
  apply (returns_bind _ _ _ _ _
           (returns_kept _ _ _ _ _
              (keeps_pointwise _ _ _ _ d (gate_kept_command (console i))))).
  intros _ d1 o1 [[B1 [M1 L1]] _]. apply returns_get.
  eapply returns_bind.
  - apply (returns_kept gate_kept any_event True).
    refine ((_ : keeps gate_kept any_event True _) d1).
    unfold PrintHelp. gate_frame fail.
  - cbv beta. intros _ d2 o2 [[B2 [M2 L2]] _]. apply returns_get.
    unfold returns. rewrite M2, M1.
    destruct (bt_hasClient i); cbn [negb andb orb when].
    + cbn. repeat split; congruence.
    + destruct (600000 <=? elapsed (millis_timeout i) (bluetooth_enable_millis d));
        cbn [when negb].
      * rewrite bind_upd. destruct d2. cbn in *.
        repeat split; congruence.
      * cbn. repeat split; congruence.
Qed.

Lemma gate_kept_deliver C inbound :
  keeps gate_kept not_console C (deliver inbound).
Proof.
  induction inbound as [ | [topic payload] rest IH ]; simpl;
    unfold MQTTCallback; gate_frame ltac:(exact IH).
Qed.

Lemma loop_gate i d :
  ends_with
    (fun d' out =>
       let since :=
         if loop_entered d && bluetooth_enable d
            && negb (last_bluetooth_enable d)
         then millis_enable i else bluetooth_enable_millis d in
       bluetooth_enable_millis d' = since
       /\ last_bluetooth_enable d' = bluetooth_enable d
       /\ bluetooth_enable d'
          = bluetooth_enable d
            && (bt_hasClient i
                || negb (600000 <=? elapsed (millis_timeout i) since))
       /\ (bluetooth_enable d = false -> forallb not_console out = true))
    (loop i) d.
Proof.
  unfold loop. apply ends_with_get.
  apply (ends_with_returns _ _ _ _ _ (loop_first_call_returns d)).
  intros _ d1 o1 [-> [B1 [M1 L1]]].
  apply ends_with_get. apply ends_with_get.
  apply (ends_with_returns _ _ _ _ _ (gate_edge_returns i d1)).
  intros _ d2 o2 [B2 [L2 [M2 Q2]]].
  apply ends_with_get.
  apply (ends_with_returns _ _ _ _ _ (gate_block_returns i d2)).
  intros _ d3 o3 [L3 [M3 [B3 Q3]]].
  eapply ends_with_of_returns.
  - apply (returns_kept gate_kept not_console True).
    refine ((_ : keeps gate_kept not_console True _) d3).
    unfold EnsureWiFi, EnsureMQTT, PublishStatus, mqtt_loop_call.
    gate_frame ltac:(apply gate_kept_deliver).
  - cbv beta zeta. intros _ d4 o4 [[B4 [M4 L4]] Q4].
    assert (S : bluetooth_enable_millis d2
                = (if loop_entered d && bluetooth_enable d
                      && negb (last_bluetooth_enable d)
                   then millis_enable i else bluetooth_enable_millis d)).
    { rewrite M2, B1, M1, L1.
      destruct (loop_entered d), (bluetooth_enable d),
        (last_bluetooth_enable d); reflexivity. }
    rewrite <- S.
    split; [ congruence | ]. split; [ congruence | ].
    split; [ rewrite B4, B3, B2, B1; reflexivity | ].
    intros F. cbn [app]. rewrite !forallb_app, Q2, Q4.
    rewrite Q3 by congruence. reflexivity.
Qed.

(** X19.  The console gate through one iteration of [loop] that comes to
    its end.  The time the timeout counts from is written only on the
    rising edge of the gate, when it becomes the clock of that iteration;
    no client that attaches or leaves and no console command changes it.
    A gate that is up stays up exactly when a client is attached or fewer
    than 600000 ms have elapsed since that time; a gate that is down
    stays down, and the console is then neither read nor written. *)
Theorem console_gate_law i d d' out :
  loop i d = Done tt d' out ->
  let since :=
    if loop_entered d && bluetooth_enable d && negb (last_bluetooth_enable d)
    then millis_enable i else bluetooth_enable_millis d in
  bluetooth_enable_millis d' = since
  /\ last_bluetooth_enable d' = bluetooth_enable d
  /\ bluetooth_enable d'
     = bluetooth_enable d
       && (bt_hasClient i
           || negb (600000 <=? elapsed (millis_timeout i) since))
  /\ (bluetooth_enable d = false -> forallb not_console out = true).
Proof.
  intros E. pose proof (loop_gate i d) as K.
  unfold ends_with in K. rewrite E in K. exact K.
Qed.

Lemma console_gate_law_client_just_left :
  match
    loop (tick 606001 false)
      (set_bluetooth_enable_millis 6001
         (set_last_bluetooth_enable true
            (set_bluetooth_enable true (set_loop_entered true reset))))
  with
  | Done _ d' out => bluetooth_enable d' = false
  | Crash _ _ => False
  end.
Proof.
  destruct (loop (tick 606001 false)
              (set_bluetooth_enable_millis 6001
                 (set_last_bluetooth_enable true
                    (set_bluetooth_enable true (set_loop_entered true reset)))))
    as [[] d' out | f out] eqn:E.
  - destruct (console_gate_law _ _ _ _ E) as [_ [_ [B _]]].
    rewrite B. reflexivity.
  - vm_compute in E. discriminate.
Defined.

(** ** The loop: the one fault *)

Lemma enable_kept_refl d : enable_kept d d.
Proof. reflexivity. Qed.

Lemma enable_kept_trans a b c :
  enable_kept a b -> enable_kept b c -> enable_kept a c.
Proof. unfold enable_kept. congruence. Qed.

Ltac enable_frame lemmas :=
  pose proof enable_kept_refl as Hrefl;
  pose proof enable_kept_trans as Htrans;
  repeat frame_step ltac:(reflexivity) lemmas.

(** A line that is not blank gives a command, and the dispatch comes to
    its end. *)
Lemma command_ends c line :
  bt_line c = Some line -> blankb line = false ->
  keeps any_change any_event False (PollBluetoothCommand c).
Proof.
  intros L B. unfold PollBluetoothCommand. rewrite L.
  destruct (tokenSplit (Some (cstr line))) as [[ cmd | ] ptr] eqn:T.
  - unfold strcmp_at, PrintHelp, SettingsReadWriteHelper, poke, SaveSettings,
      RestartWiFi, RestartMQTT.
    any_frame fail.
  - assert (N : fst (tokenSplit (Some (cstr line))) = None) by now rewrite T.
    apply tokenSplit_null in N. congruence.
Qed.

Lemma deliver_ends inbound : keeps any_change any_event False (deliver inbound).
Proof.
  induction inbound as [ | [topic payload] rest IH ]; simpl;
    unfold MQTTCallback; any_frame ltac:(exact IH).
Qed.

(** Whether a run comes to its end or faults is settled by its second
    part when the first part can not fault. *)
Lemma fault_after {A B} R Q (m : M A) (k : A -> M B) d :
  keeps_at R Q False m d ->
  exists a d1,
    R d d1
    /\ ((exists f o, bind m k d = Crash f o) <-> (exists f o, k a d1 = Crash f o)).
Proof.
  unfold keeps_at, bind. intros Hm.
  destruct (m d) as [a d1 o1 | f o1]; [ | now destruct Hm ].
  destruct Hm as [R1 _]. exists a, d1. split; [ exact R1 | ].
  destruct (k a d1) as [b d2 o2 | f o2]; split; intros [f' [o' H]];
    try discriminate; eauto.
Qed.

Lemma fault_get {A B} (proj : Device -> A) (k : A -> M B) d :
  (exists f o, bind (get proj) k d = Crash f o)
  <-> (exists f o, k (proj d) d = Crash f o).
Proof. now rewrite bind_get. Qed.

Lemma fault_first {A B} (m : M A) (k : A -> M B) d :
  (forall a d1, keeps_at any_change any_event False (k a) d1) ->
  (exists f o, bind m k d = Crash f o) <-> (exists f o, m d = Crash f o).
Proof.
  intros Hk. unfold bind.
  destruct (m d) as [a d1 o1 | f o1]; [ | split; eauto ].
  specialize (Hk a d1). unfold keeps_at in Hk.
  destruct (k a d1) as [b d2 o2 | f o2]; [ | now destruct Hk ].
  split; intros [f' [o' H]]; discriminate.
Qed.

(** X20.  An iteration of [loop] fails to come to its end in one case
    only: the gate is up and the line read from the console is blank, so
    that the command handed to [strcmp] is the null pointer. *)
Theorem loop_faults_on_blank_line_only i d :
  (exists f out, loop i d = Crash f out)
  <-> (bluetooth_enable d = true
       /\ exists line,
            bt_line (console i) = Some line /\ blankb line = true).
Proof.
  unfold loop. rewrite fault_get.
  match goal with
  | |- (exists f o, bind ?m ?k d = _) <-> _ =>
      destruct (fault_after enable_kept any_event m k d) as [[] [d1 [E1 ->]]];
      [ apply keeps_pointwise; enable_frame fail | ]
  end.
  rewrite !fault_get.
  match goal with
  | |- (exists f o, bind ?m ?k d1 = _) <-> _ =>
      destruct (fault_after enable_kept any_event m k d1) as [[] [d2 [E2 ->]]];
      [ apply keeps_pointwise; enable_frame fail | ]
  end.
  rewrite fault_get.
  assert (B : bluetooth_enable d2 = bluetooth_enable d)
    by (unfold enable_kept in *; congruence).
  rewrite B. clear E1 E2 B d1.
  rewrite fault_first.
  - destruct (bluetooth_enable d); cbn [when].
    + rewrite fault_first.
      * destruct (bt_line (console i)) as [ line | ] eqn:L.
        -- destruct (blankb line) eqn:K.
           ++ rewrite (PollBluetoothCommand_blank _ _ line L K).
              split; [ intros _; split; [ reflexivity | now exists line ]
                     | intros _; eauto ].
           ++ pose proof (command_ends _ _ L K d2) as E.
              unfold keeps_at in E.
              split.
              ** intros [f [o H]]. rewrite H in E. now destruct E.
              ** intros [_ [line' [L' K']]]. congruence.
        -- rewrite (PollBluetoothCommand_idle _ d2 L).
           split; [ intros [f [o H]]; discriminate
                  | intros [_ [line [H _]]]; discriminate ].
      * intros _ d3. apply keeps_pointwise. unfold PrintHelp. any_frame fail.
    + split; [ intros [f [o H]]; discriminate | intros [H _]; discriminate ].
  - intros _ d3. apply keeps_pointwise.
    unfold EnsureWiFi, EnsureMQTT, PublishStatus, mqtt_loop_call.
    any_frame ltac:(apply deliver_ends).
Qed.

(** ** The button: any series of edges *)

Lemma ButtonChangeISR_step now low d :
  exists d' o,
    ButtonChangeISR now low d = Done tt d' o
    /\ settings d' = settings d
    /\ ((o = [] /\ power_enable d' = power_enable d)
        \/ (o = [digitalWrite POWER_PIN (power_enable d')]
            /\ power_enable d' = negb (power_enable d))).
Proof.
  destruct d as [s pe be bem wlt mlt ls lst bp bpm lb bd lc le lpe lbe].
  unfold ButtonChangeISR. rewrite bind_get. cbn [button_press].
  destruct low, bp; cbn [negb when].
  - eexists _, _. split; [ reflexivity | ]. split; [ reflexivity | now left ].
  - rewrite bind_upd.
    eexists _, _. split; [ reflexivity | ]. split; [ reflexivity | now left ].
  - rewrite bind_upd, bind_get. cbn [set_button_press button_press_millis].
    destruct (5000 <=? elapsed now bpm).
    + rewrite bind_get.
      eexists _, _. split; [ reflexivity | ]. split; [ reflexivity | now left ].
    + destruct (DEBOUNCE_MILLIS <=? elapsed now bpm); cbn [when].
      * rewrite bind_get, bind_upd, bind_get.
        eexists _, _. split; [ reflexivity | ].
        split; [ reflexivity | now right ].
      * eexists _, _. split; [ reflexivity | ].
        split; [ reflexivity | now left ].
  - eexists _, _. split; [ reflexivity | ]. split; [ reflexivity | now left ].
Qed.

(** X21.  The interrupt handler run on any series of edges comes to its
    end, leaves the settings alone and calls nothing but [digitalWrite] on
    the relay pin.  It writes the pin once for each change of the power
    state: the power state at the end is the one at the start negated as
    many times as the pin was written, and the value written last is the
    power state at the end. *)
Theorem button_edges es : forall d,
  exists d' out,
    edges es d = Done tt d' out
    /\ settings d' = settings d
    /\ forallb is_relay_write out = true
    /\ power_enable d' = xorb (power_enable d) (Nat.odd (length out))
    /\ (forall before e,
           out = before ++ [e] ->
           e = digitalWrite POWER_PIN (power_enable d')).
Proof.
  induction es as [ | [now low] rest IH ]; intros d.
  - exists d, []. split; [ reflexivity | ]. split; [ reflexivity | ].
    split; [ reflexivity | ]. split; [ now rewrite xorb_false_r | ].
    intros before e H. now destruct before.
  - destruct (ButtonChangeISR_step now low d) as [d1 [o1 [E1 [S1 W1]]]].
    destruct (IH d1) as [d' [o2 [E2 [S2 [Q2 [P2 L2]]]]]].
    exists d', (o1 ++ o2).
    split; [ simpl; rewrite (bind_done _ _ _ _ _ _ E1), E2; reflexivity | ].
    split; [ congruence | ].
    assert (Last : forall before e,
               o1 ++ o2 = before ++ [e] ->
               e = digitalWrite POWER_PIN (power_enable d')).
    { intros before e H. destruct o2 as [ | x xs ].
      - rewrite app_nil_r in H. simpl in P2. rewrite xorb_false_r in P2.
        destruct W1 as [ [-> _] | [-> _] ].
        + now destruct before.
        + change [digitalWrite POWER_PIN (power_enable d1)]
            with ([] ++ [digitalWrite POWER_PIN (power_enable d1)]) in H.
          apply app_inj_tail in H as [_ <-]. now rewrite P2.
      - destruct (@exists_last _ (x :: xs)) as [front [y Y]];
          [ discriminate | ].
        apply (L2 front). rewrite Y, app_assoc in H.
        now apply app_inj_tail in H as [_ <-]. }
    destruct W1 as [ [-> W1] | [-> W1] ].
    + simpl. split; [ exact Q2 | ]. split; [ now rewrite <- W1 | exact Last ].
    + split; [ simpl; now rewrite Q2 | ].
      split; [ | exact Last ].
      rewrite P2, W1. cbn [app length]. rewrite Nat.odd_succ, <- Nat.negb_odd.
      now destruct (power_enable d), (Nat.odd (length o2)).
Qed.

(** ** The calls of the broker client *)

Lemma text_not_empty t : (0 <? strlen t)%nat = true -> same (cstr t) [] = false.
Proof.
  unfold strlen. intros H. apply Nat.ltb_lt in H.
  destruct (cstr t); [ simpl in H; lia | reflexivity ].
Qed.

Lemma bus_ok_PublishStatus C : keeps any_change bus_call_ok C PublishStatus.
Proof.
  intros d. unfold keeps_at. rewrite PublishStatus_run.
  split; [ exact I | ].
  destruct (0 <? strlen (mqtt_status_topic (settings d)))%nat eqn:T;
    [ | reflexivity ].
  unfold status_message. simpl. rewrite (text_not_empty _ T).
  now destruct (power_enable d).
Qed.

Lemma bus_ok_subscribe C success topic :
  keeps any_change bus_call_ok C
    (when (success && (0 <? strlen topic)%nat)
       (emit (mqtt_subscribe (cstr topic) 1))).
Proof.
  intros d. unfold keeps_at.
  destruct success; cbn [andb when]; [ | now split ].
  destruct (0 <? strlen topic)%nat eqn:T; cbn [when]; [ | now split ].
  split; [ exact I | ]. simpl. now rewrite (text_not_empty _ T).
Qed.

Lemma bus_ok_deliver C inbound :
  keeps any_change bus_call_ok C (deliver inbound).
Proof.
  induction inbound as [ | [topic payload] rest IH ]; simpl;
    unfold MQTTCallback; any_frame ltac:(exact IH).
Qed.

Lemma bus_ok_loop i : keeps any_change bus_call_ok True (loop i).
Proof.
  unfold loop, PrintHelp, EnsureWiFi, EnsureMQTT, mqtt_loop_call,
    PollBluetoothCommand, strcmp_at, PrintHelp, SettingsReadWriteHelper,
    poke, SaveSettings, RestartWiFi, RestartMQTT.
  any_frame
    ltac:(first [ apply bus_ok_PublishStatus | apply bus_ok_subscribe
                | apply bus_ok_deliver ]).
Qed.

(** X22.  Through any run of the loop, ended or not, every call of the
    broker client is of one form.  A publish is retained, on a topic that
    is not empty, and its payload is "ON" or "OFF".  A connect registers
    the will "OFFLINE", retained, at QoS 1.  A subscription is at QoS 1 to
    a topic that is not empty. *)
Theorem bus_calls_of_one_form iterations d :
  forallb bus_call_ok (output (run iterations d)) = true.
Proof.
  assert (K : keeps any_change bus_call_ok True (run iterations)).
  { induction iterations as [ | i rest IH ]; simpl;
      any_frame ltac:(first [ exact IH | apply bus_ok_loop ]). }
  specialize (K d). unfold keeps_at in K.
  destruct (run iterations d) as [a d' o | f o]; now destruct K.
Qed.

(** * The button, the clock and the status publisher *)

(** ** A press of the button, from the falling edge to the rising edge *)

Lemma edges_app a b d :
  edges (a ++ b) d = bind (edges a) (fun _ => edges b) d.
Proof.
  revert d. induction a as [ | [now low] a IH ]; intros d.
  - cbn [app edges]. now rewrite bind_ret.
  - cbn [app edges]. rewrite bind_assoc.
    destruct (ButtonChangeISR now low d) as [[] d1 o1 | f o1] eqn:E.
    + rewrite !(bind_done _ _ _ _ _ _ E). now rewrite IH.
    + unfold bind. now rewrite E.
Qed.

(** Interrupts that find the pin low while the press lasts change
    nothing. *)
Lemma edges_still_low again d :
  button_press d = true ->
  edges (map (fun t => (t, true)) again) d = Done tt d [].
Proof.
  intros P. induction again as [ | t again IH ]; simpl; [ reflexivity | ].
  pose proof (ButtonChangeISR_repeated_edge d t) as R. rewrite P in R.
  rewrite (bind_done _ _ _ _ _ _ R), IH. reflexivity.
Qed.

(** A press runs to the rising edge with the press recorded at the
    falling edge. *)
Lemma press_release_run d t_down again t_up :
  button_press d = false ->
  edges (press_release t_down again t_up) d
  = ButtonChangeISR t_up false
      (set_button_press_millis t_down (set_button_press true d)).
Proof.
  intros P. unfold press_release.
  change (edges ((t_down, true)
                 :: map (fun t => (t, true)) again ++ [(t_up, false)]) d)
    with (bind (ButtonChangeISR t_down true)
            (fun _ => edges (map (fun t => (t, true)) again
                             ++ [(t_up, false)])) d).
  rewrite (bind_done _ _ _ _ _ _ (ButtonChangeISR_press d t_down P)).
  rewrite edges_app.
  assert (P' : button_press
                 (set_button_press_millis t_down (set_button_press true d))
               = true) by now destruct d.
  rewrite (bind_done _ _ _ _ _ _ (edges_still_low again _ P')).
  cbn [edges app].
  destruct (ButtonChangeISR t_up false
              (set_button_press_millis t_down (set_button_press true d)))
    as [[] d' o | f o] eqn:E; unfold bind, ret; rewrite E; cbn [app];
    now rewrite ?app_nil_r.
Qed.

(** C1.  A press of the button as the interrupt handler sees it, from a
    state in which no press is under way: the falling edge, read at
    [t_down], any number of further interrupts that find the pin still
    low, and the rising edge, read at [t_up].  The handler comes to its
    end on each of them, and with [hold] the wrapping difference
    [t_up - t_down]:
    - below 50 ms nothing is written and neither flag changes;
    - from 50 ms and below 5000 ms [power_enable] is negated once and the
      relay pin is written once, inside the handler, with the new value,
      the gate flag keeping its value;
    - from 5000 ms on the gate flag ([bluetooth_enable], named
      [config_enable] in the later revision, whose handler is the same)
      is negated once, [power_enable] keeps its value and nothing is
      written.
    In each case the device at the end is the device at the start but
    for these flags and the recorded time of the press, which is
    [t_down]: no press is under way, so that the next press is taken the
    same way.  A rising edge with no press under way does nothing. *)
Theorem button_press_release_cycle d t_down again t_up :
  button_press d = false ->
  let hold := elapsed t_up t_down in
  let after power gate :=
    {| settings := settings d;
       power_enable := power;
       bluetooth_enable := gate;
       bluetooth_enable_millis := bluetooth_enable_millis d;
       wifi_last_try := wifi_last_try d;
       mqtt_last_try := mqtt_last_try d;
       last_status := last_status d;
       last_state := last_state d;
       button_press := false;
       button_press_millis := t_down;
       last_blink := last_blink d;
       blink_delay := blink_delay d;
       last_bluetooth_has_client := last_bluetooth_has_client d;
       loop_entered := loop_entered d;
       last_power_enable := last_power_enable d;
       last_bluetooth_enable := last_bluetooth_enable d |} in
  (hold < 50 ->
   edges (press_release t_down again t_up) d
   = Done tt (after (power_enable d) (bluetooth_enable d)) [])
  /\ (50 <= hold < 5000 ->
      edges (press_release t_down again t_up) d
      = Done tt (after (negb (power_enable d)) (bluetooth_enable d))
          [digitalWrite POWER_PIN (negb (power_enable d))])
  /\ (5000 <= hold ->
      edges (press_release t_down again t_up) d
      = Done tt (after (power_enable d) (negb (bluetooth_enable d))) [])
  /\ (hold < 50 \/ 50 <= hold < 5000 \/ 5000 <= hold)
  /\ ButtonChangeISR t_up false d = Done tt d [].
Proof.
  intros P hold after.
  rewrite (press_release_run d t_down again t_up P).
  destruct d as [s pe be bem wlt mlt ls lst bp bpm lb bd lc le lpe lbe].
  cbn [button_press] in P. subst bp.
  subst after. cbn [settings power_enable bluetooth_enable
                    bluetooth_enable_millis wifi_last_try mqtt_last_try
                    last_status last_state last_blink blink_delay
                    last_bluetooth_has_client loop_entered last_power_enable
                    last_bluetooth_enable].
  unfold ButtonChangeISR, DEBOUNCE_MILLIS.
  cbv [bind get upd emit ret when set_button_press set_button_press_millis
       set_power_enable set_bluetooth_enable button_press button_press_millis
       power_enable bluetooth_enable negb app].
  fold hold.
  split; [ | split; [ | split; [ | split ] ] ].
  - intros H.
    replace (5000 <=? hold) with false by (symmetry; apply Z.leb_gt; lia).
    replace (50 <=? hold) with false by (symmetry; apply Z.leb_gt; lia).
    reflexivity.
  - intros H.
    replace (5000 <=? hold) with false by (symmetry; apply Z.leb_gt; lia).
    replace (50 <=? hold) with true by (symmetry; apply Z.leb_le; lia).
    reflexivity.
  - intros H.
    replace (5000 <=? hold) with true by (symmetry; apply Z.leb_le; lia).
    reflexivity.
  - lia.
  - reflexivity.
Qed.

Lemma button_press_release_cycle_at_reset :
  edges (press_release 10000 [10003] 10200) reset
  = Done tt
      (set_button_press_millis 10000 (set_power_enable true reset))
      [digitalWrite POWER_PIN true]
  /\ edges (press_release 4294967290 [] 5004) reset
     = Done tt
         (set_button_press_millis 4294967290 (set_bluetooth_enable true reset))
         []
  /\ edges (press_release 10000 [] 10049) reset
     = Done tt (set_button_press_millis 10000 reset) [].
Proof.
  destruct (button_press_release_cycle reset 10000 [10003] 10200 eq_refl)
    as [_ [S _]].
  destruct (button_press_release_cycle reset 4294967290 [] 5004 eq_refl)
    as [_ [_ [L _]]].
  destruct (button_press_release_cycle reset 10000 [] 10049 eq_refl)
    as [B _].
  split; [ apply S; change (50 <= 200 < 5000); lia | ].
  split; [ apply L; change (5000 <= 5010); lia | ].
  apply B. change (49 < 50). lia.
Defined.

(** ** The status publisher through an iteration of the loop *)

Lemma publisher_kept_refl d : publisher_kept d d.
Proof. split; [ apply bookkeeping_refl | reflexivity ]. Qed.

Lemma publisher_kept_trans a b c :
  publisher_kept a b -> publisher_kept b c -> publisher_kept a c.
Proof.
  intros [A1 A2] [B1 B2].
  split; [ now apply bookkeeping_trans with b | congruence ].
Qed.

Ltac publisher_frame lemmas :=
  pose proof publisher_kept_refl as Hrefl;
  pose proof publisher_kept_trans as Htrans;
  repeat frame_step ltac:(now repeat split) lemmas.

Lemma returns_weaken {A} (V V' : A -> Device -> list event -> Prop)
    (m : M A) d :
  returns V m d -> (forall a d1 o, V a d1 o -> V' a d1 o) -> returns V' m d.
Proof.
  unfold returns. intros H W. destruct (m d) as [a d1 o | f o]; auto.
Qed.

Lemma returns_and {A} (V1 V2 : A -> Device -> list event -> Prop)
    (m : M A) d :
  returns V1 m d -> returns V2 m d ->
  returns (fun a d1 o => V1 a d1 o /\ V2 a d1 o) m d.
Proof.
  unfold returns. intros H1 H2. destruct (m d) as [a d1 o | f o]; auto.
Qed.

(** The statics with a dynamic initialiser, on the first call. *)
Lemma loop_first_call_publisher d :
  returns
    (fun _ d1 o =>
       o = []
       /\ last_state d1 = last_state d
       /\ settings d1 = settings d
       /\ power_enable d1 = power_enable d
       /\ loop_entered d1 = true
       /\ last_power_enable d1 = reconciled_before d)
    (when (negb (loop_entered d))
       (p <- get power_enable ;;
        upd (set_last_power_enable p) ;;
        b <- get bluetooth_enable ;;
        upd (set_last_bluetooth_enable b) ;;
        upd (set_loop_entered true))) d.
Proof.
  unfold returns, reconciled_before.
  destruct d as [s pe be bem wlt mlt ls lst bp bpm lb bd lc le lpe lbe].
  cbn [loop_entered]. destruct le; cbn; now repeat split.
Qed.

(** The statements of [loop] that the gate encloses. *)
Lemma gate_block_publisher i d :
  returns
    (fun _ d1 o =>
       bookkeeping d d1 /\ publishes o = []
       /\ (bt_line (console i) = None ->
           settings d1 = settings d /\ power_enable d1 = power_enable d))
    (when (bluetooth_enable d)
       (PollBluetoothCommand (console i) ;;
        lc <- get last_bluetooth_has_client ;;
        when (negb (Bool.eqb (bt_hasClient i) lc))
          (upd (set_last_bluetooth_has_client (bt_hasClient i)) ;;
           if bt_hasClient i then
             emit (Serial_println (lit "Bluetooth client connected.")) ;;
             PrintHelp
           else
             emit (Serial_println (lit "Bluetooth client disconnected."))) ;;
        since <- get bluetooth_enable_millis ;;
        when (negb (bt_hasClient i)
              && (600000 <=? elapsed (millis_timeout i) since))
          (upd (set_bluetooth_enable false) ;;
           emit (Serial_println (lit "Bluetooth timeout."))))) d.
Proof.
  destruct (bt_line (console i)) as [ line | ] eqn:L.
  - eapply returns_weaken.
    + apply (returns_kept bookkeeping not_publish True).
      refine ((_ : keeps bookkeeping not_publish True _) d).
      unfold PrintHelp.
      bookkeeping_frame ltac:(apply keeps_PollBluetoothCommand).
    + cbv beta. intros _ d1 o [B Q].
      split; [ exact B | ]. split; [ now apply not_publish_publishes | ].
      discriminate.
  - eapply returns_weaken.
    + apply (returns_kept steady not_publish True).
      refine ((_ : keeps steady not_publish True _) d).
      unfold PrintHelp.
      steady_frame
        ltac:(apply keeps_PollBluetoothCommand_idle;
              [ exact steady_refl | exact L ]).
    + cbv beta. intros _ d1 o [[B [S P]] Q].
      split; [ exact B | ]. split; [ now apply not_publish_publishes | ].
      intros _. now split.
Qed.

(** What [EnsureMQTT] publishes, and the link state it leaves as seen. *)
Lemma EnsureMQTT_publishes state now success d :
  returns
    (fun _ d1 o =>
       last_state d1 = state
       /\ last_power_enable d1 = last_power_enable d
       /\ loop_entered d1 = loop_entered d
       /\ settings d1 = settings d
       /\ power_enable d1 = power_enable d
       /\ publishes o
          = (if (state =? MQTT_CONNECTED)
                && negb (last_state d =? MQTT_CONNECTED)
                && (0 <? strlen (mqtt_status_topic (settings d)))%nat
             then [status_message d] else []))
    (EnsureMQTT state now success) d.
Proof.
  destruct d as [s pe be bem wlt mlt ls lst bp bpm lb bd lc le lpe lbe].
  unfold returns, status_message.
  cbn [last_state last_power_enable loop_entered settings power_enable].
  destruct (state =? MQTT_CONNECTED) eqn:C.
  - pose proof C as C'. apply Z.eqb_eq in C'.
    destruct (state =? lst) eqn:L.
    + pose proof L as L'. apply Z.eqb_eq in L'.
      assert (K : (lst =? MQTT_CONNECTED) = true)
        by (apply Z.eqb_eq; congruence).
      rewrite K.
      run_supervisor; decide_tests; cbn [andb negb];
        repeat split;
        cbn [last_state last_power_enable loop_entered settings power_enable];
        first [ reflexivity | congruence ].
    + assert (K : (lst =? MQTT_CONNECTED) = false).
      { apply Z.eqb_neq. apply Z.eqb_neq in L. congruence. }
      rewrite K.
      destruct (0 <? strlen (mqtt_status_topic s))%nat eqn:T;
        run_supervisor; decide_tests; cbn [andb negb];
        repeat split; reflexivity.
  - cbn [andb].
    destruct (state =? lst) eqn:L;
      try (pose proof L as L'; apply Z.eqb_eq in L');
      destruct (strlen (mqtt_server s) =? 0)%nat eqn:S;
      destruct ((mlt =? 0) || (60000 <=? elapsed now mlt)) eqn:K;
      destruct (strlen (mqtt_user s) =? 0)%nat eqn:U;
      destruct success;
      destruct (0 <? strlen (mqtt_control_topic s))%nat eqn:G;
      run_supervisor; decide_tests; cbn [andb];
      repeat split;
        cbn [last_state last_power_enable loop_entered settings power_enable];
        first [ reflexivity | congruence ].
Qed.

Lemma publisher_kept_deliver C inbound :
  keeps publisher_kept not_publish C (deliver inbound).
Proof.
  induction inbound as [ | [topic payload] rest IH ]; simpl;
    unfold MQTTCallback; publisher_frame ltac:(exact IH).
Qed.

(** The calls that follow [EnsureWiFi]: the bus supervisor and the client
    when WiFi is up, and the blink delay of the tier. *)
Lemma bus_block_publisher i (wifi : bool) d :
  returns
    (fun _ d1 o =>
       last_state d1 = (if wifi then mqtt_state i else last_state d)
       /\ last_power_enable d1 = last_power_enable d
       /\ loop_entered d1 = loop_entered d
       /\ settings d1 = settings d
       /\ (inbound i = [] -> power_enable d1 = power_enable d)
       /\ publishes o
          = (if wifi && (mqtt_state i =? MQTT_CONNECTED)
                && negb (last_state d =? MQTT_CONNECTED)
                && (0 <? strlen (mqtt_status_topic (settings d)))%nat
             then [status_message d] else []))
    (if wifi then
       bus <- EnsureMQTT (mqtt_state i) (millis_mqtt i)
                (mqtt_connect_result i) ;;
       if bus then
         mqtt_loop_call (inbound i) ;;
         upd (set_blink_delay 5000)
       else upd (set_blink_delay 1000)
     else upd (set_blink_delay 250)) d.
Proof.
  destruct wifi; cbn [andb];
    [ | unfold returns; destruct d; cbn; now repeat split ].
  apply (returns_bind _ _ _ _ _ (EnsureMQTT_publishes _ _ _ d)).
  intros bus d1 o1 [S1 [L1 [E1 [T1 [P1 Q1]]]]].
  eapply returns_weaken.
  - apply returns_and.
    + apply (returns_kept publisher_kept not_publish True).
      refine ((_ : keeps publisher_kept not_publish True _) d1).
      unfold mqtt_loop_call.
      publisher_frame ltac:(apply publisher_kept_deliver).
    + instantiate
        (1 := fun _ d2 _ => inbound i = [] -> power_enable d2 = power_enable d1).
      destruct (inbound i) as [ | message rest ];
        [ | unfold returns;
            match goal with
            | |- match ?x with _ => _ end => now destruct x
            end ].
      apply (returns_weaken
               (fun _ d2 o2 => steady d1 d2 /\ forallb not_publish o2 = true)).
      * apply (returns_kept steady not_publish True).
        refine ((_ : keeps steady not_publish True _) d1).
        unfold mqtt_loop_call. cbn [deliver]. steady_frame fail.
      * intros _ d2 o2 [[_ [_ P2]] _] _. exact P2.
  - cbv beta. intros _ d2 o2 [[[[S2 [L2 E2]] T2] Q2] P2].
    rewrite publishes_app, (not_publish_publishes o2 Q2), app_nil_r.
    repeat split; try congruence.
    intros N. rewrite (P2 N). exact P1.
Qed.

(** The last statement of [loop]. *)
Lemma reconcile_publisher p d :
  last_power_enable d = p ->
  returns
    (fun _ d1 o =>
       last_state d1 = last_state d
       /\ settings d1 = settings d
       /\ power_enable d1 = power_enable d
       /\ publishes o
          = (if negb (Bool.eqb (power_enable d) p)
                && (0 <? strlen (mqtt_status_topic (settings d)))%nat
             then [status_message d] else []))
    (pe <- get power_enable ;;
     lp <- get last_power_enable ;;
     when (negb (Bool.eqb pe lp))
       (upd (set_last_power_enable pe) ;;
        emit (digitalWrite POWER_PIN pe) ;;
        emit (Serial_println (if pe then lit "Power on." else lit "Power off.")) ;;
        PublishStatus)) d.
Proof.
  intros L. unfold returns. rewrite !bind_get. rewrite L.
  destruct (Bool.eqb (power_enable d) p) eqn:Q; cbn [negb when andb].
  - cbn. now repeat split.
  - rewrite bind_upd, !bind_emit, PublishStatus_run.
    destruct d as [s pe be bem wlt mlt ls lst bp bpm lb bd lc le lpe lbe].
    unfold status_message.
    cbn [power_enable last_power_enable last_state settings
         set_last_power_enable].
    destruct (0 <? strlen (mqtt_status_topic s))%nat;
      cbn; now repeat split.
Qed.

(** An iteration of [loop] that comes to its end. *)
Lemma loop_published i d :
  ends_with (fun d' out => published i d d' (publishes out)) (loop i) d.
Proof.
  unfold loop. apply ends_with_get.
  apply (ends_with_returns _ _ _ _ _ (loop_first_call_publisher d)).
  intros _ d1 o1 [-> [S1 [T1 [P1 [E1 L1]]]]].
  apply ends_with_get. apply ends_with_get.
  eapply ends_with_returns.
  { apply (returns_kept steady not_publish True).
    refine ((_ : keeps steady not_publish True _) d1).
    steady_frame fail. }
  cbv beta. intros _ d2 o2 [[[S2 [L2 E2]] [T2 P2]] Q2].
  apply ends_with_get.
  apply (ends_with_returns _ _ _ _ _ (gate_block_publisher i d2)).
  intros _ d3 o3 [[S3 [L3 E3]] [Q3 I3]].
  eapply ends_with_returns.
  { apply returns_and.
    - apply EnsureWiFi_value.
    - apply (returns_kept steady not_publish True).
      apply keeps_pointwise, keeps_EnsureWiFi. }
  cbv beta. intros wifi d4 o4 [[-> _] [[[S4 [L4 E4]] [T4 P4]] Q4]].
  apply (ends_with_returns _ _ _ _ _ (bus_block_publisher i _ d4)).
  intros _ d5 o5 [S5 [L5 [E5 [T5 [P5 Q5]]]]].
  apply ends_with_get. apply ends_with_get.
  eapply ends_with_returns.
  { apply (returns_kept steady not_publish True).
    refine ((_ : keeps steady not_publish True _) d5).
    steady_frame fail. }
  cbv beta. intros _ d6 o6 [[[S6 [L6 E6]] [T6 P6]] Q6].
  eapply ends_with_of_returns.
  { apply (reconcile_publisher (reconciled_before d)). congruence. }
  cbv beta. intros _ d7 o7 [S7 [T7 [P7 Q7]]].
  cbn [app]. rewrite !publishes_app.
  rewrite (not_publish_publishes o2 Q2), Q3, (not_publish_publishes o4 Q4),
    Q5, (not_publish_publishes o6 Q6), Q7.
  cbn [app].
  assert (TT : settings d7 = settings d4) by congruence.
  assert (PP : power_enable d7 = power_enable d6) by congruence.
  unfold published, seen_after, came_up. rewrite TT.
  split; [ | split ].
  - rewrite S7, S6, S5.
    destruct (wl_status_eqb (WiFi_status i) WL_CONNECTED); congruence.
  - intros N. destruct (I3 N) as [I3s _]. congruence.
  - exists (power_enable d4).
    split; [ | split ].
    + unfold status_message. rewrite T7, T6, T5, P7.
      replace (last_state d4) with (last_state d) by congruence.
      reflexivity.
    + intros N. destruct (I3 N) as [_ I3p]. congruence.
    + intros N. rewrite PP, P6. symmetry. now apply P5.
Qed.

(** ** The transitions of the bus link over a run *)

Lemma run_published its : forall d d' out,
  run its d = Done tt d' out ->
  (length (publishes out)
   <= transitions (last_state d) its + length (relay_writes out))%nat
  /\ (Forall (fun i => bt_line (console i) = None) its ->
      settings d' = settings d
      /\ ((0 < strlen (mqtt_status_topic (settings d)))%nat ->
          length (publishes out)
          = (transitions (last_state d) its + length (relay_writes out))%nat)).
Proof.
  induction its as [ | i rest IH ]; intros d d' out R.
  - cbn in R. inversion R; subst. cbn. repeat split; lia.
  - cbn [run] in R.
    apply bind_done_inv in R as ([] & d1 & o1 & o2 & E1 & E2 & ->).
    pose proof (loop_published i d) as P.
    unfold ends_with in P. rewrite E1 in P.
    pose proof (loop_reconciled i d) as Q.
    unfold ends_with in Q. rewrite E1 in Q.
    destruct P as [S [I [p [Pub _]]]]. destruct Q as [_ [_ [W _]]].
    fold (reconciled_before d) in W.
    destruct (IH d1 d' o2 E2) as [Le Eq].
    rewrite publishes_app, relay_writes_app, !length_app, Pub, W.
    cbn [transitions]. rewrite <- S.
    split.
    + destruct (came_up i (last_state d)),
        (Bool.eqb (power_enable d1) (reconciled_before d)),
        (0 <? strlen (mqtt_status_topic (settings d1)))%nat;
        cbn [andb negb app length]; lia.
    + intros F. inversion F as [ | i' rest' Fi Frest ]; subst.
      destruct (Eq Frest) as [T Eq']. specialize (I Fi).
      split; [ congruence | ].
      intros Tset. rewrite I in Eq'. specialize (Eq' Tset).
      rewrite I. apply Nat.ltb_lt in Tset. rewrite Tset.
      destruct (came_up i (last_state d)),
        (Bool.eqb (power_enable d1) (reconciled_before d));
        cbn [andb negb app length]; lia.
Qed.

(** With nothing on the console the iterations come to their end. *)
Lemma loop_done i d :
  bt_line (console i) = None -> exists d' out, loop i d = Done tt d' out.
Proof.
  intros L. destruct (loop_ends i d L) as [d' F].
  destruct (loop i d) as [[] d1 o | f o]; [ | discriminate F ].
  now exists d1, o.
Qed.

Lemma run_done its : forall d,
  Forall (fun i => bt_line (console i) = None) its ->
  exists d' out, run its d = Done tt d' out.
Proof.
  induction its as [ | i rest IH ]; intros d F.
  - now exists d, [].
  - inversion F as [ | i' rest' Fi Frest ]; subst.
    destruct (loop_done i d Fi) as (d1 & o1 & E1).
    destruct (IH d1 Frest) as (d' & o2 & E2).
    exists d', (o1 ++ o2). cbn [run].
    rewrite (bind_done _ _ _ _ _ _ E1), E2. reflexivity.
Qed.

(** C4.  The status publishes of the loop.  A transition of the bus link
    into the connected state is what [EnsureMQTT] sees: an iteration that
    finds WiFi up and [mqtt.state()] connected when the state it saw last
    ([last_state]) was another.  For every iteration of [loop] that comes
    to its end, from [d] to [d'] with the output [out]:
    - the state seen last becomes the state this iteration saw (it is
      left as it was when WiFi is down, [EnsureMQTT] not being called), so
      that the next iteration finds a transition only if the link was lost
      in between;
    - the publishes of the iteration are, in this order and with a status
      topic set, one retained publish of "ON" or "OFF" on that topic if
      the iteration saw a transition, carrying the power state [p] of
      that moment whether or not it changed during the outage, and one of
      the power state at the end if that differs from the power state
      reconciled last; with no status topic set nothing is published; so an
      iteration that saw no transition and no change of the power state
      publishes nothing;
    - [p] is the power state at the start of the iteration if nothing was
      waiting on the console, and the power state at its end if no message
      came in from the bus.
    For every run of iterations that comes to its end the publishes are
    at most the transitions of the run and the changes of the power state
    reconciled in it (each writes the relay pin once) together, and
    exactly as many when a status topic is set and nothing was typed on
    the console, which then leaves the settings as they were.  With
    nothing typed on the console every iteration, and every run, does come
    to its end. *)
Theorem status_published_once_per_transition :
  (forall i d d' out,
      loop i d = Done tt d' out ->
      let topic := mqtt_status_topic (settings d') in
      last_state d' = seen_after i (last_state d)
      /\ (exists p : bool,
             publishes out
             = (if came_up i (last_state d) && (0 <? strlen topic)%nat
                then [mqtt_publish (cstr topic)
                        (if p then lit "ON" else lit "OFF") true]
                else [])
               ++ (if negb (Bool.eqb (power_enable d') (reconciled_before d))
                      && (0 <? strlen topic)%nat
                   then [status_message d'] else [])
             /\ (bt_line (console i) = None -> p = power_enable d)
             /\ (inbound i = [] -> p = power_enable d'))
      /\ (came_up i (last_state d) = false ->
          power_enable d' = reconciled_before d ->
          publishes out = []))
  /\ (forall its d d' out,
        run its d = Done tt d' out ->
        (length (publishes out)
         <= transitions (last_state d) its + length (relay_writes out))%nat
        /\ (Forall (fun i => bt_line (console i) = None) its ->
            (0 < strlen (mqtt_status_topic (settings d)))%nat ->
            settings d' = settings d
            /\ length (publishes out)
               = (transitions (last_state d) its
                  + length (relay_writes out))%nat))
  /\ (forall i d,
        bt_line (console i) = None ->
        exists d' out, loop i d = Done tt d' out)
  /\ (forall its d,
        Forall (fun i => bt_line (console i) = None) its ->
        exists d' out, run its d = Done tt d' out).
Proof.
  split; [ | split; [ | split; [ exact loop_done | exact run_done ] ] ].
  - intros i d d' out E topic.
    pose proof (loop_published i d) as P.
    unfold ends_with in P. rewrite E in P.
    destruct P as [S [_ [p [Pub [Pc Pi]]]]]. fold topic in Pub.
    split; [ exact S | ]. split; [ now exists p | ].
    intros N Q. rewrite Pub, N, Q, eqb_reflx. reflexivity.
  - intros its d d' out R.
    destruct (run_published its d d' out R) as [Le Eq].
    split; [ exact Le | ].
    intros F T. destruct (Eq F) as [K Eq']. split; [ exact K | now apply Eq' ].
Qed.

Lemma status_published_once_per_transition_configured :
  match loop (online 9000) configured with
  | Done _ d' out =>
      last_state d' = MQTT_CONNECTED
      /\ publishes out = [mqtt_publish (lit "sw/state") (lit "OFF") true]
  | Crash _ _ => False
  end
  /\ match loop (online 9100) (set_last_state MQTT_CONNECTED
                                (set_loop_entered true configured)) with
     | Done _ d' out => publishes out = []
     | Crash _ _ => False
     end
  /\ match run [online 9000; online 9100; bus_lost 9200; online 9300]
             configured with
     | Done _ d' out =>
         transitions (last_state configured)
           [online 9000; online 9100; bus_lost 9200; online 9300] = 2%nat
         /\ length (publishes out) = 2%nat
     | Crash _ _ => False
     end.
Proof.
  destruct status_published_once_per_transition as [Step [Run _]].
  split; [ | split ].
  - destruct (loop (online 9000) configured) as [[] d' out | f out] eqn:E.
    + destruct (Step _ _ _ _ E) as [S [[p [Pub [_ Pi]]] _]].
      rewrite (Pi eq_refl) in Pub.
      vm_compute in E. inversion E; subst d' out.
      split; [ exact S | exact Pub ].
    + vm_compute in E. discriminate E.
  - destruct (loop (online 9100) (set_last_state MQTT_CONNECTED
                                    (set_loop_entered true configured)))
      as [[] d' out | f out] eqn:E.
    + destruct (Step _ _ _ _ E) as [_ [_ Q]].
      apply Q; [ reflexivity | ].
      vm_compute in E. inversion E; subst d' out. reflexivity.
    + vm_compute in E. discriminate E.
  - destruct (run [online 9000; online 9100; bus_lost 9200; online 9300]
                configured) as [[] d' out | f out] eqn:E.
    + destruct (Run _ _ _ _ E) as [_ Eq].
      assert (F : Forall (fun i => bt_line (console i) = None)
                    [online 9000; online 9100; bus_lost 9200; online 9300])
        by (repeat constructor).
      destruct (Eq F ltac:(vm_compute; lia)) as [_ Eq'].
      vm_compute in E. inversion E; subst d' out.
      split; [ reflexivity | exact Eq' ].
    + vm_compute in E. discriminate E.
Defined.

(** ** The interval checks across the wrap of the clock *)

(** C2.  The clock of the sketch is the 32-bit counter of [millis()]; an
    interval is measured as [now - since] on [unsigned long].  Let [tn]
    and [ts] be the true times, in ms since any origin, at which the
    clock was read as [now] and, before, as [since], less than 2^32 ms
    apart.  The wrapping subtraction is the true elapsed time modulo 2^32,
    here the true elapsed time itself, and [elapsed 5 4294967295 = 6].
    Hence, as the code runs:
    - a press of the button taken at [since] and released at [now] is
      classified by the interrupt handler after the true length of the
      press: the power state toggles, and the relay pin is written, exactly
      from 50 ms and below 5000 ms, the gate flag toggles exactly from
      5000 ms;
    - [EnsureWiFi] and [EnsureMQTT], with the link down, an endpoint set
      and the last attempt recorded at [since], a reading of the clock
      other than 0, start an attempt exactly when 60000 ms have truly
      elapsed, and record it at [now];
    - an iteration of [loop] whose timeout test reads [now], the gate
      being up since [since], leaves the gate up exactly when a client is
      attached or fewer than 600000 ms have truly elapsed; so does the gate
      of the later revision, which counts from the disconnection;
    - an iteration of [loop] whose blink test reads [now], the last blink
      being at [since], writes the status LED exactly when the blink delay
      of the tier, 250, 1000 or 5000 ms, has truly elapsed. *)
Theorem interval_checks_across_wrap (tn ts : Z) :
  0 <= tn - ts < 2 ^ 32 ->
  let now := wrap tn in
  let since := wrap ts in
  let T := tn - ts in
  elapsed now since = T mod 2 ^ 32
  /\ elapsed now since = T
  /\ elapsed 5 4294967295 = 6
  /\ (forall d,
        button_press d = false ->
        exists d' out,
          edges (press_release since [] now) d = Done tt d' out
          /\ power_enable d'
             = xorb (power_enable d) ((50 <=? T) && (T <? 5000))
          /\ bluetooth_enable d' = xorb (bluetooth_enable d) (5000 <=? T)
          /\ out = (if (50 <=? T) && (T <? 5000)
                    then [digitalWrite POWER_PIN (negb (power_enable d))]
                    else []))
  /\ (forall status d,
        status <> WL_CONNECTED ->
        (0 < strlen (wifi_ssid (settings d)))%nat ->
        wifi_last_try d = since -> since <> 0 ->
        exists d' out,
          EnsureWiFi status now d = Done false d' out
          /\ wifi_attempts out = (if 60000 <=? T then 1%nat else 0%nat)
          /\ wifi_last_try d' = (if 60000 <=? T then now else since))
  /\ (forall state success d,
        state <> MQTT_CONNECTED ->
        (0 < strlen (mqtt_server (settings d)))%nat ->
        mqtt_last_try d = since -> since <> 0 ->
        exists r d' out,
          EnsureMQTT state now success d = Done r d' out
          /\ mqtt_attempts out = (if 60000 <=? T then 1%nat else 0%nat)
          /\ mqtt_last_try d' = (if 60000 <=? T then now else since))
  /\ (forall i d d' out,
        loop i d = Done tt d' out ->
        millis_timeout i = now ->
        (if loop_entered d && bluetooth_enable d
            && negb (last_bluetooth_enable d)
         then millis_enable i else bluetooth_enable_millis d) = since ->
        bluetooth_enable d'
        = bluetooth_enable d && (bt_hasClient i || negb (600000 <=? T)))
  /\ (forall has_client now_edge g,
        Rev2.config_enable g = true ->
        (if negb (Bool.eqb has_client (Rev2.last_bluetooth_has_client g))
            && negb has_client
         then now_edge else Rev2.bluetooth_disconnected_millis g) = since ->
        Rev2.config_enable (Rev2.gate_step has_client now_edge now g)
        = has_client || negb (600000 <=? T))
  /\ (forall i d d' out,
        loop i d = Done tt d' out ->
        millis_blink i = now ->
        last_blink d = since ->
        (blink_delay d' = 250 \/ blink_delay d' = 1000
         \/ blink_delay d' = 5000)
        /\ led_writes out
           = (if blink_delay d' <=? T
              then [digitalWrite STATUS_LED (negb (led i))] else [])
        /\ last_blink d'
           = (if blink_delay d' <=? T then millis_blink_set i else since)).
Proof.
  intros H now since T.
  destruct elapsed_true_time as [Mod [Six True_time]].
  assert (E : elapsed now since = T) by apply (True_time tn ts 0 H).
  split; [ apply Mod | ]. split; [ exact E | ]. split; [ exact Six | ].
  split; [ | split; [ | split; [ | split; [ | split ] ] ] ].
  - intros d P.
    rewrite (press_release_run d since [] now P).
    set (d1 := set_button_press_millis since (set_button_press true d)).
    assert (P1 : button_press d1 = true) by now destruct d.
    assert (M1 : button_press_millis d1 = since) by now destruct d.
    assert (W1 : power_enable d1 = power_enable d) by now destruct d.
    assert (G1 : bluetooth_enable d1 = bluetooth_enable d) by now destruct d.
    destruct (ButtonChangeISR_release d1 now P1)
      as (d' & out & Run & _ & Short & Mid & Long).
    rewrite M1, E, W1, G1 in *.
    exists d', out. split; [ exact Run | ].
    destruct (Z.leb_spec 50 T) as [ L1 | L1 ];
      destruct (Z.ltb_spec T 5000) as [ L2 | L2 ];
      destruct (Z.leb_spec 5000 T) as [ L3 | L3 ]; try lia; cbn [andb].
    + destruct (Mid ltac:(lia)) as [A [B C]].
      rewrite A, B, C. now destruct (power_enable d), (bluetooth_enable d).
    + destruct (Long ltac:(lia)) as [A [B C]].
      rewrite A, B, C. now destruct (power_enable d), (bluetooth_enable d).
    + destruct (Short ltac:(lia)) as [A [B C]].
      rewrite A, B, C. now destruct (power_enable d), (bluetooth_enable d).
  - intros status d C S L N.
    destruct (EnsureWiFi_retry status now d C S) as (out & Run & A & _).
    rewrite L, E in Run, A.
    apply Z.eqb_neq in N. rewrite N in Run, A. cbn [orb] in Run, A.
    eexists _, out. split; [ exact Run | ]. split; [ exact A | ].
    destruct (60000 <=? T); destruct d; cbn in *; congruence.
  - intros state success d C S L N.
    destruct (EnsureMQTT_retry state now success d C S) as (out & Run & A & _).
    rewrite L, E in Run, A.
    apply Z.eqb_neq in N. rewrite N in Run, A. cbn [orb] in Run, A.
    destruct (60000 <=? T).
    + eexists _, _, out. split; [ exact Run | ]. split; [ exact A | ].
      now destruct d.
    + eexists _, _, out. split; [ exact Run | ]. split; [ exact A | ].
      destruct d; cbn in *; congruence.
  - intros i d d' out Run Hn Hs.
    pose proof (loop_gate i d) as G.
    unfold ends_with in G. rewrite Run in G. cbv zeta in G.
    destruct G as [_ [_ [G _]]].
    rewrite G, Hs, Hn, E. reflexivity.
  - intros has_client now_edge g C Hs.
    destruct g as [ce lce lc dm].
    cbv [Rev2.config_enable Rev2.last_bluetooth_has_client
         Rev2.bluetooth_disconnected_millis] in C, Hs.
    subst ce.
    destruct has_client, lc;
      cbv [Bool.eqb negb andb] in Hs;
      cbv [Rev2.gate_step Rev2.config_enable Rev2.last_bluetooth_has_client
           Rev2.bluetooth_disconnected_millis Rev2.last_config_enable
           Bool.eqb negb andb orb];
      try reflexivity;
      rewrite Hs, E; destruct (600000 <=? T); reflexivity.
  - intros i d d' out Run Hn Hs.
    pose proof (loop_tiers i d) as G.
    unfold ends_with in G. rewrite Run in G.
    destruct G as [Tier [W B]].
    rewrite Hs, Hn, E in W, B.
    split; [ | split; assumption ].
    destruct Tier as [ (_ & D & _) | [ (_ & _ & D & _) | (_ & D & _) ] ];
      auto.
Qed.

Lemma interval_checks_across_wrap_71_seconds :
  elapsed 70000 4294966296 = 71000
  /\ (exists d' out,
        edges (press_release 4294966296 [] 70000) reset = Done tt d' out
        /\ power_enable d' = false
        /\ bluetooth_enable d' = true
        /\ out = [])
  /\ (exists d' out,
        EnsureWiFi WL_DISCONNECTED 70000
          (set_wifi_last_try 4294966296 configured) = Done false d' out
        /\ wifi_attempts out = 1%nat
        /\ wifi_last_try d' = 70000)
  /\ (exists r d' out,
        EnsureMQTT MQTT_DISCONNECTED 70000 true
          (set_mqtt_last_try 4294966296 configured) = Done r d' out
        /\ mqtt_attempts out = 1%nat
        /\ mqtt_last_try d' = 70000)
  /\ match loop (tick 70000 false)
             (set_last_blink 4294966296
                (set_bluetooth_enable_millis 4294966296
                   (set_bluetooth_enable true reset))) with
     | Done _ d' out =>
         bluetooth_enable d' = true
         /\ led_writes out
            = (if blink_delay d' <=? 71000
               then [digitalWrite STATUS_LED true] else [])
     | Crash _ _ => False
     end
  /\ Rev2.config_enable
       (Rev2.gate_step false 0 70000 (Rev2.mkGate true true false 4294966296))
     = true.
Proof.
  assert (H : 0 <= (2 ^ 32 + 70000) - (2 ^ 32 - 1000) < 2 ^ 32)
    by (change (2 ^ 32) with 4294967296; lia).
  assert (N : 4294966296 <> 0) by lia.
  destruct (interval_checks_across_wrap (2 ^ 32 + 70000) (2 ^ 32 - 1000) H)
    as (_ & E & _ & B & W & Q & G & G2 & L).
  split; [ exact E | ].
  split; [ exact (B reset eq_refl) | ].
  split.
  { apply (W WL_DISCONNECTED (set_wifi_last_try 4294966296 configured));
      [ discriminate | vm_compute; lia | reflexivity | exact N ]. }
  split.
  { apply (Q MQTT_DISCONNECTED true (set_mqtt_last_try 4294966296 configured));
      [ discriminate | vm_compute; lia | reflexivity | exact N ]. }
  split.
  - destruct (loop (tick 70000 false)
                (set_last_blink 4294966296
                   (set_bluetooth_enable_millis 4294966296
                      (set_bluetooth_enable true reset))))
      as [[] d' out | f out] eqn:Run.
    + split.
      * exact (G _ _ _ _ Run eq_refl eq_refl).
      * exact (proj1 (proj2 (L _ _ _ _ Run eq_refl eq_refl))).
    + vm_compute in Run. discriminate Run.
  - exact (G2 false 0 (Rev2.mkGate true true false 4294966296)
             eq_refl eq_refl).
Defined.

(** C2 as stated fails for the retry interval.  A retry that comes due
    at the true time 2^32 ms, when the clock wraps, is recorded as 0, the
    value that stands for no attempt so far.  At 2^32 + 1 ms the wrapping
    difference is the true elapsed time, 1 ms, and yet the check
    [last == 0 || now - last >= 60000] of [EnsureMQTT] and of [EnsureWiFi]
    answers that a retry is due. *)
Lemma retry_check_after_wrap :
  let ts := 2 ^ 32 in
  let tn := 2 ^ 32 + 1 in
  0 <= tn - ts < 2 ^ 32
  /\ elapsed (wrap tn) (wrap ts) = tn - ts
  /\ (60000 <=? tn - ts) = false
  /\ (exists d1 o1 d2 o2,
        EnsureMQTT MQTT_DISCONNECTED (wrap ts) false
          (set_mqtt_last_try (wrap (ts - 60000)) configured)
        = Done false d1 o1
        /\ mqtt_attempts o1 = 1%nat
        /\ mqtt_last_try d1 = wrap ts
        /\ EnsureMQTT MQTT_DISCONNECTED (wrap tn) false d1 = Done false d2 o2
        /\ mqtt_attempts o2 = 1%nat)
  /\ wifi_attempts
       (output (EnsureWiFi WL_DISCONNECTED (wrap tn)
                  (set_wifi_last_try (wrap ts) configured)))
     = 1%nat.
Proof.
  cbv zeta.
  split; [ change (2 ^ 32) with 4294967296; lia | ].
  split; [ reflexivity | ]. split; [ reflexivity | ].
  split; [ | vm_compute; reflexivity ].
  eexists _, _, _, _.
  split; [ vm_compute; reflexivity | ].
  split; [ reflexivity | ]. split; [ reflexivity | ].
  split; [ vm_compute; reflexivity | reflexivity ].
Qed.
